(** * Stateful key/value cache and greedy decoding loop of the Mistral7B example

    A shallow embedding of [Examples/Mistral7B/export.py] (the slice-update
    key/value cache, the cache-aware attention step and the stateful forward
    pass) and of [Examples/Mistral7B/generate.py] (mask construction, greedy
    selection and the decoding loop), with the properties of the design
    document stated and settled over it.

    Conventions.
    - A tensor is its shape together with its elements as nested lists, the
      outermost list being the first axis.  The scalar type [A] of the cache
      is abstract: only [zero] is ever needed.
    - Python integers are [Z]; sizes and counts that the code obtains from a
      shape are [nat].
    - An exception is a value of [exn]; code that mutates [self] before it
      raises is a function [S -> S * (exn + R)], so that the state at the
      time of the exception is part of the result. *)

From stdpp Require Import list gmap strings.
From Stdlib Require Import ZArith Lia.

(** ** Exceptions and the state-and-exception monad *)

Inductive exn : Set :=
| ValueError    (* raised by the code itself *)
| IndexError    (* integer index out of range *)
| RuntimeError. (* tensor library: negative dimension, shapes that do not broadcast *)

Definition M (S R : Type) : Type := S -> S * (exn + R).

Definition ret {S R} (r : R) : M S R := fun s => (s, inr r).
Definition raise {S R} (e : exn) : M S R := fun s => (s, inl e).
Definition bind {S R R'} (m : M S R) (k : R -> M S R') : M S R' :=
  fun s => match m s with
           | (s', inr r) => k r s'
           | (s', inl e) => (s', inl e)
           end.
Definition get {S} : M S S := fun s => (s, inr s).
Definition put {S} (s : S) : M S unit := fun _ => (s, inr tt).
Definition lift {S R} (r : exn + R) : M S R := fun s => (s, r).

Notation "'let*' x ':=' m 'in' k" := (bind m (fun x => k))
  (at level 10, x pattern, m at level 100, k at level 200).
Notation "m ';;' k" := (bind m (fun _ => k))
  (at level 100, k at level 200, right associativity).

(** ** Tensors *)

Record Tensor4 (A : Type) : Type := mkTensor4 {
  shape4 : nat * nat * nat * nat;
  data4 : list (list (list (list A)))
}.
Arguments mkTensor4 {A} _ _.
Arguments shape4 {A} _.
Arguments data4 {A} _.

Record Tensor5 (A : Type) : Type := mkTensor5 {
  shape5 : nat * nat * nat * nat * nat;
  data5 : list (list (list (list (list A))))
}.
Arguments mkTensor5 {A} _ _.
Arguments shape5 {A} _.
Arguments data5 {A} _.

(** The elements agree with the shape. *)
Definition wf_data4 {A} (s : nat * nat * nat * nat) (d : list (list (list (list A)))) : Prop :=
  let '(B, H, N, D) := s in
  length d = B /\
  Forall (fun heads => length heads = H /\
    Forall (fun poss => length poss = N /\
      Forall (fun v : list A => length v = D) poss) heads) d.

Definition wf4 {A} (t : Tensor4 A) : Prop := wf_data4 (shape4 t) (data4 t).

Definition wf5 {A} (t : Tensor5 A) : Prop :=
  let '(L, B, H, C, D) := shape5 t in
  length (data5 t) = L /\ Forall (wf_data4 (B, H, C, D)) (data5 t).

(** The elements of one layer, the position-axis capacity of a buffer and
    the number of positions of a chunk. *)
Definition layer_data {A} (buf : Tensor5 A) (l : nat) : list (list (list (list A))) :=
  default [] (data5 buf !! l).
Definition capacity {A} (buf : Tensor5 A) : nat := (shape5 buf).1.2.
Definition positions {A} (t : Tensor4 A) : nat := (shape4 t).1.2.

(** *** Indexing as the tensor library does it *)

(** [t[i]] on an axis of [size] elements: a negative index counts from the
    end, an index outside [-size, size) raises IndexError. *)
Definition index_int (size : nat) (i : Z) : option nat :=
  if (0 <=? i)%Z then
    (if (i <? Z.of_nat size)%Z then Some (Z.to_nat i) else None)
  else
    (if (0 <=? i + Z.of_nat size)%Z then Some (Z.to_nat (i + Z.of_nat size)) else None).

(** One bound of a slice [a:b] on an axis of [size] elements: a negative
    bound counts from the end, and the result is clamped into [0, size]. *)
Definition slice_bound (size : nat) (i : Z) : nat :=
  if (i <? 0)%Z then Z.to_nat (Z.max 0 (i + Z.of_nat size))
  else Z.to_nat (Z.min i (Z.of_nat size)).

(** A source axis of [src] elements broadcasts to a destination axis of
    [dst] elements when they are equal or the source has one element. *)
Definition broadcast_dim (src dst : nat) : bool :=
  (src =? dst) || (src =? 1).

Definition broadcastable (src dst : nat * nat * nat * nat) : bool :=
  let '(b, h, n, d) := src in
  let '(b', h', n', d') := dst in
  broadcast_dim b b' && broadcast_dim h h' && broadcast_dim n n' && broadcast_dim d d'.

Definition expand {X} (n : nat) (l : list X) : list X :=
  match l with
  | [x] => replicate n x
  | _ => l
  end.

Definition expand4 {A} (s : nat * nat * nat * nat) (d : list (list (list (list A))))
  : list (list (list (list A))) :=
  let '(B, H, N, D) := s in
  expand B (map (fun heads => expand H (map (fun poss => expand N (map (expand D) poss)) heads)) d).

(** The source rows for destination element [(bi, hi)]. *)
Definition chunk_at {A} (src : list (list (list (list A)))) (bi hi : nat) : list (list A) :=
  match src !! bi with
  | Some heads => default [] (heads !! hi)
  | None => []
  end.

(** Positions [[b, b + m)] of [poss] replaced by the [m] rows [rows]. *)
Definition write_positions {A} (b m : nat) (rows poss : list (list A)) : list (list A) :=
  take b poss ++ rows ++ drop (b + m) poss.

(** [dst[:, :h, b:b+m, :] = src] on the elements of one layer, [src] already
    expanded to the shape of the destination view. *)
Definition write_view {A} (h b m : nat) (src dst : list (list (list (list A))))
  : list (list (list (list A))) :=
  imap (fun bi heads =>
    imap (fun hi poss =>
      if decide (hi < h) then write_positions b m (chunk_at src bi hi) poss else poss)
      heads) dst.

(** The buffer after [buf[l, :, :h, b:b+m, :] = src], with [src] of the
    shape of the destination view. *)
Definition write_layer {A} (buf : Tensor5 A) (l h b m : nat)
    (src : list (list (list (list A)))) : Tensor5 A :=
  mkTensor5 (shape5 buf) (alter (write_view h b m src) l (data5 buf)).

(** [buf[layer_idx, :, :heads_stop, begin:end, :] = src]. *)
Definition setitem_slice {A} (buf : Tensor5 A) (layer_idx : Z) (heads_stop : nat)
    (begin end_ : Z) (src : Tensor4 A) : exn + Tensor5 A :=
  let '(L, B, H, C, D) := shape5 buf in
  match index_int L layer_idx with
  | None => inl IndexError
  | Some l =>
      let h := slice_bound H (Z.of_nat heads_stop) in
      let b := slice_bound C begin in
      let e := slice_bound C end_ in
      let m := e - b in
      if broadcastable (shape4 src) (B, h, m, D) then
        inr (write_layer buf l h b m (expand4 (B, h, m, D) (data4 src)))
      else inl RuntimeError
  end.

(** [buf[layer_idx, :, :, :end, :]]. *)
Definition getitem_prefix {A} (buf : Tensor5 A) (layer_idx : Z) (end_ : Z)
  : exn + Tensor4 A :=
  let '(L, B, H, C, D) := shape5 buf in
  match index_int L layer_idx with
  | None => inl IndexError
  | Some l =>
      let e := slice_bound C end_ in
      inr (mkTensor4 (B, H, e, D) (map (map (take e)) (layer_data buf l)))
  end.

(** The zero-filled tensor of a given shape. *)
Definition zeros5 {A} (zero : A) (L B H C D : nat) : Tensor5 A :=
  mkTensor5 (L, B, H, C, D)
    (replicate L (replicate B (replicate H (replicate C (replicate D zero))))).

(** [torch.zeros(shape)]: a negative dimension is refused, a zero dimension
    gives an empty tensor. *)
Definition torch_zeros {A} (zero : A) (shape : Z * Z * Z * Z * Z) : exn + Tensor5 A :=
  let '(L, B, H, C, D) := shape in
  if ((L <? 0) || (B <? 0) || (H <? 0) || (C <? 0) || (D <? 0))%Z then inl RuntimeError
  else inr (zeros5 zero (Z.to_nat L) (Z.to_nat B) (Z.to_nat H) (Z.to_nat C) (Z.to_nat D)).

(** ** export.py: SliceUpdateKeyValueCache *)

Record SliceUpdateKeyValueCache (A : Type) : Type := mkCache {
  past_seen_tokens : Z;
  k_cache : Tensor5 A;
  v_cache : Tensor5 A
}.
Arguments mkCache {A} _ _ _.
Arguments past_seen_tokens {A} _.
Arguments k_cache {A} _.
Arguments v_cache {A} _.

Definition set_past_seen_tokens {A} (n : Z) (c : SliceUpdateKeyValueCache A) :=
  mkCache n (k_cache c) (v_cache c).
Definition set_k_cache {A} (k : Tensor5 A) (c : SliceUpdateKeyValueCache A) :=
  mkCache (past_seen_tokens c) k (v_cache c).
Definition set_v_cache {A} (v : Tensor5 A) (c : SliceUpdateKeyValueCache A) :=
  mkCache (past_seen_tokens c) (k_cache c) v.

(** [SliceUpdateKeyValueCache.__init__]: the shape is the 5-tuple
    (#layers, batch_size, #kv_heads, context_size, head_dim) of the
    docstring. *)
Definition SliceUpdateKeyValueCache_init {A} (zero : A) (shape : Z * Z * Z * Z * Z)
  : exn + SliceUpdateKeyValueCache A :=
  let past := 0%Z in
  match torch_zeros zero shape with
  | inl e => inl e
  | inr k =>
      match torch_zeros zero shape with
      | inl e => inl e
      | inr v => inr (mkCache past k v)
      end
  end.

(** [SliceUpdateKeyValueCache.update]. *)
Definition update {A} (k_state v_state : Tensor4 A) (layer_idx : Z) (slice_indices : list Z)
  : M (SliceUpdateKeyValueCache A) (Tensor4 A * Tensor4 A) :=
  match slice_indices with
  | [begin; end_] =>
      let* self := get in
      let* k' := lift (setitem_slice (k_cache self) layer_idx (shape4 k_state).1.1.2
                         begin end_ k_state) in
      put (set_k_cache k' self);;
      let* self := get in
      let* v' := lift (setitem_slice (v_cache self) layer_idx (shape4 v_state).1.1.2
                         begin end_ v_state) in
      put (set_v_cache v' self);;
      let* self := get in
      let* k_view := lift (getitem_prefix (k_cache self) layer_idx end_) in
      let* v_view := lift (getitem_prefix (v_cache self) layer_idx end_) in
      ret (k_view, v_view)
  | _ => raise ValueError
  end.

(** [SliceUpdateKeyValueCache.get_seq_length]. *)
Definition get_seq_length {A} (self : SliceUpdateKeyValueCache A) : Z :=
  past_seen_tokens self.

(** ** Attention masks *)

(** The two values an additive mask takes: [0] (attend) and [-inf]. *)
Inductive mval : Set := Zero | NegInf.

Definition last_dim {X} (t : Tensor4 X) : nat := (shape4 t).2.

(** ** export.py: SliceUpdateMistralAttention and StatefulMistralForCausalLM

    The transformer itself is an external collaborator: its projections,
    rotary embedding, grouped-head expansion, attention kernel and the rest of
    a decoder layer are parameters.  What is modelled is the code of
    export.py around them: which slice of the cache a layer writes and reads,
    and what the stateful forward pass does to the counter. *)

Definition Logits : Type := list (list (list Z)).

(** The external transformer. *)
Class Transformer (A : Type) : Type := {
  (** Hidden states, with the batch size and the number of positions of
      [hidden_states.size()]. *)
  Hidden : Type;
  size_of : Hidden -> nat * nat * nat;
  (** [self.q_proj], [self.k_proj], [self.v_proj] of the layer, each with
      its [.view(bsz, q_len, heads, head_dim).transpose(1, 2)]. *)
  q_proj : nat -> Hidden -> Tensor4 A;
  k_proj : nat -> Hidden -> Tensor4 A;
  v_proj : nat -> Hidden -> Tensor4 A;
  (** [self.rotary_emb] and [apply_rotary_pos_emb]. *)
  Rotary : Type;
  rotary_emb : nat -> Tensor4 A -> list Z -> Rotary;
  apply_rotary_pos_emb : Tensor4 A -> Tensor4 A -> Rotary -> Tensor4 A * Tensor4 A;
  (** [repeat_kv] with [self.num_key_value_groups]. *)
  repeat_kv : Tensor4 A -> nat -> Tensor4 A;
  num_key_value_groups : nat;
  (** [torch.nn.functional.scaled_dot_product_attention]. *)
  scaled_dot_product_attention :
    Tensor4 A -> Tensor4 A -> Tensor4 A -> Tensor4 mval -> Tensor4 A;
  (** [.transpose(1, 2).contiguous().view(bsz, q_len, hidden_size)] and
      [self.o_proj]. *)
  o_proj : nat -> Tensor4 A -> Hidden;
  (** [self.model] around the attention layers: token embedding, the
      remainder of each decoder layer, the final norm and head, and
      [config.num_hidden_layers]. *)
  embed_tokens : list Z -> Hidden;
  decoder_layer_rest : nat -> Hidden -> Hidden -> Hidden;
  lm_head : Hidden -> Logits;
  num_hidden_layers : nat
}.

Section Model.
Context {A : Type} {T : Transformer A}.

(** The key and value chunks a layer computes from its hidden states
    (lines 82-94 of export.py). *)
Definition key_chunk (layer_idx : nat) (hidden_states : Hidden) (position_ids : list Z)
  : Tensor4 A :=
  let query_states := q_proj layer_idx hidden_states in
  let key_states := k_proj layer_idx hidden_states in
  let value_states := v_proj layer_idx hidden_states in
  let cos_sin := rotary_emb layer_idx value_states position_ids in
  (apply_rotary_pos_emb query_states key_states cos_sin).2.

Definition value_chunk (layer_idx : nat) (hidden_states : Hidden) : Tensor4 A :=
  v_proj layer_idx hidden_states.

(** [q_len] of [bsz, q_len, _ = hidden_states.size()]. *)
Definition q_len_of (hidden_states : Hidden) : nat := (size_of hidden_states).1.2.

(** [slice_indices=(end_step - q_len, end_step)]. *)
Definition slice_indices_of (attention_mask : Tensor4 mval) (q_len : nat) : list Z :=
  let end_step := Z.of_nat (last_dim attention_mask) in
  [(end_step - Z.of_nat q_len)%Z; end_step].

(** [SliceUpdateMistralAttention.forward] of the layer [layer_idx], on the
    cache [past_key_value]. *)
Definition attention_forward (layer_idx : nat) (hidden_states : Hidden)
    (attention_mask : Tensor4 mval) (position_ids : list Z)
  : M (SliceUpdateKeyValueCache A) Hidden :=
  let q_len := q_len_of hidden_states in
  let query_states := q_proj layer_idx hidden_states in
  let key_states := k_proj layer_idx hidden_states in
  let value_states := v_proj layer_idx hidden_states in
  let cos_sin := rotary_emb layer_idx value_states position_ids in
  let '(query_states, key_states) :=
    apply_rotary_pos_emb query_states key_states cos_sin in
  (* Slice update key/value cache *)
  let* (key_states, value_states) :=
    update key_states value_states (Z.of_nat layer_idx)
           (slice_indices_of attention_mask q_len) in
  let key_states := repeat_kv key_states num_key_value_groups in
  let value_states := repeat_kv value_states num_key_value_groups in
  let attn_output :=
    scaled_dot_product_attention query_states key_states value_states attention_mask in
  ret (o_proj layer_idx attn_output).

(** The decoder layers in order, each calling its attention step. *)
Fixpoint decoder_layers (layers : list nat) (hidden_states : Hidden)
    (attention_mask : Tensor4 mval) (position_ids : list Z)
  : M (SliceUpdateKeyValueCache A) Hidden :=
  match layers with
  | [] => ret hidden_states
  | layer_idx :: layers' =>
      let* attn_output :=
        attention_forward layer_idx hidden_states attention_mask position_ids in
      decoder_layers layers' (decoder_layer_rest layer_idx hidden_states attn_output)
                     attention_mask position_ids
  end.

(** The positions of the new tokens, counted from the sequence length the
    cache reports. *)
Definition position_ids_of (past : Z) (q_len : nat) : list Z :=
  map (fun i => (past + Z.of_nat i)%Z) (seq 0 q_len).

(** [self.model(input_ids, attention_mask=..., past_key_values=...).logits]. *)
Definition model_call (input_ids : list Z) (attention_mask : Tensor4 mval)
  : M (SliceUpdateKeyValueCache A) Logits :=
  let* past_key_values := get in
  let position_ids := position_ids_of (get_seq_length past_key_values) (length input_ids) in
  let* hidden_states :=
    decoder_layers (seq 0 num_hidden_layers) (embed_tokens input_ids)
                   attention_mask position_ids in
  ret (lm_head hidden_states).

(** [StatefulMistralForCausalLM.forward], on [self.kv_cache].  [input_ids]
    is the single row of the (1, n) array. *)
Definition forward (input_ids : list Z) (causal_mask : Tensor4 mval)
  : M (SliceUpdateKeyValueCache A) Logits :=
  (* Compute past seen tokens used for updating key/value cache slices *)
  let* kv_cache := get in
  put (set_past_seen_tokens
         (Z.of_nat (last_dim causal_mask) - Z.of_nat (length input_ids))%Z kv_cache);;
  model_call input_ids causal_mask.
End Model.

(** ** generate.py *)

(** [np.full(shape, fill_value)] for a 4-axis shape. *)
Definition np_full {X} (shape : nat * nat * nat * nat) (fill_value : X) : Tensor4 X :=
  let '(a, b, n, w) := shape in
  mkTensor4 shape (replicate a (replicate b (replicate n (replicate w fill_value)))).

(** [np.triu(m, k)]: on the last two axes, the entry at row [i] and column
    [j] is kept when [j >= i + k] and replaced by zero otherwise. *)
Definition np_triu (m : Tensor4 mval) (k : nat) : Tensor4 mval :=
  mkTensor4 (shape4 m)
    (map (map (imap (fun i row =>
       imap (fun j x => if decide (i + k <= j) then x else Zero) row))) (data4 m)).

(** [.astype(np.float16)]: both mask values are float16 values. *)
Definition astype_float16 (m : Tensor4 mval) : Tensor4 mval := m.

(** The mask built in [inference]. *)
Definition causal_mask (input_ids : list Z) (num_past_tokens : nat) : Tensor4 mval :=
  astype_float16
    (np_triu
       (np_full (1, 1, length input_ids, num_past_tokens + length input_ids)
                (if num_past_tokens =? 0 then NegInf else Zero))
       1).

Definition mask_entry (m : Tensor4 mval) (i j : nat) : option mval :=
  match data4 m with
  | [[rows]] => match rows !! i with Some row => row !! j | None => None end
  | _ => None
  end.

(** [np.argmax] of a vector: the first index holding the largest value;
    ValueError on an empty vector. *)
Fixpoint argmax_from (best_i : nat) (best : Z) (i : nat) (v : list Z) : nat :=
  match v with
  | [] => best_i
  | x :: v' =>
      if (best <? x)%Z then argmax_from i x (S i) v'
      else argmax_from best_i best (S i) v'
  end.

Definition np_argmax (v : list Z) : exn + nat :=
  match v with
  | [] => inl ValueError
  | x :: v' => inr (argmax_from 0 x 1 v')
  end.

(** [sample]: [int(np.argmax(logits[0][-1], axis=-1))]. *)
Definition sample (logits : Logits) : exn + Z :=
  match logits with
  | [] => inl IndexError
  | logits0 :: _ =>
      match last logits0 with
      | None => inl IndexError
      | Some scores =>
          match np_argmax scores with
          | inl e => inl e
          | inr i => inr (Z.of_nat i)
          end
      end
  end.

Section Driver.
(** The Core ML model: [model.make_state()] and
    [model.predict(data={"inputIds", "causalMask"}, state)], which updates
    the state in place and returns the logits. *)
Variable State : Type.
Variable make_state : State.
Variable predict : list Z -> Tensor4 mval -> M State Logits.

(** [inference], on [kv_cache_state]. *)
Definition inference (input_ids : list Z) (num_past_tokens : nat) : M State Logits :=
  let causal_mask := causal_mask input_ids num_past_tokens in
  let* outputs := predict input_ids causal_mask in
  ret outputs.

(** The generator [get_next_token], suspended at [yield token]. *)
Record Generator : Type := mkGenerator {
  kv_cache_state : State;
  token : Z;
  num_past_tokens : nat
}.

(** From the call to the first [yield]. *)
Definition get_next_token (prompt_tokens : list Z) : exn + Generator :=
  let kv_cache_state := make_state in
  match (let* logits := inference prompt_tokens 0 in
         lift (sample logits)) kv_cache_state with
  | (kv_cache_state, inr token) =>
      inr (mkGenerator kv_cache_state token (length prompt_tokens))
  | (_, inl e) => inl e
  end.

(** From one [yield] to the next. *)
Definition next (g : Generator) : exn + Generator :=
  match (let* logits := inference [token g] (num_past_tokens g) in
         lift (sample logits)) (kv_cache_state g) with
  | (kv_cache_state, inr token) =>
      inr (mkGenerator kv_cache_state token (num_past_tokens g + 1))
  | (_, inl e) => inl e
  end.

(** The generator after [k] further items. *)
Fixpoint advance (k : nat) (g : Generator) : exn + Generator :=
  match k with
  | 0 => inr g
  | S k' => match next g with
            | inr g' => advance k' g'
            | inl e => inl e
            end
  end.

(** The loop of [generate]: [g] is the generator at the item with index
    [i]; the result is the generator at the [break] together with
    [extend_tokens].  [None] when the fuel does not suffice. *)
Fixpoint generate_loop (fuel : nat) (eos_token_id max_new_tokens : Z)
    (i : Z) (g : Generator) (extend_tokens : list Z)
  : option (exn + Generator * list Z) :=
  match fuel with
  | 0 => None
  | S fuel' =>
      if ((token g =? eos_token_id) || (i =? max_new_tokens))%Z then
        Some (inr (g, extend_tokens))
      else
        match next g with
        | inr g' =>
            generate_loop fuel' eos_token_id max_new_tokens (i + 1)%Z g'
                          (extend_tokens ++ [token g])
        | inl e => Some (inl e)
        end
  end.

(** [generate] up to [tokenizer.decode]: the tokens appended to the
    prompt. *)
Definition generate_tokens (fuel : nat) (prompt_tokens : list Z)
    (eos_token_id max_new_tokens : Z) : option (exn + Generator * list Z) :=
  match get_next_token prompt_tokens with
  | inr g => generate_loop fuel eos_token_id max_new_tokens 0 g []
  | inl e => Some (inl e)
  end.

(** [generate]: the text decoded from the prompt and the new tokens. *)
Definition generate {Text : Type} (decode : list Z -> Text) (fuel : nat)
    (prompt_tokens : list Z) (eos_token_id max_new_tokens : Z) : option (exn + Text) :=
  match generate_tokens fuel prompt_tokens eos_token_id max_new_tokens with
  | Some (inr (_, extend_tokens)) => Some (inr (decode (prompt_tokens ++ extend_tokens)))
  | Some (inl e) => Some (inl e)
  | None => None
  end.
End Driver.

Arguments kv_cache_state {State} _.
Arguments token {State} _.
Arguments num_past_tokens {State} _.
Arguments mkGenerator {State} _ _ _.

(** ** Notions used in the statements *)

(** Two buffers hold the same rows at the positions below [bound] of the
    layer [l]; above it they may differ. *)
Definition agree_below {A} (bound : nat) (t1 t2 : Tensor5 A) (l : nat) : Prop :=
  forall bi hi p, p < bound ->
    chunk_at (layer_data t1 l) bi hi !! p = chunk_at (layer_data t2 l) bi hi !! p.

(** The shape discipline of the external transformer with respect to a cache
    of batch size [B], [H] key/value heads and head dimension [D]: the key
    and value chunks of a layer have one row per new position, and the
    number of positions of the hidden states is that of the input tokens
    throughout the layers. *)
Class WellShaped {A} (T : Transformer A) (B H D : nat) : Prop := {
  key_chunk_shape : forall l h pos, shape4 (key_chunk l h pos) = (B, H, q_len_of h, D);
  key_chunk_wf : forall l h pos, wf4 (key_chunk l h pos);
  value_chunk_shape : forall l h, shape4 (value_chunk l h) = (B, H, q_len_of h, D);
  value_chunk_wf : forall l h, wf4 (value_chunk l h);
  embed_tokens_q_len : forall input_ids, q_len_of (embed_tokens input_ids) = length input_ids;
  decoder_layer_rest_q_len :
    forall l h attn_output, q_len_of (decoder_layer_rest l h attn_output) = q_len_of h
}.

(** In every layer, batch entry and head of the buffer, the rows from
    position [p] on are still the zero rows of the construction. *)
Definition unwritten_from {A} (zero : A) (p : nat) (buf : Tensor5 A) : Prop :=
  let '(L, B, H, C, D) := shape5 buf in
  forall l bi hi, l < L -> bi < B -> hi < H ->
    drop p (chunk_at (layer_data buf l) bi hi) = replicate (C - p) (replicate D zero).

(** The invariant of a session started on a zero-filled cache of shape
    (num_hidden_layers, B, H, C, D), at occupancy [p]. *)
Definition session_inv {A} {T : Transformer A} (zero : A) (B H C D : nat)
    (c : SliceUpdateKeyValueCache A) (p : nat) : Prop :=
  shape5 (k_cache c) = (num_hidden_layers, B, H, C, D) /\
  shape5 (v_cache c) = (num_hidden_layers, B, H, C, D) /\
  wf5 (k_cache c) /\ wf5 (v_cache c) /\
  unwritten_from zero p (k_cache c) /\ unwritten_from zero p (v_cache c).

(** ** export.py: StatefulMistralForCausalLM.__init__ *)

(** The fields of the configuration that [__init__] reads. *)
Record MistralConfig : Set := mkMistralConfig {
  config_num_hidden_layers : Z;
  config_num_key_value_heads : Z;
  config_hidden_size : Z;
  config_num_attention_heads : Z
}.

(** What the constructor can raise: the division by zero of [//], or an
    exception of the construction of the cache. *)
Inductive init_exn : Set :=
| ZeroDivisionError
| CacheError (e : exn).

(** [self.kv_cache_shape]; [//] is the floor division of Python integers. *)
Definition kv_cache_shape (config : MistralConfig) (max_context_size batch_size : Z)
  : init_exn + Z * Z * Z * Z * Z :=
  if (config_num_attention_heads config =? 0)%Z then inl ZeroDivisionError
  else inr (config_num_hidden_layers config,
            batch_size,
            config_num_key_value_heads config,
            max_context_size,
            (config_hidden_size config / config_num_attention_heads config)%Z).

(** [StatefulMistralForCausalLM.__init__], given the configuration of the
    model [from_pretrained] returned: the shape and the cache of the module.
    The buffers registered as "keyCache" and "valueCache" are the tensors of
    this cache themselves, not copies. *)
Definition StatefulMistralForCausalLM_init {A} (zero : A) (config : MistralConfig)
    (max_context_size batch_size : Z)
  : init_exn + (Z * Z * Z * Z * Z) * SliceUpdateKeyValueCache A :=
  match kv_cache_shape config max_context_size batch_size with
  | inl e => inl e
  | inr shape =>
      match SliceUpdateKeyValueCache_init zero shape with
      | inl e => inl (CacheError e)
      | inr kv_cache => inr (shape, kv_cache)
      end
  end.

(** ** The tokenizer entry of the metadata: export.py writes it, generate.py
    reads it *)

Definition MODEL_ID : string := "mistralai/Mistral-7B-Instruct-v0.3".
Definition METADATA_TOKENIZER : string := "co.huggingface.exporters.name".

(** [userDefined.update({METADATA_TOKENIZER: MODEL_ID})], the last statement
    of [export] before the package is saved. *)
Definition export_metadata (userDefined : gmap string string) : gmap string string :=
  <[METADATA_TOKENIZER := MODEL_ID]> userDefined.

Section Load.
(** [MLModel(model_path)], the [description.metadata.userDefined] of its
    spec, and [AutoTokenizer.from_pretrained]. *)
Variables MLModel AutoTokenizer : Type.
Variable MLModel_open : string -> exn + MLModel.
Variable userDefined : MLModel -> gmap string string.
Variable from_pretrained : string -> exn + AutoTokenizer.

(** [load]. *)
Definition load (model_path : string) : exn + MLModel * AutoTokenizer :=
  match MLModel_open model_path with
  | inl e => inl e
  | inr model =>
      match userDefined model !! METADATA_TOKENIZER with
      | None => inl ValueError
      | Some tokenizer_path =>
          match from_pretrained tokenizer_path with
          | inl e => inl e
          | inr tokenizer => inr (model, tokenizer)
          end
      end
  end.
End Load.

(** ** The calls a session makes to the model *)

(** What the mask of a step of [n] new tokens at occupancy [p] has to be:
    [n] rows of [p + n] columns under two leading axes of size 1, the entry
    at row [i] and column [j] being 0 exactly when [j <= p + i] and -inf
    otherwise. *)
Definition mask_causal (p n : nat) (m : Tensor4 mval) : Prop :=
  shape4 m = (1, 1, n, p + n) /\
  forall i j, i < n -> j < p + n ->
    exists x, mask_entry m i j = Some x /\
              (x = Zero <-> j <= p + i) /\
              (p + i < j -> x = NegInf).

(** A model that keeps, beside its own state, the arguments of every call
    made to it, in order; the call is recorded whether or not the model
    raises. *)
Definition recording {State : Type} (predict : list Z -> Tensor4 mval -> M State Logits)
    : list Z -> Tensor4 mval -> M (State * list (list Z * Tensor4 mval)) Logits :=
  fun input_ids causal_mask s =>
    let (s', r) := predict input_ids causal_mask s.1 in
    ((s', s.2 ++ [(input_ids, causal_mask)]), r).

(** The generator of a session with the recording model, without the
    record: the generator of the session with the model itself. *)
Definition forget_calls {State : Type}
    (g : Generator (State * list (list Z * Tensor4 mval))) : Generator State :=
  mkGenerator (kv_cache_state g).1 (token g) (num_past_tokens g).

(** The number of tokens the recorded calls have fed to the model. *)
Definition tokens_fed (calls : list (list Z * Tensor4 mval)) : nat :=
  sum_list (map (fun call => length call.1) calls).

(** Every recorded call, taken as the step at the occupancy left by the calls
    before it (starting from [occupancy]), carries the mask of that step. *)
Fixpoint calls_causal (occupancy : nat) (calls : list (list Z * Tensor4 mval)) : Prop :=
  match calls with
  | [] => True
  | (input_ids, m) :: rest =>
      mask_causal occupancy (length input_ids) m /\
      calls_causal (occupancy + length input_ids) rest
  end.

(** ** Concrete instances

    Small tensors and caches, and a toy transformer with integer scalars,
    two layers, one key/value head and head dimension 1, on which the
    statements below are evaluated. *)

Definition ex_cache : SliceUpdateKeyValueCache Z :=
  mkCache 3%Z (mkTensor5 (1, 1, 1, 2, 1) [[[[[1%Z]; [2%Z]]]]])
              (mkTensor5 (1, 1, 1, 2, 1) [[[[[3%Z]; [4%Z]]]]]).
Definition ex_k2 : Tensor4 Z := mkTensor4 (1, 1, 2, 1) [[[[7%Z]; [8%Z]]]].
Definition ex_v2 : Tensor4 Z := mkTensor4 (1, 1, 2, 1) [[[[5%Z]; [6%Z]]]].
Definition ex_k1 : Tensor4 Z := mkTensor4 (1, 1, 1, 1) [[[[7%Z]]]].
Definition ex_v1 : Tensor4 Z := mkTensor4 (1, 1, 1, 1) [[[[9%Z]]]].

(** One row of one scalar per position. *)
Definition toy_rows (f : Z -> Z) (h : list Z) : Tensor4 Z :=
  mkTensor4 (1, 1, length h, 1) [[map (fun x => [f x]) h]].

Definition toy_sum (t : Tensor4 Z) : Z :=
  foldr Z.add 0%Z (concat (concat (concat (data4 t)))).

#[local] Instance toy_transformer : Transformer Z := {|
  Hidden := list Z;
  size_of h := (1, length h, 1);
  q_proj l h := toy_rows (fun x => x) h;
  k_proj l h := toy_rows (fun x => x + Z.of_nat l)%Z h;
  v_proj l h := toy_rows (fun x => 2 * x)%Z h;
  Rotary := list Z;
  rotary_emb l v position_ids := position_ids;
  apply_rotary_pos_emb q k cos_sin := (q, k);
  repeat_kv t n_rep := t;
  num_key_value_groups := 1;
  scaled_dot_product_attention q k v mask :=
    mkTensor4 (1, 1, 1, 1) [[[[(toy_sum k + toy_sum v)%Z]]]];
  o_proj l t := concat (concat (concat (data4 t)));
  embed_tokens input_ids := input_ids;
  decoder_layer_rest l h attn_output := map (fun x => x + foldr Z.add 0 attn_output)%Z h;
  lm_head h := [map (fun x => [(- (x mod 3) ^ 2); (- (x mod 3 - 1) ^ 2); (- (x mod 3 - 2) ^ 2)]%Z) h];
  num_hidden_layers := 2
|}.

(** The state [make_state] gives: zero-filled buffers of capacity 8. *)
Definition toy_state : SliceUpdateKeyValueCache Z :=
  mkCache 0%Z (zeros5 0%Z 2 1 1 8 1) (zeros5 0%Z 2 1 1 8 1).

(** Two caches with the same rows at positions 0, 1, 2 of every layer and
    different rows at position 3. *)
Definition toy_cache_a : SliceUpdateKeyValueCache Z :=
  mkCache 2%Z
    (mkTensor5 (2, 1, 1, 4, 1) [[[[[1]; [2]; [0]; [9]]]]; [[[[3]; [4]; [0]; [9]]]]]%Z)
    (mkTensor5 (2, 1, 1, 4, 1) [[[[[5]; [6]; [0]; [9]]]]; [[[[7]; [8]; [0]; [9]]]]]%Z).
Definition toy_cache_b : SliceUpdateKeyValueCache Z :=
  mkCache 2%Z
    (mkTensor5 (2, 1, 1, 4, 1) [[[[[1]; [2]; [0]; [-4]]]]; [[[[3]; [4]; [0]; [11]]]]]%Z)
    (mkTensor5 (2, 1, 1, 4, 1) [[[[[5]; [6]; [0]; [12]]]]; [[[[7]; [8]; [0]; [-1]]]]]%Z).

(** A cache of one layer, two heads and capacity 3 with distinct rows. *)
Definition ex_cache_heads : SliceUpdateKeyValueCache Z :=
  mkCache 1%Z
    (mkTensor5 (1, 1, 2, 3, 1) [[[[[1]; [2]; [3]]; [[4]; [5]; [6]]]]]%Z)
    (mkTensor5 (1, 1, 2, 3, 1) [[[[[11]; [12]; [13]]; [[14]; [15]; [16]]]]]%Z).

(** Two models for the driver: one that counts its calls in its state and
    answers token 0 on the first two calls and token 1 afterwards, and one
    that always answers token 1. *)
Definition counting_predict (input_ids : list Z) (mask : Tensor4 mval) : M nat Logits :=
  fun calls => (S calls, inr [[[Z.of_nat (2 - calls); 1%Z]]]).

Definition constant_predict (input_ids : list Z) (mask : Tensor4 mval) : M unit Logits :=
  fun s => (s, inr [[[0%Z; 1%Z]]]).

(** A small configuration: 2 layers, 1 key/value head, hidden size 6 over
    2 attention heads. *)
Definition ex_config : MistralConfig := mkMistralConfig 2 1 6 2.

(** * Properties *)

(** ** Indexing *)

Lemma slice_bound_le (size : nat) (i : Z) : slice_bound size i <= size.
Proof. unfold slice_bound. destruct (i <? 0)%Z eqn:E; lia. Qed.

Lemma slice_bound_inside (size : nat) (i : Z) :
  (0 <= i <= Z.of_nat size)%Z -> slice_bound size i = Z.to_nat i.
Proof. intros Hi. unfold slice_bound. destruct (i <? 0)%Z eqn:E; lia. Qed.

Lemma slice_bound_beyond (size : nat) (i : Z) :
  (Z.of_nat size <= i)%Z -> slice_bound size i = size.
Proof. intros Hi. unfold slice_bound. destruct (i <? 0)%Z eqn:E; lia. Qed.

Lemma slice_bound_of_nat (size n : nat) : slice_bound size (Z.of_nat n) = n `min` size.
Proof. unfold slice_bound. destruct (Z.of_nat n <? 0)%Z eqn:E; lia. Qed.

Lemma index_int_inside (size : nat) (i : Z) :
  (0 <= i < Z.of_nat size)%Z -> index_int size i = Some (Z.to_nat i).
Proof.
  intros Hi. unfold index_int.
  destruct (0 <=? i)%Z eqn:E1; [|lia].
  destruct (i <? Z.of_nat size)%Z eqn:E2; [done|lia].
Qed.

Lemma index_int_of_nat (size l : nat) :
  l < size -> index_int size (Z.of_nat l) = Some l.
Proof.
  intros Hl. rewrite index_int_inside by lia. f_equal. lia.
Qed.

Lemma index_int_lt (size : nat) (i : Z) (l : nat) :
  index_int size i = Some l -> l < size.
Proof.
  unfold index_int.
  destruct (0 <=? i)%Z eqn:E1.
  - destruct (i <? Z.of_nat size)%Z eqn:E2; [|done]. intros [= <-]. lia.
  - destruct (0 <=? i + Z.of_nat size)%Z eqn:E2; [|done]. intros [= <-]. lia.
Qed.

(** ** Broadcasting *)

Lemma broadcast_dim_spec (src dst : nat) :
  broadcast_dim src dst = true <-> src = dst \/ src = 1.
Proof.
  unfold broadcast_dim. rewrite orb_true_iff, !Nat.eqb_eq. tauto.
Qed.

Lemma broadcast_dim_refl (n : nat) : broadcast_dim n n = true.
Proof. apply broadcast_dim_spec. by left. Qed.

Lemma broadcastable_refl (s : nat * nat * nat * nat) : broadcastable s s = true.
Proof. destruct s as [[[b h] n] d]. simpl. by rewrite !broadcast_dim_refl. Qed.

Lemma broadcastable_positions b h n d b' h' n' d' :
  broadcastable (b, h, n, d) (b', h', n', d') = true -> n = n' \/ n = 1.
Proof.
  simpl. rewrite !andb_true_iff. intros [[[_ _] Hn] _].
  by apply broadcast_dim_spec.
Qed.

Lemma length_expand {X} (n : nat) (l : list X) :
  broadcast_dim (length l) n = true -> length (expand n l) = n.
Proof.
  intros [H|H]%broadcast_dim_spec.
  - destruct l as [|x [|y l]]; simpl in *; try done.
    subst n. done.
  - destruct l as [|x [|y l]]; simpl in *; try done.
    by rewrite length_replicate.
Qed.

Lemma Forall_expand {X} (P : X -> Prop) (n : nat) (l : list X) :
  Forall P l -> Forall P (expand n l).
Proof.
  intros H. destruct l as [|x [|y l]]; simpl; try done.
  apply Forall_replicate. by inversion H.
Qed.

Lemma expand_id {X} (n : nat) (l : list X) : length l = n -> expand n l = l.
Proof. intros <-. by destruct l as [|x [|y l]]. Qed.

Lemma wf_expand4 {A} (s s' : nat * nat * nat * nat) (d : list (list (list (list A)))) :
  wf_data4 s d -> broadcastable s s' = true -> wf_data4 s' (expand4 s' d).
Proof.
  destruct s as [[[B H] N] D], s' as [[[B' H'] N'] D'].
  simpl. rewrite !andb_true_iff. intros [HB Hd] [[[bB bH] bN] bD].
  split.
  - apply length_expand. by rewrite length_map, HB.
  - apply Forall_expand, Forall_fmap. eapply Forall_impl; [exact Hd|].
    simpl. intros heads [HH Hh]. split.
    + apply length_expand. by rewrite length_map, HH.
    + apply Forall_expand, Forall_fmap. eapply Forall_impl; [exact Hh|].
      simpl. intros poss [HN Hp]. split.
      * apply length_expand. by rewrite length_map, HN.
      * apply Forall_expand, Forall_fmap. eapply Forall_impl; [exact Hp|].
        simpl. intros v Hv. apply length_expand. by rewrite Hv.
Qed.

Lemma expand4_id {A} (s : nat * nat * nat * nat) (d : list (list (list (list A)))) :
  wf_data4 s d -> expand4 s d = d.
Proof.
  destruct s as [[[B H] N] D]. simpl. intros [HB Hd].
  assert (Hmap : map (fun heads : list (list (list A)) =>
             expand H (map (fun poss => expand N (map (expand D) poss)) heads)) d = d).
  { rewrite <- (map_id d) at 2. apply Forall_fmap_ext_1.
    eapply Forall_impl; [exact Hd|]. simpl. intros heads [HH Hh].
    assert (Hm : map (fun poss : list (list A) => expand N (map (expand D) poss)) heads = heads).
    { rewrite <- (map_id heads) at 2. apply Forall_fmap_ext_1.
      eapply Forall_impl; [exact Hh|]. simpl. intros poss [HN Hp].
      assert (Hv : map (expand D) poss = poss).
      { rewrite <- (map_id poss) at 2. apply Forall_fmap_ext_1.
        eapply Forall_impl; [exact Hp|]. simpl. intros v Hv. by apply expand_id. }
      rewrite Hv. by apply expand_id. }
    rewrite Hm. by apply expand_id. }
  rewrite Hmap. by apply expand_id.
Qed.

(** Rows of well-formed elements. *)
Lemma wf_data4_lookup {A} B H N D (d : list (list (list (list A)))) bi hi :
  wf_data4 (B, H, N, D) d -> bi < B -> hi < H ->
  exists heads poss,
    d !! bi = Some heads /\ heads !! hi = Some poss /\
    length heads = H /\ length poss = N /\ Forall (fun v => length v = D) poss.
Proof.
  intros [HB Hd] Hbi Hhi.
  destruct (lookup_lt_is_Some_2 d bi) as [heads Hheads]; [lia|].
  pose proof (Forall_lookup_1 _ _ _ _ Hd Hheads) as [HH Hh].
  destruct (lookup_lt_is_Some_2 heads hi) as [poss Hposs]; [lia|].
  pose proof (Forall_lookup_1 _ _ _ _ Hh Hposs) as [HN Hp].
  by exists heads, poss.
Qed.

Lemma length_chunk_at {A} B H N D (d : list (list (list (list A)))) bi hi :
  wf_data4 (B, H, N, D) d -> bi < B -> hi < H -> length (chunk_at d bi hi) = N.
Proof.
  intros Hwf Hbi Hhi.
  destruct (wf_data4_lookup _ _ _ _ _ _ _ Hwf Hbi Hhi) as (heads & poss & E1 & E2 & _ & HN & _).
  unfold chunk_at. by rewrite E1, E2.
Qed.

Lemma chunk_at_empty {A} B H D (d : list (list (list (list A)))) bi hi :
  wf_data4 (B, H, 0, D) d -> chunk_at d bi hi = [].
Proof.
  intros [HB Hd]. unfold chunk_at.
  destruct (d !! bi) as [heads|] eqn:E1; [|done].
  pose proof (Forall_lookup_1 _ _ _ _ Hd E1) as [HH Hh].
  destruct (heads !! hi) as [poss|] eqn:E2; [|done].
  pose proof (Forall_lookup_1 _ _ _ _ Hh E2) as [HN _].
  simpl. by apply nil_length_inv.
Qed.

(** ** Slice assignment on one layer *)

Lemma write_positions_empty {A} (b : nat) (poss : list (list A)) :
  write_positions b 0 [] poss = poss.
Proof. unfold write_positions. simpl. rewrite Nat.add_0_r. apply take_drop. Qed.

Lemma length_write_positions {A} (b m : nat) (rows poss : list (list A)) :
  length rows = m -> b + m <= length poss ->
  length (write_positions b m rows poss) = length poss.
Proof.
  intros Hr Hb. unfold write_positions.
  rewrite !length_app, length_take, length_drop. lia.
Qed.

Lemma take_write_positions {A} (b m : nat) (rows poss : list (list A)) :
  length rows = m -> b <= length poss ->
  take (b + m) (write_positions b m rows poss) = take b poss ++ rows.
Proof.
  intros Hr Hb. unfold write_positions.
  rewrite app_assoc. apply take_app_length'.
  rewrite length_app, length_take. lia.
Qed.

Lemma imap_id_ext {X} (f : nat -> X -> X) (l : list X) :
  (forall i x, l !! i = Some x -> f i x = x) -> imap f l = l.
Proof.
  intros Hf. apply list_eq. intros i. rewrite list_lookup_imap.
  destruct (l !! i) as [x|] eqn:E; simpl; [|done]. f_equal. by apply Hf.
Qed.

Lemma write_view_empty {A} (h b : nat) (src dst : list (list (list (list A)))) :
  (forall bi hi, chunk_at src bi hi = []) -> write_view h b 0 src dst = dst.
Proof.
  intros Hsrc. unfold write_view.
  apply imap_id_ext. intros bi heads _.
  apply imap_id_ext. intros hi poss _.
  case_decide; [|done]. rewrite Hsrc. apply write_positions_empty.
Qed.

Lemma chunk_at_write_view {A} (h b m : nat) (src dst : list (list (list (list A)))) bi hi :
  chunk_at (write_view h b m src dst) bi hi =
  if decide (hi < h) then
    match dst !! bi with
    | Some heads =>
        match heads !! hi with
        | Some poss => write_positions b m (chunk_at src bi hi) poss
        | None => []
        end
    | None => []
    end
  else chunk_at dst bi hi.
Proof.
  unfold chunk_at at 1. unfold write_view. rewrite list_lookup_imap.
  destruct (dst !! bi) as [heads|] eqn:E1; simpl.
  - rewrite list_lookup_imap. destruct (heads !! hi) as [poss|] eqn:E2; simpl.
    + case_decide; [done|]. unfold chunk_at. by rewrite E1, E2.
    + case_decide; [done|]. unfold chunk_at. by rewrite E1, E2.
  - case_decide; [done|]. unfold chunk_at. by rewrite E1.
Qed.

Lemma wf_write_view {A} B H C D (h b m : nat) (src dst : list (list (list (list A)))) :
  wf_data4 (B, H, C, D) dst -> wf_data4 (B, h, m, D) src ->
  h <= H -> b + m <= C ->
  wf_data4 (B, H, C, D) (write_view h b m src dst).
Proof.
  intros [HB Hd] Hsrc Hh Hbm. split.
  - unfold write_view. by rewrite length_imap.
  - apply Forall_lookup_2. intros bi heads'.
    unfold write_view. rewrite list_lookup_imap.
    destruct (dst !! bi) as [heads|] eqn:E1; simpl; [|done]. intros [= <-].
    pose proof (Forall_lookup_1 _ _ _ _ Hd E1) as [HH Hhd].
    assert (Hbi : bi < B) by (apply lookup_lt_Some in E1; lia).
    split; [by rewrite length_imap|].
    apply Forall_lookup_2. intros hi poss'. rewrite list_lookup_imap.
    destruct (heads !! hi) as [poss|] eqn:E2; simpl; [|done]. intros [= <-].
    pose proof (Forall_lookup_1 _ _ _ _ Hhd E2) as [HN Hp].
    case_decide as Hhi; [|done].
    destruct (wf_data4_lookup _ _ _ _ _ _ _ Hsrc Hbi Hhi)
      as (sheads & rows & S1 & S2 & _ & Hm & Hrows).
    assert (Hc : chunk_at src bi hi = rows) by (unfold chunk_at; by rewrite S1, S2).
    rewrite Hc. split.
    + rewrite length_write_positions; [done|done|lia].
    + unfold write_positions. rewrite !Forall_app. split_and!.
      * by apply Forall_take.
      * done.
      * by apply Forall_drop.
Qed.

(** ** The cache: construction *)

Lemma wf5_zeros5 {A} (zero : A) (L B H C D : nat) : wf5 (zeros5 zero L B H C D).
Proof.
  unfold wf5, zeros5. simpl. split; [by rewrite length_replicate|].
  apply Forall_replicate. split; [by rewrite length_replicate|].
  apply Forall_replicate. split; [by rewrite length_replicate|].
  apply Forall_replicate. split; [by rewrite length_replicate|].
  apply Forall_replicate. by rewrite length_replicate.
Qed.

Lemma torch_zeros_nonneg {A} (zero : A) (L B H C D : Z) :
  (0 <= L)%Z -> (0 <= B)%Z -> (0 <= H)%Z -> (0 <= C)%Z -> (0 <= D)%Z ->
  torch_zeros zero (L, B, H, C, D) =
  inr (zeros5 zero (Z.to_nat L) (Z.to_nat B) (Z.to_nat H) (Z.to_nat C) (Z.to_nat D)).
Proof.
  intros HL HB HH HC HD. unfold torch_zeros.
  replace ((L <? 0) || (B <? 0) || (H <? 0) || (C <? 0) || (D <? 0))%Z with false; [done|].
  symmetry. rewrite !orb_false_iff, !Z.ltb_ge. tauto.
Qed.

Lemma torch_zeros_negative {A} (zero : A) (L B H C D : Z) :
  (L < 0 \/ B < 0 \/ H < 0 \/ C < 0 \/ D < 0)%Z ->
  torch_zeros zero (L, B, H, C, D) = inl RuntimeError.
Proof.
  intros Hneg. unfold torch_zeros.
  replace ((L <? 0) || (B <? 0) || (H <? 0) || (C <? 0) || (D <? 0))%Z with true; [done|].
  symmetry. rewrite !orb_true_iff, !Z.ltb_lt. tauto.
Qed.

(** C7, as the code has it: construction allocates both buffers with the
    given shape, zero-filled, and sets the counter to 0 whenever no dimension
    is negative (a zero dimension gives an empty buffer); the constructor has
    no validation of its own, and the only failure is the tensor library's
    error on a negative dimension. *)
Theorem init_allocates_zero_filled {A} (zero : A) (L B H C D : Z) :
  ((0 <= L)%Z /\ (0 <= B)%Z /\ (0 <= H)%Z /\ (0 <= C)%Z /\ (0 <= D)%Z ->
     let z := zeros5 zero (Z.to_nat L) (Z.to_nat B) (Z.to_nat H) (Z.to_nat C) (Z.to_nat D) in
     SliceUpdateKeyValueCache_init zero (L, B, H, C, D) = inr (mkCache 0%Z z z) /\ wf5 z)
  /\
  ((L < 0 \/ B < 0 \/ H < 0 \/ C < 0 \/ D < 0)%Z ->
     SliceUpdateKeyValueCache_init zero (L, B, H, C, D) = inl RuntimeError).
Proof.
  split.
  - intros (HL & HB & HH & HC & HD). simpl. split; [|apply wf5_zeros5].
    unfold SliceUpdateKeyValueCache_init. by rewrite torch_zeros_nonneg.
  - intros Hneg. unfold SliceUpdateKeyValueCache_init.
    by rewrite torch_zeros_negative.
Qed.

Lemma init_allocates_zero_filled_witness :
  ((0 <= 2)%Z /\ (0 <= 1)%Z /\ (0 <= 2)%Z /\ (0 <= 3)%Z /\ (0 <= 2)%Z) /\
  SliceUpdateKeyValueCache_init 0%Z (2, 1, 2, 3, 2)%Z
    = inr (mkCache 0%Z (zeros5 0%Z 2 1 2 3 2) (zeros5 0%Z 2 1 2 3 2)) /\
  ((-1 < 0 \/ 1 < 0 \/ 2 < 0 \/ 3 < 0 \/ 2 < 0)%Z) /\
  SliceUpdateKeyValueCache_init 0%Z (-1, 1, 2, 3, 2)%Z = inl RuntimeError.
Proof.
  assert (H1 : (0 <= 2)%Z /\ (0 <= 1)%Z /\ (0 <= 2)%Z /\ (0 <= 3)%Z /\ (0 <= 2)%Z) by lia.
  assert (H2 : (-1 < 0 \/ 1 < 0 \/ 2 < 0 \/ 3 < 0 \/ 2 < 0)%Z) by lia.
  split; [exact H1|]. split.
  - exact (proj1 (proj1 (init_allocates_zero_filled 0%Z 2 1 2 3 2) H1)).
  - split; [exact H2|].
    exact (proj2 (init_allocates_zero_filled 0%Z (-1) 1 2 3 2) H2).
Defined.

(** C7 as stated fails: a dimension equal to 0 is accepted. *)
Lemma init_zero_dimension_accepted :
  SliceUpdateKeyValueCache_init 0%Z (0, 1, 8, 10, 4)%Z
    = inr (mkCache 0%Z (mkTensor5 (0, 1, 8, 10, 4) []) (mkTensor5 (0, 1, 8, 10, 4) [])).
Proof. reflexivity. Qed.

(** ** The cache: update *)

(** C10: a [slice_indices] that does not have exactly two elements raises
    ValueError before anything is written: the cache after the call is the
    cache before it. *)
Theorem update_bad_slice_indices {A} (c : SliceUpdateKeyValueCache A)
    (k_state v_state : Tensor4 A) (layer_idx : Z) (slice_indices : list Z) :
  length slice_indices <> 2 ->
  update k_state v_state layer_idx slice_indices c = (c, inl ValueError).
Proof.
  intros Hlen. unfold update.
  destruct slice_indices as [|b [|e [|x rest]]]; simpl in Hlen; try done.
Qed.

Lemma update_bad_slice_indices_witness :
  update ex_k1 ex_v1 0 [0%Z; 1%Z; 2%Z] ex_cache = (ex_cache, inl ValueError).
Proof.
  apply update_bad_slice_indices. simpl. lia.
Defined.

Lemma shape5_setitem_slice {A} (buf buf' : Tensor5 A) layer_idx hs begin end_ src :
  setitem_slice buf layer_idx hs begin end_ src = inr buf' -> shape5 buf' = shape5 buf.
Proof.
  unfold setitem_slice. destruct (shape5 buf) as [[[[L B] H] C] D] eqn:Es.
  destruct (index_int L layer_idx); [|done].
  destruct (broadcastable _ _); [|done]. intros [= <-]. done.
Qed.

(** A write whose end lies beyond the capacity, with a chunk of
    [end - begin] positions: the slice is clamped, so either the shapes do
    not broadcast, or the clamped slice is empty and nothing is written. *)
Lemma setitem_slice_overflow {A} (buf : Tensor5 A) layer_idx begin end_ (src : Tensor4 A)
    L B H C D Bs Hs n Ds :
  shape5 buf = (L, B, H, C, D) -> shape4 src = (Bs, Hs, n, Ds) -> wf4 src ->
  Z.of_nat n = (end_ - begin)%Z -> (Z.of_nat C < end_)%Z ->
  (setitem_slice buf layer_idx Hs begin end_ src = inr buf /\ n <= 1) \/
  (exists e, setitem_slice buf layer_idx Hs begin end_ src = inl e).
Proof.
  intros Es Ess Hwf Hn Hover. unfold setitem_slice. rewrite Es.
  destruct (index_int L layer_idx) as [l|]; [|right; by eexists].
  rewrite (slice_bound_beyond C end_) by lia.
  destruct (broadcastable _ _) eqn:Hb; [|right; by eexists].
  left. rewrite Ess in Hb.
  pose proof (broadcastable_positions _ _ _ _ _ _ _ _ Hb) as Hpos.
  pose proof (slice_bound_le C begin) as Hle.
  assert (Hm : C - slice_bound C begin = 0 /\ n <= 1).
  { unfold slice_bound in *. destruct (begin <? 0)%Z eqn:E; lia. }
  destruct Hm as [Hm Hn1]. split; [|done].
  rewrite Hm in *.
  assert (Hwf' : wf_data4 (B, slice_bound H (Z.of_nat Hs), 0, D)
                   (expand4 (B, slice_bound H (Z.of_nat Hs), 0, D) (data4 src))).
  { eapply wf_expand4; [|exact Hb]. unfold wf4 in Hwf. by rewrite Ess in Hwf. }
  unfold write_layer. rewrite list_alter_id.
  - by destruct buf.
  - intros dst. apply write_view_empty. intros bi hi.
    by eapply chunk_at_empty.
Qed.

Lemma setitem_slice_overflow_fails {A} (buf : Tensor5 A) layer_idx begin end_ (src : Tensor4 A)
    L B H C D Bs Hs n Ds :
  shape5 buf = (L, B, H, C, D) -> shape4 src = (Bs, Hs, n, Ds) ->
  Z.of_nat n = (end_ - begin)%Z -> (Z.of_nat C < end_)%Z -> 2 <= n ->
  exists e, setitem_slice buf layer_idx Hs begin end_ src = inl e.
Proof.
  intros Es Ess Hn Hover H2. unfold setitem_slice. rewrite Es.
  destruct (index_int L layer_idx) as [l|]; [|by eexists].
  rewrite (slice_bound_beyond C end_) by lia.
  destruct (broadcastable _ _) eqn:Hb; [|by eexists].
  exfalso. rewrite Ess in Hb.
  pose proof (broadcastable_positions _ _ _ _ _ _ _ _ Hb) as Hpos.
  pose proof (slice_bound_le C begin) as Hle.
  unfold slice_bound in *. destruct (begin <? 0)%Z eqn:E; lia.
Qed.

(** C3, as the code has it: [update] has no capacity check and no overflow
    error of its own; a slice bound beyond the capacity is clamped.  When
    [rangeEnd] exceeds the capacity and both chunks have
    [rangeEnd - rangeBegin] positions, the buffers and the counter are exactly
    as before the call, and with two or more positions the call fails (the
    tensor library refuses the shapes, or the layer index is out of range). *)
Theorem update_beyond_capacity {A} (c : SliceUpdateKeyValueCache A)
    (k_state v_state : Tensor4 A) (layer_idx begin end_ : Z) :
  wf4 k_state -> wf4 v_state ->
  Z.of_nat (positions k_state) = (end_ - begin)%Z ->
  Z.of_nat (positions v_state) = (end_ - begin)%Z ->
  (Z.of_nat (capacity (k_cache c)) < end_)%Z ->
  (Z.of_nat (capacity (v_cache c)) < end_)%Z ->
  (update k_state v_state layer_idx [begin; end_] c).1 = c /\
  (2 <= positions k_state ->
     exists e, (update k_state v_state layer_idx [begin; end_] c).2 = inl e).
Proof.
  intros Hwk Hwv Hnk Hnv Hck Hcv.
  destruct c as [past kc vc]. simpl in *.
  destruct (shape5 kc) as [[[[Lk Bk] Hk] Ck] Dk] eqn:Esk.
  destruct (shape5 vc) as [[[[Lv Bv] Hv] Cv] Dv] eqn:Esv.
  destruct (shape4 k_state) as [[[Bs Hs] n] Ds] eqn:Ek.
  destruct (shape4 v_state) as [[[Bs' Hs'] n'] Ds'] eqn:Ev.
  unfold capacity, positions in *. rewrite ?Esk, ?Esv, ?Ek, ?Ev in *. simpl in *.
  unfold update, bind, get, put, lift, ret, set_k_cache, set_v_cache. simpl.
  destruct (setitem_slice_overflow kc layer_idx begin end_ k_state
              _ _ _ _ _ _ _ _ _ Esk Ek Hwk Hnk Hck) as [[-> Hn1]|[e ->]].
  - destruct (setitem_slice_overflow vc layer_idx begin end_ v_state
                _ _ _ _ _ _ _ _ _ Esv Ev Hwv Hnv Hcv) as [[-> Hn1']|[e ->]].
    + split; [|lia].
      destruct (getitem_prefix kc layer_idx end_); [done|].
      by destruct (getitem_prefix vc layer_idx end_).
    + split; [done|]. intros _. by eexists.
  - split; [done|]. intros _. by eexists.
Qed.

Lemma update_beyond_capacity_witness :
  (update ex_k2 ex_v2 0 [1%Z; 3%Z] ex_cache).1 = ex_cache /\
  exists e, (update ex_k2 ex_v2 0 [1%Z; 3%Z] ex_cache).2 = inl e.
Proof.
  assert (Hk : wf4 ex_k2) by (repeat split; repeat constructor).
  assert (Hv : wf4 ex_v2) by (repeat split; repeat constructor).
  destruct (update_beyond_capacity ex_cache ex_k2 ex_v2 0 1 3 Hk Hv) as [H1 H2];
    [reflexivity | reflexivity | reflexivity | reflexivity |].
  split; [exact H1|]. apply H2. vm_compute. lia.
Defined.

(** C3 as stated fails: with a chunk as long as the clamped slice the call
    returns normally and the buffers are overwritten. *)
Lemma update_beyond_capacity_writes :
  (Z.of_nat (capacity (k_cache ex_cache)) < 3)%Z /\
  update ex_k2 ex_v2 0 [0%Z; 3%Z] ex_cache =
    (mkCache 3%Z (mkTensor5 (1, 1, 1, 2, 1) [[[[[7%Z]; [8%Z]]]]])
                 (mkTensor5 (1, 1, 1, 2, 1) [[[[[5%Z]; [6%Z]]]]]),
     inr (ex_k2, ex_v2)) /\
  (update ex_k2 ex_v2 0 [0%Z; 3%Z] ex_cache).1 <> ex_cache.
Proof.
  split; [reflexivity|]. split; [reflexivity|].
  intros H. discriminate H.
Qed.

(** With a chunk of one position written at the capacity, the clamped slice
    is empty and a single row broadcasts to it: the call returns normally,
    writes nothing and returns the whole buffer as the prefix. *)
Example update_at_capacity_single_position :
  update ex_k1 ex_v1 0 [2%Z; 3%Z] ex_cache =
    (ex_cache,
     inr (mkTensor4 (1, 1, 2, 1) [[[[1%Z]; [2%Z]]]], mkTensor4 (1, 1, 2, 1) [[[[3%Z]; [4%Z]]]])).
Proof. reflexivity. Qed.

(** ** The cache: write then read *)

Lemma wf5_layer_data {A} (buf : Tensor5 A) L B H C D l :
  shape5 buf = (L, B, H, C, D) -> wf5 buf -> l < L ->
  data5 buf !! l = Some (layer_data buf l) /\ wf_data4 (B, H, C, D) (layer_data buf l).
Proof.
  intros Es Hwf Hl. unfold wf5 in Hwf. rewrite Es in Hwf. destruct Hwf as [HL Hd].
  destruct (lookup_lt_is_Some_2 (data5 buf) l) as [d Hld]; [lia|].
  unfold layer_data. rewrite Hld. split; [done|].
  exact (Forall_lookup_1 _ _ _ _ Hd Hld).
Qed.

Lemma chunk_at_take {A} (e : nat) (d : list (list (list (list A)))) bi hi :
  chunk_at (map (map (take e)) d) bi hi = take e (chunk_at d bi hi).
Proof.
  unfold chunk_at. rewrite list_lookup_fmap.
  destruct (d !! bi) as [heads|]; simpl; [|by rewrite take_nil].
  rewrite list_lookup_fmap.
  destruct (heads !! hi) as [poss|]; simpl; [done|by rewrite take_nil].
Qed.

Lemma wf_data4_take {A} B H C D (e : nat) (d : list (list (list (list A)))) :
  wf_data4 (B, H, C, D) d -> e <= C -> wf_data4 (B, H, e, D) (map (map (take e)) d).
Proof.
  intros [HB Hd] He. split; [by rewrite length_map|].
  apply Forall_fmap. eapply Forall_impl; [exact Hd|]. simpl.
  intros heads [HH Hh]. split; [by rewrite length_map|].
  apply Forall_fmap. eapply Forall_impl; [exact Hh|]. simpl.
  intros poss [HN Hp]. split; [rewrite length_take; lia|].
  by apply Forall_take.
Qed.

(** A write inside the capacity with a chunk of exactly the shape of the
    destination view. *)
Lemma setitem_slice_inside {A} (buf : Tensor5 A) layer_idx l begin end_ (src : Tensor4 A)
    L B H C D :
  shape5 buf = (L, B, H, C, D) -> index_int L layer_idx = Some l ->
  (0 <= begin <= end_)%Z -> (end_ <= Z.of_nat C)%Z ->
  shape4 src = (B, H, Z.to_nat (end_ - begin), D) -> wf4 src ->
  setitem_slice buf layer_idx H begin end_ src =
  inr (write_layer buf l H (Z.to_nat begin) (Z.to_nat (end_ - begin)) (data4 src)).
Proof.
  intros Es Hl Hbe HeC Ess Hwf. unfold setitem_slice. rewrite Es, Hl.
  rewrite slice_bound_of_nat, Nat.min_id.
  rewrite !slice_bound_inside by lia.
  replace (Z.to_nat end_ - Z.to_nat begin) with (Z.to_nat (end_ - begin)) by lia.
  rewrite Ess, broadcastable_refl.
  rewrite expand4_id; [done|]. unfold wf4 in Hwf. by rewrite Ess in Hwf.
Qed.

Lemma shape5_write_layer {A} (buf : Tensor5 A) l h b m src :
  shape5 (write_layer buf l h b m src) = shape5 buf.
Proof. reflexivity. Qed.

Lemma layer_data_write_layer_eq {A} (buf : Tensor5 A) l h b m src :
  l < length (data5 buf) ->
  layer_data (write_layer buf l h b m src) l = write_view h b m src (layer_data buf l).
Proof.
  intros Hl. unfold layer_data, write_layer. cbn [data5].
  rewrite list_lookup_alter_eq.
  by destruct (lookup_lt_is_Some_2 (data5 buf) l Hl) as [d ->].
Qed.

Lemma layer_data_write_layer_ne {A} (buf : Tensor5 A) l l' h b m src :
  l <> l' -> layer_data (write_layer buf l h b m src) l' = layer_data buf l'.
Proof.
  intros Hl. unfold layer_data, write_layer. cbn [data5].
  by rewrite list_lookup_alter_ne.
Qed.

Lemma wf5_write_layer {A} (buf : Tensor5 A) l b m (src : list (list (list (list A))))
    L B H C D :
  shape5 buf = (L, B, H, C, D) -> wf5 buf -> wf_data4 (B, H, m, D) src -> b + m <= C ->
  wf5 (write_layer buf l H b m src).
Proof.
  intros Es Hwf Hsrc Hbm. unfold wf5, write_layer in *. cbn [shape5 data5]. rewrite Es in *.
  destruct Hwf as [HL Hd]. split; [by rewrite length_alter|].
  apply Forall_lookup_2. intros i d'. rewrite list_lookup_alter.
  case_decide as Hi.
  - subst i. destruct (data5 buf !! l) as [d|] eqn:E; simpl; [|done]. intros [= <-].
    apply wf_write_view; [|done|lia|done]. exact (Forall_lookup_1 _ _ _ _ Hd E).
  - intros E. exact (Forall_lookup_1 _ _ _ _ Hd E).
Qed.

Lemma getitem_prefix_inside {A} (buf : Tensor5 A) layer_idx l end_ L B H C D :
  shape5 buf = (L, B, H, C, D) -> index_int L layer_idx = Some l ->
  (0 <= end_ <= Z.of_nat C)%Z ->
  getitem_prefix buf layer_idx end_ =
  inr (mkTensor4 (B, H, Z.to_nat end_, D) (map (map (take (Z.to_nat end_))) (layer_data buf l))).
Proof.
  intros Es Hl He. unfold getitem_prefix. rewrite Es, Hl.
  by rewrite slice_bound_inside by lia.
Qed.

(** The rows read back from a layer after a write at [[b, b + m)]. *)
Lemma read_after_write_rows {A} (old : list (list (list (list A)))) (src : list (list (list (list A))))
    B H C D b m bi hi :
  wf_data4 (B, H, C, D) old -> wf_data4 (B, H, m, D) src -> b + m <= C ->
  bi < B -> hi < H ->
  take (b + m) (chunk_at (write_view H b m src old) bi hi) =
  take b (chunk_at old bi hi) ++ chunk_at src bi hi.
Proof.
  intros Hold Hsrc Hbm Hbi Hhi.
  rewrite chunk_at_write_view. case_decide; [|lia].
  destruct (wf_data4_lookup _ _ _ _ _ _ _ Hold Hbi Hhi) as (heads & poss & E1 & E2 & _ & HN & _).
  rewrite E1, E2.
  assert (Hc : chunk_at old bi hi = poss) by (unfold chunk_at; by rewrite E1, E2).
  rewrite Hc. apply take_write_positions; [|lia].
  by eapply length_chunk_at.
Qed.

(** C4: an update inside the capacity with chunks of [rangeEnd - rangeBegin]
    positions returns, and a read of the prefix [[0, rangeEnd)] afterwards
    gives, for every batch entry and head, the rows of the buffer before the
    call at positions [[0, rangeBegin)] followed by the rows of the chunk at
    positions [[rangeBegin, rangeEnd)]. *)
Theorem update_then_read_prefix {A} (c : SliceUpdateKeyValueCache A)
    (k_state v_state : Tensor4 A) (layer_idx begin end_ : Z) (L B H C D : nat) :
  shape5 (k_cache c) = (L, B, H, C, D) -> shape5 (v_cache c) = (L, B, H, C, D) ->
  wf5 (k_cache c) -> wf5 (v_cache c) ->
  (0 <= layer_idx < Z.of_nat L)%Z ->
  (0 <= begin <= end_)%Z -> (end_ <= Z.of_nat C)%Z ->
  shape4 k_state = (B, H, Z.to_nat (end_ - begin), D) -> wf4 k_state ->
  shape4 v_state = (B, H, Z.to_nat (end_ - begin), D) -> wf4 v_state ->
  exists c' k_view v_view,
    update k_state v_state layer_idx [begin; end_] c = (c', inr (k_view, v_view)) /\
    getitem_prefix (k_cache c') layer_idx end_ = inr k_view /\
    getitem_prefix (v_cache c') layer_idx end_ = inr v_view /\
    shape4 k_view = (B, H, Z.to_nat end_, D) /\ wf4 k_view /\
    shape4 v_view = (B, H, Z.to_nat end_, D) /\ wf4 v_view /\
    forall bi hi, bi < B -> hi < H ->
      chunk_at (data4 k_view) bi hi =
        take (Z.to_nat begin) (chunk_at (layer_data (k_cache c) (Z.to_nat layer_idx)) bi hi)
        ++ chunk_at (data4 k_state) bi hi /\
      chunk_at (data4 v_view) bi hi =
        take (Z.to_nat begin) (chunk_at (layer_data (v_cache c) (Z.to_nat layer_idx)) bi hi)
        ++ chunk_at (data4 v_state) bi hi.
Proof.
  intros Esk Esv Hwk Hwv Hl Hbe HeC Ek Hwks Ev Hwvs.
  destruct c as [past kc vc]. simpl in *.
  set (l := Z.to_nat layer_idx). set (b := Z.to_nat begin).
  set (m := Z.to_nat (end_ - begin)).
  assert (Hli : index_int L layer_idx = Some l) by (by apply index_int_inside).
  assert (HlL : l < L) by (by eapply index_int_lt).
  assert (Hsk : wf_data4 (B, H, m, D) (data4 k_state))
    by (unfold wf4 in Hwks; by rewrite Ek in Hwks).
  assert (Hsv : wf_data4 (B, H, m, D) (data4 v_state))
    by (unfold wf4 in Hwvs; by rewrite Ev in Hwvs).
  assert (Hbm : b + m = Z.to_nat end_) by lia.
  assert (HbmC : b + m <= C) by lia.
  destruct (wf5_layer_data kc _ _ _ _ _ l Esk Hwk HlL) as [Hlk Hwlk].
  destruct (wf5_layer_data vc _ _ _ _ _ l Esv Hwv HlL) as [Hlv Hwlv].
  set (kc' := write_layer kc l H b m (data4 k_state)).
  set (vc' := write_layer vc l H b m (data4 v_state)).
  assert (Hgk : getitem_prefix kc' layer_idx end_ =
    inr (mkTensor4 (B, H, Z.to_nat end_, D)
           (map (map (take (Z.to_nat end_))) (layer_data kc' l))))
    by (eapply getitem_prefix_inside; [exact Esk|done|lia]).
  assert (Hgv : getitem_prefix vc' layer_idx end_ =
    inr (mkTensor4 (B, H, Z.to_nat end_, D)
           (map (map (take (Z.to_nat end_))) (layer_data vc' l))))
    by (eapply getitem_prefix_inside; [exact Esv|done|lia]).
  assert (Hldk : layer_data kc' l = write_view H b m (data4 k_state) (layer_data kc l)).
  { apply layer_data_write_layer_eq. apply lookup_lt_Some in Hlk. lia. }
  assert (Hldv : layer_data vc' l = write_view H b m (data4 v_state) (layer_data vc l)).
  { apply layer_data_write_layer_eq. apply lookup_lt_Some in Hlv. lia. }
  eexists (mkCache past kc' vc'), _, _. split_and!.
  - unfold update, bind, get, put, lift, ret, set_k_cache, set_v_cache. simpl.
    rewrite Ek, Ev. simpl.
    rewrite (setitem_slice_inside kc layer_idx l begin end_ k_state L B H C D) by done.
    rewrite (setitem_slice_inside vc layer_idx l begin end_ v_state L B H C D) by done.
    fold b m. fold kc' vc'. rewrite Hgk, Hgv. reflexivity.
  - exact Hgk.
  - exact Hgv.
  - done.
  - unfold wf4. simpl. rewrite Hldk. apply (wf_data4_take B H C D); [|lia].
    by apply wf_write_view.
  - done.
  - unfold wf4. simpl. rewrite Hldv. apply (wf_data4_take B H C D); [|lia].
    by apply wf_write_view.
  - intros bi hi Hbi Hhi. simpl. rewrite !chunk_at_take, Hldk, Hldv, <- Hbm.
    split; by eapply read_after_write_rows.
Qed.

Lemma update_then_read_prefix_witness :
  exists c' k_view v_view,
    update ex_k1 ex_v1 0 [1%Z; 2%Z] ex_cache = (c', inr (k_view, v_view)) /\
    getitem_prefix (k_cache c') 0 2 = inr k_view /\
    getitem_prefix (v_cache c') 0 2 = inr v_view /\
    shape4 k_view = (1, 1, 2, 1) /\ wf4 k_view /\
    shape4 v_view = (1, 1, 2, 1) /\ wf4 v_view /\
    forall bi hi, bi < 1 -> hi < 1 ->
      chunk_at (data4 k_view) bi hi =
        take 1 (chunk_at (layer_data (k_cache ex_cache) 0) bi hi) ++ chunk_at (data4 ex_k1) bi hi /\
      chunk_at (data4 v_view) bi hi =
        take 1 (chunk_at (layer_data (v_cache ex_cache) 0) bi hi) ++ chunk_at (data4 ex_v1) bi hi.
Proof.
  assert (Hk : wf4 ex_k1) by (repeat split; repeat constructor).
  assert (Hv : wf4 ex_v1) by (repeat split; repeat constructor).
  assert (Hck : wf5 (k_cache ex_cache)) by (repeat split; repeat constructor).
  assert (Hcv : wf5 (v_cache ex_cache)) by (repeat split; repeat constructor).
  apply (update_then_read_prefix ex_cache ex_k1 ex_v1 0 1 2 1 1 1 2 1);
    try reflexivity; try assumption; simpl; lia.
Defined.

(** ** The mask built by [inference] *)

Lemma shape4_causal_mask (input_ids : list Z) (p : nat) :
  shape4 (causal_mask input_ids p) = (1, 1, length input_ids, p + length input_ids).
Proof. reflexivity. Qed.

Lemma mask_entry_causal_mask (input_ids : list Z) (p i j : nat) :
  i < length input_ids -> j < p + length input_ids ->
  mask_entry (causal_mask input_ids p) i j =
  Some (if decide (i + 1 <= j) then (if p =? 0 then NegInf else Zero) else Zero).
Proof.
  intros Hi Hj. unfold mask_entry, causal_mask, astype_float16, np_triu, np_full. simpl.
  rewrite list_lookup_imap, lookup_replicate_2 by done. simpl.
  by rewrite list_lookup_imap, lookup_replicate_2 by done.
Qed.

(** After the first step the fill value is 0, so the triangle is invisible. *)
Lemma mask_entry_later_steps (input_ids : list Z) (p i j : nat) :
  0 < p -> i < length input_ids -> j < p + length input_ids ->
  mask_entry (causal_mask input_ids p) i j = Some Zero.
Proof.
  intros Hp Hi Hj. rewrite mask_entry_causal_mask by done.
  destruct p; [lia|]. simpl. by case_decide.
Qed.

(** The pairs the decoding loop builds: the prompt at an empty cache, or at
    most one token at any number of past tokens.  For them the entry at row
    [i] and column [j] is 0 exactly when [j <= p + i], and -inf otherwise. *)
Lemma causal_mask_loop_pairs (input_ids : list Z) (p : nat) :
  p = 0 \/ length input_ids <= 1 ->
  mask_causal p (length input_ids) (causal_mask input_ids p).
Proof.
  intros Hpn. split; [apply shape4_causal_mask|].
  intros i j Hi Hj. eexists. split; [by apply mask_entry_causal_mask|].
  destruct Hpn as [-> | Hn].
  - simpl. case_decide.
    + split; [|done]. split; [done|lia].
    + split; [|lia]. split; [lia|done].
  - assert (i = 0) as -> by lia. case_decide.
    + destruct p as [|p]; [lia|]. simpl. split; [|lia]. split; [lia|done].
    + split; [|lia]. split; [lia|done].
Qed.

Lemma bind_ret_r {S R} (m : M S R) (s : S) : bind m (fun r => ret r) s = m s.
Proof. unfold bind, ret. by destruct (m s) as [s' [e|r]]. Qed.

(** C9: the mask depends on the token row only through its length and on
    nothing else but the number of past tokens; building it does not touch
    the state: whatever the state and the tokens, the model is called on the
    state as it was, with the same mask for equal lengths and equal numbers
    of past tokens. *)
Theorem mask_construction_pure {State : Type} (predict : list Z -> Tensor4 mval -> M State Logits)
    (input_ids1 input_ids2 : list Z) (num_past : nat) (s1 s2 : State) :
  length input_ids1 = length input_ids2 ->
  causal_mask input_ids1 num_past = causal_mask input_ids2 num_past /\
  inference State predict input_ids1 num_past s1
    = predict input_ids1 (causal_mask input_ids1 num_past) s1 /\
  inference State predict input_ids2 num_past s2
    = predict input_ids2 (causal_mask input_ids1 num_past) s2.
Proof.
  intros Hlen.
  assert (Hm : causal_mask input_ids1 num_past = causal_mask input_ids2 num_past)
    by (unfold causal_mask; by rewrite Hlen).
  split; [exact Hm|]. unfold inference. rewrite !bind_ret_r. by rewrite Hm.
Qed.

(** ** Greedy selection *)

Lemma argmax_from_spec (v pre : list Z) (best_i : nat) (best : Z) :
  pre !! best_i = Some best ->
  (forall j y, pre !! j = Some y -> (y <= best)%Z) ->
  (forall j y, j < best_i -> pre !! j = Some y -> (y < best)%Z) ->
  exists x,
    (pre ++ v) !! argmax_from best_i best (length pre) v = Some x /\
    (forall j y, (pre ++ v) !! j = Some y -> (y <= x)%Z) /\
    (forall j y, j < argmax_from best_i best (length pre) v ->
                 (pre ++ v) !! j = Some y -> (y < x)%Z).
Proof.
  revert pre best_i best. induction v as [|z v IH]; intros pre best_i best Hb Hmax Hlow.
  - simpl. rewrite app_nil_r. by exists best.
  - simpl. replace (pre ++ z :: v) with ((pre ++ [z]) ++ v) by (by rewrite <- app_assoc).
    replace (S (length pre)) with (length (pre ++ [z])) by (rewrite length_app; simpl; lia).
    destruct (best <? z)%Z eqn:E.
    + apply Z.ltb_lt in E. apply IH.
      * rewrite lookup_app_r by done. by rewrite Nat.sub_diag.
      * intros j y [Hj | [Hj Hy]]%lookup_app_Some.
        -- pose proof (Hmax _ _ Hj). lia.
        -- destruct (j - length pre); simpl in Hy; [|done]. injection Hy as <-. lia.
      * intros j y Hj Hy. rewrite lookup_app_l in Hy by done.
        pose proof (Hmax _ _ Hy). lia.
    + apply Z.ltb_ge in E. apply IH.
      * by apply lookup_app_l_Some.
      * intros j y [Hj | [Hj Hy]]%lookup_app_Some.
        -- by eapply Hmax.
        -- destruct (j - length pre); simpl in Hy; [|done]. injection Hy as <-. lia.
      * intros j y Hj Hy. apply lookup_lt_Some in Hb.
        rewrite lookup_app_l in Hy by lia. by eapply Hlow.
Qed.

Lemma np_argmax_spec (scores : list Z) :
  scores <> [] ->
  exists i x, np_argmax scores = inr i /\ scores !! i = Some x /\
    (forall j y, scores !! j = Some y -> (y <= x)%Z) /\
    (forall j y, j < i -> scores !! j = Some y -> (y < x)%Z).
Proof.
  destruct scores as [|z v]; [done|]. intros _. simpl.
  destruct (argmax_from_spec v [z] 0 z) as (x & Hx & Hmax & Hlow).
  - done.
  - intros [|j] y Hj; simpl in Hj; [|done]. injection Hj as <-. lia.
  - intros j y Hj. lia.
  - exists (argmax_from 0 z 1 v), x. done.
Qed.

(** C8: on the score vector of the last position the selected token is an
    index holding the maximum, and no smaller index holds it. *)
Theorem sample_is_first_argmax (logits : Logits) (logits0 : list (list Z)) (scores : list Z) :
  logits !! 0 = Some logits0 -> last logits0 = Some scores -> scores <> [] ->
  exists (i : nat) (x : Z),
    sample logits = inr (Z.of_nat i) /\ scores !! i = Some x /\
    (forall j y, scores !! j = Some y -> (y <= x)%Z) /\
    (forall j y, j < i -> scores !! j = Some y -> (y < x)%Z).
Proof.
  intros H0 Hlast Hne.
  destruct (np_argmax_spec scores Hne) as (i & x & Ha & Hx & Hmax & Hlow).
  exists i, x. split; [|done].
  unfold sample. destruct logits as [|l0 rest]; [done|].
  simpl in H0. injection H0 as ->. by rewrite Hlast, Ha.
Qed.

Lemma sample_is_first_argmax_witness :
  exists (i : nat) (x : Z),
    sample [[[0; 1; 0]; [1; 5; 3; 5]]]%Z = inr (Z.of_nat i) /\
    [1; 5; 3; 5]%Z !! i = Some x /\
    (forall j y, [1; 5; 3; 5]%Z !! j = Some y -> (y <= x)%Z) /\
    (forall j y, j < i -> [1; 5; 3; 5]%Z !! j = Some y -> (y < x)%Z).
Proof.
  apply (sample_is_first_argmax [[[0; 1; 0]; [1; 5; 3; 5]]]%Z [[0; 1; 0]; [1; 5; 3; 5]]%Z).
  - reflexivity.
  - reflexivity.
  - discriminate.
Defined.

(** ** The decoding loop *)

Section DriverFacts.
Variable State : Type.
Variable make_state : State.
Variable predict : list Z -> Tensor4 mval -> M State Logits.

Local Abbreviation next := (next State predict).
Local Abbreviation advance := (advance State predict).
Local Abbreviation generate_loop := (generate_loop State predict).


Lemma next_num_past_tokens (g g' : Generator State) :
  next g = inr g' -> num_past_tokens g' = num_past_tokens g + 1.
Proof.
  unfold next.
  destruct (bind _ _ _) as [s [e|t]]; [done|]. by intros [= <-].
Qed.

Lemma advance_last (k : nat) (g0 g : Generator State) :
  advance (S k) g0 = inr g -> exists g', advance k g0 = inr g' /\ next g' = inr g.
Proof.
  revert g0. induction k as [|k IH]; intros g0 Hk.
  - simpl in Hk. destruct (next g0) as [e|g1] eqn:E; [done|].
    injection Hk as ->. by exists g0.
  - change (advance (S (S k)) g0) with
      (match next g0 with inr g' => advance (S k) g' | inl e => inl e end) in Hk.
    destruct (next g0) as [e|g1] eqn:E; [done|].
    destruct (IH g1 Hk) as (g' & Hg' & Hn). exists g'. split; [|done].
    simpl. by rewrite E.
Qed.

End DriverFacts.

(** ** The attention step reads only the valid prefix *)

Lemma update_unfold {A} (k_state v_state : Tensor4 A) (layer_idx begin end_ : Z)
    (c : SliceUpdateKeyValueCache A) :
  update k_state v_state layer_idx [begin; end_] c =
  match setitem_slice (k_cache c) layer_idx (shape4 k_state).1.1.2 begin end_ k_state with
  | inl e => (c, inl e)
  | inr k' =>
      match setitem_slice (v_cache c) layer_idx (shape4 v_state).1.1.2 begin end_ v_state with
      | inl e => (set_k_cache k' c, inl e)
      | inr v' =>
          let c' := mkCache (past_seen_tokens c) k' v' in
          match getitem_prefix k' layer_idx end_ with
          | inl e => (c', inl e)
          | inr k_view =>
              match getitem_prefix v' layer_idx end_ with
              | inl e => (c', inl e)
              | inr v_view => (c', inr (k_view, v_view))
              end
          end
      end
  end.
Proof.
  unfold update, bind, get, put, lift, ret, set_k_cache, set_v_cache. simpl.
  destruct (setitem_slice (k_cache c) _ _ _ _ _) as [e|k']; [done|]. simpl.
  destruct (setitem_slice (v_cache c) _ _ _ _ _) as [e|v']; [done|]. simpl.
  destruct (getitem_prefix k' _ _) as [e|kv]; [done|].
  by destruct (getitem_prefix v' _ _) as [e|vv].
Qed.

Lemma wf_data4_ext {A} B H N D (d1 d2 : list (list (list (list A)))) :
  wf_data4 (B, H, N, D) d1 -> wf_data4 (B, H, N, D) d2 ->
  (forall bi hi, bi < B -> hi < H -> chunk_at d1 bi hi = chunk_at d2 bi hi) ->
  d1 = d2.
Proof.
  intros Hw1 Hw2 Hrows. apply list_eq. intros bi.
  destruct (decide (bi < B)) as [Hbi|Hbi].
  - destruct Hw1 as [Hl1 Hf1], Hw2 as [Hl2 Hf2].
    destruct (lookup_lt_is_Some_2 d1 bi) as [h1 E1]; [lia|].
    destruct (lookup_lt_is_Some_2 d2 bi) as [h2 E2]; [lia|].
    rewrite E1, E2. f_equal.
    pose proof (Forall_lookup_1 _ _ _ _ Hf1 E1) as [Hh1 Hp1].
    pose proof (Forall_lookup_1 _ _ _ _ Hf2 E2) as [Hh2 Hp2].
    apply list_eq. intros hi.
    destruct (decide (hi < H)) as [Hhi|Hhi].
    + destruct (lookup_lt_is_Some_2 h1 hi) as [p1 F1]; [lia|].
      destruct (lookup_lt_is_Some_2 h2 hi) as [p2 F2]; [lia|].
      rewrite F1, F2. f_equal.
      specialize (Hrows bi hi Hbi Hhi). unfold chunk_at in Hrows.
      by rewrite E1, E2, F1, F2 in Hrows.
    + rewrite !lookup_ge_None_2; [done|lia|lia].
  - destruct Hw1 as [Hl1 _], Hw2 as [Hl2 _].
    rewrite !lookup_ge_None_2; [done|lia|lia].
Qed.

Lemma take_ext {X} (e : nat) (l1 l2 : list X) :
  length l1 = length l2 -> (forall p, p < e -> l1 !! p = l2 !! p) ->
  take e l1 = take e l2.
Proof.
  intros Hlen Hp. apply list_eq. intros i. rewrite !lookup_take.
  case_decide; [by apply Hp|done].
Qed.

Lemma take_take_le {X} (b e : nat) (l1 l2 : list X) :
  b <= e -> take e l1 = take e l2 -> take b l1 = take b l2.
Proof.
  intros Hbe Heq.
  rewrite <- (Nat.min_l b e) by done. by rewrite <- !take_take, Heq.
Qed.

(** What is read below [e] after a write at [[b, e)] depends on the old
    rows below [e] only. *)
Lemma read_after_write_agree {A} B H C D (h b e : nat)
    (src old1 old2 : list (list (list (list A)))) :
  wf_data4 (B, H, C, D) old1 -> wf_data4 (B, H, C, D) old2 ->
  wf_data4 (B, h, e - b, D) src -> h <= H -> b <= C -> e <= C ->
  (forall bi hi, bi < B -> hi < H ->
     take e (chunk_at old1 bi hi) = take e (chunk_at old2 bi hi)) ->
  map (map (take e)) (write_view h b (e - b) src old1) =
  map (map (take e)) (write_view h b (e - b) src old2).
Proof.
  intros Hw1 Hw2 Hsrc Hh Hb He Hagree.
  apply (wf_data4_ext B H e D).
  - apply (wf_data4_take B H C D); [|done]. apply wf_write_view; [done|done|done|lia].
  - apply (wf_data4_take B H C D); [|done]. apply wf_write_view; [done|done|done|lia].
  - intros bi hi Hbi Hhi. rewrite !chunk_at_take, !chunk_at_write_view.
    case_decide as Hhi'; [|by apply Hagree].
    destruct (wf_data4_lookup _ _ _ _ _ _ _ Hw1 Hbi Hhi) as (hs1 & p1 & E1 & F1 & _ & N1 & _).
    destruct (wf_data4_lookup _ _ _ _ _ _ _ Hw2 Hbi Hhi) as (hs2 & p2 & E2 & F2 & _ & N2 & _).
    rewrite E1, F1, E2, F2.
    pose proof (Hagree bi hi Hbi Hhi) as Hag. unfold chunk_at in Hag.
    rewrite E1, F1, E2, F2 in Hag. simpl in Hag.
    pose proof (length_chunk_at _ _ _ _ _ _ _ Hsrc Hbi Hhi') as Hrows.
    destruct (decide (b <= e)) as [Hbe|Hbe].
    + replace e with (b + (e - b)) at 1 3 by lia.
      rewrite !take_write_positions by (done || lia).
      f_equal. by apply (take_take_le b e).
    + replace (e - b) with 0 in * by lia.
      apply nil_length_inv in Hrows. rewrite Hrows.
      by rewrite !write_positions_empty.
Qed.

Lemma agree_below_take {A} (t1 t2 : Tensor5 A) L B H C D l bound e :
  shape5 t1 = (L, B, H, C, D) -> shape5 t2 = (L, B, H, C, D) -> wf5 t1 -> wf5 t2 ->
  l < L -> e <= bound -> agree_below bound t1 t2 l ->
  forall bi hi, bi < B -> hi < H ->
    take e (chunk_at (layer_data t1 l) bi hi) = take e (chunk_at (layer_data t2 l) bi hi).
Proof.
  intros E1 E2 W1 W2 Hl He Hag bi hi Hbi Hhi.
  destruct (wf5_layer_data t1 _ _ _ _ _ l E1 W1 Hl) as [_ Hw1].
  destruct (wf5_layer_data t2 _ _ _ _ _ l E2 W2 Hl) as [_ Hw2].
  apply take_ext.
  - rewrite (length_chunk_at _ _ _ _ _ _ _ Hw1 Hbi Hhi).
    by rewrite (length_chunk_at _ _ _ _ _ _ _ Hw2 Hbi Hhi).
  - intros p Hp. apply Hag. lia.
Qed.

(** A write followed by the read of the prefix, on two buffers that agree
    below the end of the slice: the same exception, or the same view. *)
Lemma setitem_then_prefix_agree {A} (t1 t2 : Tensor5 A) L B H C D
    (layer_idx : nat) (hs : nat) (begin : Z) (bound : nat) (src : Tensor4 A) :
  shape5 t1 = (L, B, H, C, D) -> shape5 t2 = (L, B, H, C, D) -> wf5 t1 -> wf5 t2 ->
  wf4 src -> agree_below bound t1 t2 layer_idx ->
  match setitem_slice t1 (Z.of_nat layer_idx) hs begin (Z.of_nat bound) src,
        setitem_slice t2 (Z.of_nat layer_idx) hs begin (Z.of_nat bound) src with
  | inl e1, inl e2 => e1 = e2
  | inr t1', inr t2' =>
      getitem_prefix t1' (Z.of_nat layer_idx) (Z.of_nat bound)
      = getitem_prefix t2' (Z.of_nat layer_idx) (Z.of_nat bound)
  | _, _ => False
  end.
Proof.
  intros E1 E2 W1 W2 Hsrc Hag. unfold setitem_slice. rewrite E1, E2.
  destruct (index_int L (Z.of_nat layer_idx)) as [l|] eqn:El; [|done].
  assert (l = layer_idx) as ->.
  { unfold index_int in El. destruct (0 <=? Z.of_nat layer_idx)%Z eqn:E0; [|lia].
    destruct (Z.of_nat layer_idx <? Z.of_nat L)%Z; [|done]. injection El as <-. lia. }
  assert (Hl : layer_idx < L) by (by eapply index_int_lt).
  set (h := slice_bound H (Z.of_nat hs)).
  set (b := slice_bound C begin). set (e := slice_bound C (Z.of_nat bound)).
  destruct (broadcastable (shape4 src) (B, h, e - b, D)) eqn:Hb; [|done].
  unfold getitem_prefix. rewrite !shape5_write_layer, E1, E2, El. fold e. do 2 f_equal.
  destruct (wf5_layer_data t1 _ _ _ _ _ layer_idx E1 W1 Hl) as [Hl1 Hw1].
  destruct (wf5_layer_data t2 _ _ _ _ _ layer_idx E2 W2 Hl) as [Hl2 Hw2].
  pose proof (lookup_lt_Some _ _ _ Hl1) as Hlen1.
  pose proof (lookup_lt_Some _ _ _ Hl2) as Hlen2.
  rewrite !layer_data_write_layer_eq by done.
  apply (read_after_write_agree B H C D).
  - done.
  - done.
  - eapply wf_expand4; [exact Hsrc|exact Hb].
  - apply slice_bound_le.
  - apply slice_bound_le.
  - apply slice_bound_le.
  - apply (agree_below_take t1 t2 L B H C D layer_idx bound e); try done.
    unfold e. rewrite slice_bound_of_nat. lia.
Qed.

Section AttentionFacts.
Context {A : Type} {T : Transformer A}.

Lemma attention_forward_unfold (layer_idx : nat) (h : Hidden) (mask : Tensor4 mval)
    (pos : list Z) (c : SliceUpdateKeyValueCache A) :
  attention_forward layer_idx h mask pos c =
  match update (key_chunk layer_idx h pos) (value_chunk layer_idx h) (Z.of_nat layer_idx)
               (slice_indices_of mask (q_len_of h)) c with
  | (c', inr (k_view, v_view)) =>
      (c', inr (o_proj layer_idx
                  (scaled_dot_product_attention
                     (apply_rotary_pos_emb (q_proj layer_idx h) (k_proj layer_idx h)
                        (rotary_emb layer_idx (v_proj layer_idx h) pos)).1
                     (repeat_kv k_view num_key_value_groups)
                     (repeat_kv v_view num_key_value_groups) mask)))
  | (c', inl e) => (c', inl e)
  end.
Proof.
  unfold attention_forward, key_chunk, value_chunk.
  destruct (apply_rotary_pos_emb _ _ _) as [q k]. cbn [fst snd].
  unfold bind at 1. destruct (update _ _ _ _ c) as [c' [e|[kv vv]]]; done.
Qed.

(** C5: the output of a layer's attention step is the same on two caches
    that hold the same rows at the positions below
    [occupancyBefore + newTokenCount] (the last dimension of the mask) of
    that layer, whatever they hold at and beyond it. *)
Theorem attention_output_depends_on_prefix (c1 c2 : SliceUpdateKeyValueCache A)
    (layer_idx : nat) (hidden_states : Hidden) (attention_mask : Tensor4 mval)
    (position_ids : list Z) (L B H C D : nat) :
  (forall l h pos, wf4 (key_chunk l h pos)) -> (forall l h, wf4 (value_chunk l h)) ->
  shape5 (k_cache c1) = (L, B, H, C, D) -> shape5 (k_cache c2) = (L, B, H, C, D) ->
  shape5 (v_cache c1) = (L, B, H, C, D) -> shape5 (v_cache c2) = (L, B, H, C, D) ->
  wf5 (k_cache c1) -> wf5 (k_cache c2) -> wf5 (v_cache c1) -> wf5 (v_cache c2) ->
  agree_below (last_dim attention_mask) (k_cache c1) (k_cache c2) layer_idx ->
  agree_below (last_dim attention_mask) (v_cache c1) (v_cache c2) layer_idx ->
  (attention_forward layer_idx hidden_states attention_mask position_ids c1).2 =
  (attention_forward layer_idx hidden_states attention_mask position_ids c2).2.
Proof.
  intros Hkwf Hvwf Ek1 Ek2 Ev1 Ev2 Wk1 Wk2 Wv1 Wv2 Hagk Hagv.
  rewrite !attention_forward_unfold. unfold slice_indices_of.
  rewrite !update_unfold.
  set (bound := last_dim attention_mask) in *.
  set (begin := (Z.of_nat bound - Z.of_nat (q_len_of hidden_states))%Z).
  pose proof (setitem_then_prefix_agree (k_cache c1) (k_cache c2) L B H C D layer_idx
    (shape4 (key_chunk layer_idx hidden_states position_ids)).1.1.2 begin bound
    (key_chunk layer_idx hidden_states position_ids) Ek1 Ek2 Wk1 Wk2 (Hkwf _ _ _) Hagk) as HK.
  pose proof (setitem_then_prefix_agree (v_cache c1) (v_cache c2) L B H C D layer_idx
    (shape4 (value_chunk layer_idx hidden_states)).1.1.2 begin bound
    (value_chunk layer_idx hidden_states) Ev1 Ev2 Wv1 Wv2 (Hvwf _ _) Hagv) as HV.
  destruct (setitem_slice (k_cache c1) _ _ _ _ _) as [e1|k1'],
           (setitem_slice (k_cache c2) _ _ _ _ _) as [e2|k2']; try done.
  { simpl. by rewrite HK. }
  destruct (setitem_slice (v_cache c1) _ _ _ _ _) as [e1|v1'],
           (setitem_slice (v_cache c2) _ _ _ _ _) as [e2|v2']; try done.
  { simpl. by rewrite HV. }
  simpl. rewrite HK, HV.
  destruct (getitem_prefix k2' _ _) as [e|kv]; [done|].
  by destruct (getitem_prefix v2' _ _) as [e|vv].
Qed.
End AttentionFacts.

(** ** A decoding step writes one slice per layer and advances the counter *)

Lemma update_inside {A} (c : SliceUpdateKeyValueCache A) (k_state v_state : Tensor4 A)
    (layer_idx : Z) (l : nat) (begin end_ : Z) (L B H C D : nat) :
  shape5 (k_cache c) = (L, B, H, C, D) -> shape5 (v_cache c) = (L, B, H, C, D) ->
  index_int L layer_idx = Some l ->
  (0 <= begin <= end_)%Z -> (end_ <= Z.of_nat C)%Z ->
  shape4 k_state = (B, H, Z.to_nat (end_ - begin), D) -> wf4 k_state ->
  shape4 v_state = (B, H, Z.to_nat (end_ - begin), D) -> wf4 v_state ->
  exists views,
    update k_state v_state layer_idx [begin; end_] c =
    (mkCache (past_seen_tokens c)
       (write_layer (k_cache c) l H (Z.to_nat begin) (Z.to_nat (end_ - begin)) (data4 k_state))
       (write_layer (v_cache c) l H (Z.to_nat begin) (Z.to_nat (end_ - begin)) (data4 v_state)),
     inr views).
Proof.
  intros Esk Esv Hl Hbe HeC Ek Hwk Ev Hwv.
  rewrite update_unfold, Ek, Ev. cbn [fst snd].
  rewrite (setitem_slice_inside (k_cache c) layer_idx l begin end_ k_state L B H C D) by done.
  rewrite (setitem_slice_inside (v_cache c) layer_idx l begin end_ v_state L B H C D) by done.
  cbv zeta.
  rewrite (getitem_prefix_inside _ layer_idx l end_ L B H C D)
    by (rewrite ?shape5_write_layer; done || lia).
  rewrite (getitem_prefix_inside _ layer_idx l end_ L B H C D)
    by (rewrite ?shape5_write_layer; done || lia).
  by eexists.
Qed.

Lemma chunk_at_write_view_inside {A} B H C D (b m : nat)
    (src old : list (list (list (list A)))) bi hi :
  wf_data4 (B, H, C, D) old -> bi < B -> hi < H ->
  chunk_at (write_view H b m src old) bi hi =
  take b (chunk_at old bi hi) ++ chunk_at src bi hi ++ drop (b + m) (chunk_at old bi hi).
Proof.
  intros Hold Hbi Hhi. rewrite chunk_at_write_view. case_decide; [|lia].
  destruct (wf_data4_lookup _ _ _ _ _ _ _ Hold Hbi Hhi) as (heads & poss & E1 & E2 & _).
  assert (Hc : chunk_at old bi hi = poss) by (unfold chunk_at; by rewrite E1, E2).
  by rewrite Hc, E1, E2.
Qed.

Lemma sum_list_step_counts (n k : nat) : sum_list (n :: replicate k 1) = n + k.
Proof. simpl. rewrite sum_list_replicate. lia. Qed.

Section DriverCounter.
Variable State : Type.
Variable make_state : State.
Variable predict : list Z -> Tensor4 mval -> M State Logits.

Lemma get_next_token_step (prompt_tokens : list Z) (g0 : Generator State) :
  get_next_token State make_state predict prompt_tokens = inr g0 ->
  num_past_tokens g0 = 0 + length prompt_tokens /\
  exists logits,
    inference State predict prompt_tokens 0 make_state = (kv_cache_state g0, inr logits).
Proof.
  unfold get_next_token, bind, lift.
  destruct (inference State predict prompt_tokens 0 make_state) as [s [e|logits]]; [done|].
  destruct (sample logits) as [e|t]; [done|]. intros [= <-]. simpl. eauto.
Qed.

Lemma next_step (g g' : Generator State) :
  next State predict g = inr g' ->
  num_past_tokens g' = num_past_tokens g + length [token g] /\
  exists logits,
    inference State predict [token g] (num_past_tokens g) (kv_cache_state g)
    = (kv_cache_state g', inr logits).
Proof.
  unfold next, bind, lift.
  destruct (inference State predict [token g] _ _) as [s [e|logits]]; [done|].
  destruct (sample logits) as [e|t]; [done|]. intros [= <-]. simpl. eauto.
Qed.

Lemma advance_num_past_tokens (k : nat) (g0 g : Generator State) :
  advance State predict k g0 = inr g -> num_past_tokens g = num_past_tokens g0 + k.
Proof.
  revert g0. induction k as [|k IH]; intros g0; simpl.
  - intros [= <-]. lia.
  - destruct (next State predict g0) as [e|g1] eqn:E; [done|]. intros Hk.
    apply IH in Hk. apply next_step in E as [E _]. simpl in E. lia.
Qed.
End DriverCounter.

Section StepFacts.
Context {A : Type} {T : Transformer A}.
Variables B H C D : nat.
Context {WS : WellShaped T B H D}.

Local Abbreviation L := (@num_hidden_layers A T).

(** The attention step of one layer inside the capacity. *)
Lemma attention_forward_inside (c : SliceUpdateKeyValueCache A) (l : nat) (h : Hidden)
    (mask : Tensor4 mval) (pos : list Z) (p : nat) :
  shape5 (k_cache c) = (L, B, H, C, D) -> shape5 (v_cache c) = (L, B, H, C, D) ->
  l < L -> last_dim mask = p + q_len_of h -> p + q_len_of h <= C ->
  exists attn_output,
    attention_forward l h mask pos c =
    (mkCache (past_seen_tokens c)
       (write_layer (k_cache c) l H p (q_len_of h) (data4 (key_chunk l h pos)))
       (write_layer (v_cache c) l H p (q_len_of h) (data4 (value_chunk l h))),
     inr attn_output).
Proof.
  intros Esk Esv Hl Hmask HpC.
  rewrite attention_forward_unfold. unfold slice_indices_of. rewrite Hmask.
  set (n := q_len_of h) in *.
  destruct (update_inside c (key_chunk l h pos) (value_chunk l h) (Z.of_nat l) l
              (Z.of_nat (p + n) - Z.of_nat n) (Z.of_nat (p + n)) L B H C D)
    as [[kv vv] Hupd]; try done.
  - by apply index_int_of_nat.
  - lia.
  - lia.
  - rewrite key_chunk_shape. fold n. do 2 f_equal. lia.
  - apply key_chunk_wf.
  - rewrite value_chunk_shape. fold n. do 2 f_equal. lia.
  - apply value_chunk_wf.
  - rewrite Hupd.
    replace (Z.to_nat (Z.of_nat (p + n) - Z.of_nat n)) with p by lia.
    replace (Z.to_nat (Z.of_nat (p + n) - (Z.of_nat (p + n) - Z.of_nat n))) with n by lia.
    by eexists.
Qed.

(** The layers in turn: every layer of the list is written once, at
    [[p, p + n)], with the chunks computed from the hidden states that
    entered it; the other layers and the counter are untouched. *)
Lemma decoder_layers_spec (mask : Tensor4 mval) (pos : list Z) (p n : nat) :
  last_dim mask = p + n -> p + n <= C ->
  forall (layers : list nat) (h : Hidden) (c : SliceUpdateKeyValueCache A),
    NoDup layers -> (forall l, l ∈ layers -> l < L) -> q_len_of h = n ->
    shape5 (k_cache c) = (L, B, H, C, D) -> shape5 (v_cache c) = (L, B, H, C, D) ->
    wf5 (k_cache c) -> wf5 (v_cache c) ->
    exists c' h',
      decoder_layers layers h mask pos c = (c', inr h') /\
      past_seen_tokens c' = past_seen_tokens c /\
      shape5 (k_cache c') = (L, B, H, C, D) /\ shape5 (v_cache c') = (L, B, H, C, D) /\
      wf5 (k_cache c') /\ wf5 (v_cache c') /\
      (forall l, l ∉ layers ->
         layer_data (k_cache c') l = layer_data (k_cache c) l /\
         layer_data (v_cache c') l = layer_data (v_cache c) l) /\
      (forall l, l ∈ layers ->
         exists hl, q_len_of hl = n /\
           layer_data (k_cache c') l
             = write_view H p n (data4 (key_chunk l hl pos)) (layer_data (k_cache c) l) /\
           layer_data (v_cache c') l
             = write_view H p n (data4 (value_chunk l hl)) (layer_data (v_cache c) l)).
Proof.
  intros Hmask HpC layers.
  induction layers as [|l layers IH]; intros h c Hnd Hlt Hq Esk Esv Wk Wv.
  - exists c, h. simpl. split_and!; try done.
    intros l Hl. by apply elem_of_nil in Hl.
  - apply NoDup_cons in Hnd as [Hnotin Hnd].
    assert (HlL : l < L) by (apply Hlt; left).
    destruct (attention_forward_inside c l h mask pos p Esk Esv HlL) as [a Ha];
      [by rewrite Hq | by rewrite Hq |].
    rewrite Hq in Ha.
    set (c1 := mkCache (past_seen_tokens c)
                 (write_layer (k_cache c) l H p n (data4 (key_chunk l h pos)))
                 (write_layer (v_cache c) l H p n (data4 (value_chunk l h)))) in *.
    assert (Hsk : wf_data4 (B, H, n, D) (data4 (key_chunk l h pos))).
    { pose proof (key_chunk_wf l h pos) as Hw. unfold wf4 in Hw.
      by rewrite key_chunk_shape, Hq in Hw. }
    assert (Hsv : wf_data4 (B, H, n, D) (data4 (value_chunk l h))).
    { pose proof (value_chunk_wf l h) as Hw. unfold wf4 in Hw.
      by rewrite value_chunk_shape, Hq in Hw. }
    assert (HLk : length (data5 (k_cache c)) = L)
      by (unfold wf5 in Wk; rewrite Esk in Wk; tauto).
    assert (HLv : length (data5 (v_cache c)) = L)
      by (unfold wf5 in Wv; rewrite Esv in Wv; tauto).
    destruct (IH (decoder_layer_rest l h a) c1) as
      (c' & h' & Hrun & Hpast & Esk' & Esv' & Wk' & Wv' & Hother & Hwritten).
    + done.
    + intros l' Hl'. apply Hlt. by right.
    + by rewrite decoder_layer_rest_q_len.
    + done.
    + done.
    + by apply (wf5_write_layer _ _ _ _ _ L B H C D).
    + by apply (wf5_write_layer _ _ _ _ _ L B H C D).
    + exists c', h'. split_and!; try done.
      * simpl. unfold bind at 1. by rewrite Ha.
      * intros l' Hl'. apply not_elem_of_cons in Hl' as [Hne Hl'].
        destruct (Hother l' Hl') as [-> ->]. unfold c1. cbn [k_cache v_cache].
        by rewrite !layer_data_write_layer_ne.
      * intros l' [->|Hl']%elem_of_cons.
        -- exists h. destruct (Hother l Hnotin) as [-> ->].
           unfold c1. cbn [k_cache v_cache].
           rewrite !layer_data_write_layer_eq by lia. done.
        -- destruct (Hwritten l' Hl') as (hl & Hql & -> & ->).
           exists hl. unfold c1. cbn [k_cache v_cache].
           assert (l <> l') by (intros ->; done).
           by rewrite !layer_data_write_layer_ne.
Qed.

End StepFacts.

(** ** The statements on the toy transformer *)

Lemma toy_rows_wf (f : Z -> Z) (h : list Z) : wf4 (toy_rows f h).
Proof.
  unfold wf4, toy_rows. simpl. split; [done|].
  repeat constructor.
  - by rewrite length_map.
  - apply Forall_fmap. by apply Forall_true.
Qed.

Lemma toy_well_shaped : WellShaped toy_transformer 1 1 1.
Proof.
  split.
  - reflexivity.
  - intros l h pos. apply toy_rows_wf.
  - reflexivity.
  - intros l h. apply toy_rows_wf.
  - reflexivity.
  - intros l h a. unfold q_len_of. simpl. by rewrite length_map.
Qed.

Lemma toy_state_wf : wf5 (k_cache toy_state) /\ wf5 (v_cache toy_state).
Proof. split; apply wf5_zeros5. Qed.

Lemma toy_caches_agree_below :
  agree_below 3 (k_cache toy_cache_a) (k_cache toy_cache_b) 0 /\
  agree_below 3 (v_cache toy_cache_a) (v_cache toy_cache_b) 0.
Proof.
  split; intros [|bi] [|hi] [|[|[|p]]] Hp; try reflexivity; lia.
Qed.

Lemma toy_caches_differ_beyond :
  chunk_at (layer_data (k_cache toy_cache_a) 0) 0 0 !! 3 <>
  chunk_at (layer_data (k_cache toy_cache_b) 0) 0 0 !! 3.
Proof. discriminate. Qed.

Lemma attention_output_depends_on_prefix_witness :
  (attention_forward 0 [8]%Z (causal_mask [8]%Z 2) [2]%Z toy_cache_a).2 =
  (attention_forward 0 [8]%Z (causal_mask [8]%Z 2) [2]%Z toy_cache_b).2.
Proof.
  apply (attention_output_depends_on_prefix (T := toy_transformer)
           toy_cache_a toy_cache_b 0 [8]%Z (causal_mask [8]%Z 2) [2]%Z 2 1 1 4 1).
  - intros l h pos. apply toy_rows_wf.
  - intros l h. apply toy_rows_wf.
  - reflexivity.
  - reflexivity.
  - reflexivity.
  - reflexivity.
  - repeat split; repeat constructor.
  - repeat split; repeat constructor.
  - repeat split; repeat constructor.
  - repeat split; repeat constructor.
  - apply toy_caches_agree_below.
  - apply toy_caches_agree_below.
Defined.

(** The two ways the loop ends, on the toy transformer: at the stop token,
    which is left out, and at the limit, with all four tokens. *)
Example generate_stops_at_eos :
  match generate_tokens (SliceUpdateKeyValueCache Z) toy_state forward 6 [5; 8; 2]%Z 0 4 with
  | Some (inr (g, extend_tokens)) =>
      extend_tokens = [2%Z] /\ token g = 0%Z /\ num_past_tokens g = 4
  | _ => False
  end.
Proof. vm_compute. done. Qed.

Example generate_stops_at_limit :
  match generate_tokens (SliceUpdateKeyValueCache Z) toy_state forward 6 [5; 8; 1]%Z 0 4 with
  | Some (inr (g, extend_tokens)) =>
      extend_tokens = [1; 2; 1; 1]%Z /\ token g = 2%Z /\ num_past_tokens g = 7
  | _ => False
  end.
Proof. vm_compute. done. Qed.

Lemma mask_construction_pure_witness :
  causal_mask [5; 8; 2]%Z 2 = causal_mask [1; 1; 1]%Z 2 /\
  inference (SliceUpdateKeyValueCache Z) forward [5; 8; 2]%Z 2 toy_state
    = forward [5; 8; 2]%Z (causal_mask [5; 8; 2]%Z 2) toy_state /\
  inference (SliceUpdateKeyValueCache Z) forward [1; 1; 1]%Z 2 toy_cache_a
    = forward [1; 1; 1]%Z (causal_mask [5; 8; 2]%Z 2) toy_cache_a.
Proof.
  apply (mask_construction_pure (forward (T := toy_transformer))
           [5; 8; 2]%Z [1; 1; 1]%Z 2 toy_state toy_cache_a).
  reflexivity.
Defined.

(** * Further properties of the code *)

(** ** What [update] keeps, whatever the call and its outcome *)

Lemma setitem_slice_inv {A} (buf buf' : Tensor5 A) layer_idx hs begin end_ (src : Tensor4 A)
    L B H C D :
  shape5 buf = (L, B, H, C, D) ->
  setitem_slice buf layer_idx hs begin end_ src = inr buf' ->
  exists l h b m,
    index_int L layer_idx = Some l /\ h <= H /\ b + m <= C /\
    broadcastable (shape4 src) (B, h, m, D) = true /\
    buf' = write_layer buf l h b m (expand4 (B, h, m, D) (data4 src)).
Proof.
  intros Es. unfold setitem_slice. rewrite Es.
  destruct (index_int L layer_idx) as [l|]; [|done].
  destruct (broadcastable _ _) eqn:Hb; [|done]. intros [= <-].
  eexists l, _, _, _. split_and!; [done| | |exact Hb|done].
  - apply slice_bound_le.
  - pose proof (slice_bound_le C begin). pose proof (slice_bound_le C end_). lia.
Qed.

Lemma wf5_write_layer_heads {A} (buf : Tensor5 A) l h b m
    (src : list (list (list (list A)))) L B H C D :
  shape5 buf = (L, B, H, C, D) -> wf5 buf -> wf_data4 (B, h, m, D) src ->
  h <= H -> b + m <= C ->
  wf5 (write_layer buf l h b m src).
Proof.
  intros Es Hwf Hsrc Hh Hbm. unfold wf5, write_layer in *. cbn [shape5 data5]. rewrite Es in *.
  destruct Hwf as [HL Hd]. split; [by rewrite length_alter|].
  apply Forall_lookup_2. intros i d'. rewrite list_lookup_alter.
  case_decide as Hi.
  - subst i. destruct (data5 buf !! l) as [d|] eqn:E; simpl; [|done]. intros [= <-].
    apply wf_write_view; [|done|done|done]. exact (Forall_lookup_1 _ _ _ _ Hd E).
  - intros E. exact (Forall_lookup_1 _ _ _ _ Hd E).
Qed.

Lemma wf5_setitem_slice {A} (buf buf' : Tensor5 A) layer_idx hs begin end_ (src : Tensor4 A) :
  wf5 buf -> wf4 src ->
  setitem_slice buf layer_idx hs begin end_ src = inr buf' -> wf5 buf'.
Proof.
  intros Hwf Hsrc Hset.
  destruct (shape5 buf) as [[[[L B] H] C] D] eqn:Es.
  destruct (setitem_slice_inv _ _ _ _ _ _ _ _ _ _ _ _ Es Hset)
    as (l & h & b & m & _ & Hh & Hbm & Hb & ->).
  apply (wf5_write_layer_heads _ _ _ _ _ _ L B H C D); try done.
  by eapply wf_expand4.
Qed.

(** The three states [update] can leave behind. *)
Lemma update_state_cases {A} (k_state v_state : Tensor4 A) (layer_idx : Z)
    (slice_indices : list Z) (c : SliceUpdateKeyValueCache A) :
  (update k_state v_state layer_idx slice_indices c).1 = c \/
  exists begin end_ k',
    slice_indices = [begin; end_] /\
    setitem_slice (k_cache c) layer_idx (shape4 k_state).1.1.2 begin end_ k_state = inr k' /\
    ((update k_state v_state layer_idx slice_indices c).1 = set_k_cache k' c \/
     exists v',
       setitem_slice (v_cache c) layer_idx (shape4 v_state).1.1.2 begin end_ v_state = inr v' /\
       (update k_state v_state layer_idx slice_indices c).1 = mkCache (past_seen_tokens c) k' v').
Proof.
  destruct slice_indices as [|begin [|end_ [|x rest]]]; try (by left).
  rewrite update_unfold.
  destruct (setitem_slice (k_cache c) _ _ _ _ _) as [e|k'] eqn:Ek; [by left|].
  right. exists begin, end_, k'. split; [done|]. split; [done|].
  destruct (setitem_slice (v_cache c) _ _ _ _ _) as [e|v'] eqn:Ev; [by left|].
  right. exists v'. split; [done|]. cbv zeta.
  destruct (getitem_prefix k' _ _); [done|]. by destruct (getitem_prefix v' _ _).
Qed.

Lemma update_keeps {A} (c : SliceUpdateKeyValueCache A)
    (k_state v_state : Tensor4 A) (layer_idx : Z) (slice_indices : list Z) :
  past_seen_tokens (update k_state v_state layer_idx slice_indices c).1 = past_seen_tokens c /\
  shape5 (k_cache (update k_state v_state layer_idx slice_indices c).1) = shape5 (k_cache c) /\
  shape5 (v_cache (update k_state v_state layer_idx slice_indices c).1) = shape5 (v_cache c).
Proof.
  destruct (update_state_cases k_state v_state layer_idx slice_indices c)
    as [-> | (b & e & k' & _ & Hk & [-> | (v' & Hv & ->)])]; [done| |].
  - simpl. split; [done|]. split; [|done]. by eapply shape5_setitem_slice.
  - simpl. split; [done|]. split; by eapply shape5_setitem_slice.
Qed.

(** X1: [update] never changes the counter nor the shape of a buffer: the
    capacity is fixed for the life of the cache. *)
Theorem update_keeps_counter_and_shape {A} (c : SliceUpdateKeyValueCache A)
    (k_state v_state : Tensor4 A) (layer_idx : Z) (slice_indices : list Z) :
  past_seen_tokens (update k_state v_state layer_idx slice_indices c).1 = past_seen_tokens c /\
  shape5 (k_cache (update k_state v_state layer_idx slice_indices c).1) = shape5 (k_cache c) /\
  shape5 (v_cache (update k_state v_state layer_idx slice_indices c).1) = shape5 (v_cache c).
Proof. apply update_keeps. Qed.

Lemma update_keeps_wf {A} (c : SliceUpdateKeyValueCache A)
    (k_state v_state : Tensor4 A) (layer_idx : Z) (slice_indices : list Z) :
  wf5 (k_cache c) -> wf5 (v_cache c) -> wf4 k_state -> wf4 v_state ->
  wf5 (k_cache (update k_state v_state layer_idx slice_indices c).1) /\
  wf5 (v_cache (update k_state v_state layer_idx slice_indices c).1).
Proof.
  intros Wk Wv Hk Hv.
  destruct (update_state_cases k_state v_state layer_idx slice_indices c)
    as [-> | (b & e & k' & _ & Ek & [-> | (v' & Ev & ->)])]; [done| |].
  - simpl. split; [|done]. exact (wf5_setitem_slice _ _ _ _ _ _ _ Wk Hk Ek).
  - simpl. split.
    + exact (wf5_setitem_slice _ _ _ _ _ _ _ Wk Hk Ek).
    + exact (wf5_setitem_slice _ _ _ _ _ _ _ Wv Hv Ev).
Qed.

(** [update] keeps the buffers well-formed, also when it raises. *)
Theorem update_keeps_well_formed {A} (c : SliceUpdateKeyValueCache A)
    (k_state v_state : Tensor4 A) (layer_idx : Z) (slice_indices : list Z) :
  wf5 (k_cache c) -> wf5 (v_cache c) -> wf4 k_state -> wf4 v_state ->
  wf5 (k_cache (update k_state v_state layer_idx slice_indices c).1) /\
  wf5 (v_cache (update k_state v_state layer_idx slice_indices c).1).
Proof. apply update_keeps_wf. Qed.

Lemma update_keeps_well_formed_witness :
  wf5 (k_cache (update ex_k1 ex_v2 0 [1%Z; 2%Z] ex_cache).1) /\
  wf5 (v_cache (update ex_k1 ex_v2 0 [1%Z; 2%Z] ex_cache).1).
Proof.
  apply update_keeps_well_formed; repeat split; repeat constructor.
Defined.

(** X2: A layer index outside [-L, L) raises IndexError before anything is
    written. *)
Theorem update_layer_out_of_range {A} (c : SliceUpdateKeyValueCache A)
    (k_state v_state : Tensor4 A) (layer_idx begin end_ : Z) (L B H C D : nat) :
  shape5 (k_cache c) = (L, B, H, C, D) ->
  (layer_idx < - Z.of_nat L \/ Z.of_nat L <= layer_idx)%Z ->
  update k_state v_state layer_idx [begin; end_] c = (c, inl IndexError).
Proof.
  intros Es Hl. rewrite update_unfold. unfold setitem_slice. rewrite Es.
  replace (index_int L layer_idx) with (@None nat); [done|].
  unfold index_int. destruct (0 <=? layer_idx)%Z eqn:E0.
  - destruct (layer_idx <? Z.of_nat L)%Z eqn:E1; [lia|done].
  - destruct (0 <=? layer_idx + Z.of_nat L)%Z eqn:E1; [lia|done].
Qed.

Lemma update_layer_out_of_range_witness :
  update ex_k1 ex_v1 1 [0%Z; 1%Z] ex_cache = (ex_cache, inl IndexError) /\
  update ex_k1 ex_v1 (-2) [0%Z; 1%Z] ex_cache = (ex_cache, inl IndexError).
Proof.
  split.
  - apply (update_layer_out_of_range ex_cache ex_k1 ex_v1 1 0 1 1 1 1 2 1);
      [reflexivity | simpl; lia].
  - apply (update_layer_out_of_range ex_cache ex_k1 ex_v1 (-2) 0 1 1 1 1 2 1);
      [reflexivity | simpl; lia].
Defined.

(** X3: [update] touches no layer but the one it is given, whatever the
    outcome. *)
Theorem update_other_layers_untouched {A} (c : SliceUpdateKeyValueCache A)
    (k_state v_state : Tensor4 A) (layer_idx : Z) (slice_indices : list Z) (l' : nat) :
  (0 <= layer_idx)%Z -> l' <> Z.to_nat layer_idx ->
  layer_data (k_cache (update k_state v_state layer_idx slice_indices c).1) l'
    = layer_data (k_cache c) l' /\
  layer_data (v_cache (update k_state v_state layer_idx slice_indices c).1) l'
    = layer_data (v_cache c) l'.
Proof.
  intros H0 Hne.
  assert (Hset : forall (buf buf' : Tensor5 A) hs b e src,
            setitem_slice buf layer_idx hs b e src = inr buf' ->
            layer_data buf' l' = layer_data buf l').
  { intros buf buf' hs b e src Hs.
    destruct (shape5 buf) as [[[[L B] H] C] D] eqn:Es.
    destruct (setitem_slice_inv _ _ _ _ _ _ _ _ _ _ _ _ Es Hs)
      as (l & h & b' & m & Hl & _ & _ & _ & ->).
    apply layer_data_write_layer_ne. intros ->. apply Hne.
    unfold index_int in Hl. destruct (0 <=? layer_idx)%Z eqn:E0; [|lia].
    destruct (layer_idx <? Z.of_nat L)%Z; [|done]. by injection Hl as <-. }
  destruct (update_state_cases k_state v_state layer_idx slice_indices c)
    as [-> | (b & e & k' & _ & Ek & [-> | (v' & Ev & ->)])]; [done| |].
  - simpl. split; [|done]. by eapply Hset.
  - simpl. split; by eapply Hset.
Qed.

Lemma update_other_layers_untouched_witness :
  layer_data (k_cache (update (toy_rows (fun x => x) [8%Z]) (toy_rows (fun x => x) [9%Z])
                              0 [2%Z; 3%Z] toy_cache_a).1) 1
    = layer_data (k_cache toy_cache_a) 1 /\
  layer_data (v_cache (update (toy_rows (fun x => x) [8%Z]) (toy_rows (fun x => x) [9%Z])
                              0 [2%Z; 3%Z] toy_cache_a).1) 1
    = layer_data (v_cache toy_cache_a) 1.
Proof.
  apply update_other_layers_untouched; [lia | simpl; lia].
Defined.

(** ** How updates compose *)

Lemma broadcastable_positions_false b h n d b' h' n' d' :
  n <> n' -> n <> 1 -> broadcastable (b, h, n, d) (b', h', n', d') = false.
Proof.
  intros H1 H2. destruct (broadcastable _ _) eqn:E; [|done].
  apply broadcastable_positions in E. lia.
Qed.

Lemma setitem_slice_at {A} (buf : Tensor5 A) (src : Tensor4 A) (l p n : nat)
    (L B H C D Hs : nat) :
  shape5 buf = (L, B, H, C, D) -> l < L -> p + n <= C -> Hs <= H ->
  shape4 src = (B, Hs, n, D) -> wf4 src ->
  setitem_slice buf (Z.of_nat l) Hs (Z.of_nat p) (Z.of_nat (p + n)) src
  = inr (write_layer buf l Hs p n (data4 src)).
Proof.
  intros Es Hl HpC HHs Ess Hw. unfold setitem_slice.
  rewrite Es, (index_int_of_nat L l Hl), slice_bound_of_nat, !slice_bound_inside by lia.
  replace (Hs `min` H) with Hs by lia.
  replace (Z.to_nat (Z.of_nat (p + n)) - Z.to_nat (Z.of_nat p)) with n by lia.
  rewrite Nat2Z.id, Ess, broadcastable_refl.
  rewrite expand4_id; [done|]. unfold wf4 in Hw. by rewrite Ess in Hw.
Qed.

Lemma getitem_prefix_at {A} (buf : Tensor5 A) (l e : nat) (L B H C D : nat) :
  shape5 buf = (L, B, H, C, D) -> l < L -> e <= C ->
  getitem_prefix buf (Z.of_nat l) (Z.of_nat e)
  = inr (mkTensor4 (B, H, e, D) (map (map (take e)) (layer_data buf l))).
Proof.
  intros Es Hl He.
  rewrite (getitem_prefix_inside buf (Z.of_nat l) l (Z.of_nat e) L B H C D)
    by (done || (by apply index_int_of_nat) || lia).
  by rewrite Nat2Z.id.
Qed.

(** An update inside the capacity at the layer [l] and the positions
    [[p, p + n)], with chunks of [Hs] heads: the state and the views. *)
Lemma update_at {A} (c : SliceUpdateKeyValueCache A) (k_state v_state : Tensor4 A)
    (l p n : nat) (L B H C D Hs : nat) :
  shape5 (k_cache c) = (L, B, H, C, D) -> shape5 (v_cache c) = (L, B, H, C, D) ->
  l < L -> p + n <= C -> Hs <= H ->
  shape4 k_state = (B, Hs, n, D) -> wf4 k_state ->
  shape4 v_state = (B, Hs, n, D) -> wf4 v_state ->
  update k_state v_state (Z.of_nat l) [Z.of_nat p; Z.of_nat (p + n)] c =
  (mkCache (past_seen_tokens c)
     (write_layer (k_cache c) l Hs p n (data4 k_state))
     (write_layer (v_cache c) l Hs p n (data4 v_state)),
   inr (mkTensor4 (B, H, p + n, D)
          (map (map (take (p + n)))
             (layer_data (write_layer (k_cache c) l Hs p n (data4 k_state)) l)),
        mkTensor4 (B, H, p + n, D)
          (map (map (take (p + n)))
             (layer_data (write_layer (v_cache c) l Hs p n (data4 v_state)) l)))).
Proof.
  intros Esk Esv Hl HpC HHs Ek Wk Ev Wv.
  rewrite update_unfold, Ek, Ev. cbn [fst snd].
  rewrite (setitem_slice_at (k_cache c) k_state l p n L B H C D Hs) by done.
  rewrite (setitem_slice_at (v_cache c) v_state l p n L B H C D Hs) by done.
  cbv zeta.
  by rewrite !(getitem_prefix_at _ l (p + n) L B H C D) by (by rewrite ?shape5_write_layer).
Qed.

Lemma write_positions_overwrite {X} (b m : nat) (rows1 rows2 poss : list (list X)) :
  length rows1 = m -> b + m <= length poss ->
  write_positions b m rows2 (write_positions b m rows1 poss) = write_positions b m rows2 poss.
Proof.
  intros Hr Hb. unfold write_positions. f_equal; [|f_equal].
  - rewrite take_app_le by (rewrite length_take; lia).
    rewrite take_take. f_equal. lia.
  - rewrite app_assoc, drop_app_length'; [done|].
    rewrite length_app, length_take. lia.
Qed.

Lemma write_view_overwrite {A} B H C D (b m : nat)
    (src1 src2 old : list (list (list (list A)))) :
  wf_data4 (B, H, C, D) old -> wf_data4 (B, H, m, D) src1 -> wf_data4 (B, H, m, D) src2 ->
  b + m <= C ->
  write_view H b m src2 (write_view H b m src1 old) = write_view H b m src2 old.
Proof.
  intros Hold H1 H2 Hbm.
  assert (Hw1 : wf_data4 (B, H, C, D) (write_view H b m src1 old))
    by (by apply wf_write_view).
  apply (wf_data4_ext B H C D).
  - by apply wf_write_view.
  - by apply wf_write_view.
  - intros bi hi Hbi Hhi.
    rewrite (chunk_at_write_view_inside B H C D) by done.
    rewrite (chunk_at_write_view_inside B H C D _ _ src1 old) by done.
    rewrite (chunk_at_write_view_inside B H C D _ _ src2 old) by done.
    apply write_positions_overwrite.
    + by apply (length_chunk_at B H m D).
    + by rewrite (length_chunk_at B H C D).
Qed.

Lemma write_layer_overwrite {A} (buf : Tensor5 A) l b m
    (src1 src2 : list (list (list (list A)))) L B H C D :
  shape5 buf = (L, B, H, C, D) -> wf5 buf ->
  wf_data4 (B, H, m, D) src1 -> wf_data4 (B, H, m, D) src2 -> b + m <= C ->
  write_layer (write_layer buf l H b m src1) l H b m src2 = write_layer buf l H b m src2.
Proof.
  intros Es Hwf H1 H2 Hbm. unfold write_layer. cbn [shape5 data5]. f_equal.
  rewrite list_alter_alter_eq. apply list_alter_ext; [|done].
  intros x Hx. simpl. apply (write_view_overwrite B H C D); try done.
  unfold wf5 in Hwf. rewrite Es in Hwf. destruct Hwf as [_ Hd].
  exact (Forall_lookup_1 _ _ _ _ Hd Hx).
Qed.

(** X4: The last write wins: an update of a slice after another update of the
    same slice of the same layer leaves the cache, and returns the views, as
    if the first had not happened; in particular repeating an update changes
    nothing. *)
Theorem update_last_write_wins {A} (c : SliceUpdateKeyValueCache A)
    (k1 v1 k2 v2 : Tensor4 A) (l p n : nat) (L B H C D : nat) :
  shape5 (k_cache c) = (L, B, H, C, D) -> shape5 (v_cache c) = (L, B, H, C, D) ->
  wf5 (k_cache c) -> wf5 (v_cache c) -> l < L -> p + n <= C ->
  shape4 k1 = (B, H, n, D) -> wf4 k1 -> shape4 v1 = (B, H, n, D) -> wf4 v1 ->
  shape4 k2 = (B, H, n, D) -> wf4 k2 -> shape4 v2 = (B, H, n, D) -> wf4 v2 ->
  update k2 v2 (Z.of_nat l) [Z.of_nat p; Z.of_nat (p + n)]
         (update k1 v1 (Z.of_nat l) [Z.of_nat p; Z.of_nat (p + n)] c).1
  = update k2 v2 (Z.of_nat l) [Z.of_nat p; Z.of_nat (p + n)] c.
Proof.
  intros Esk Esv Wk Wv Hl HpC Ek1 Wk1 Ev1 Wv1 Ek2 Wk2 Ev2 Wv2.
  rewrite (update_at c k1 v1 l p n L B H C D H) by done. cbn [fst].
  rewrite (update_at _ k2 v2 l p n L B H C D H) by done.
  rewrite (update_at c k2 v2 l p n L B H C D H) by done.
  cbn [past_seen_tokens k_cache v_cache].
  assert (S1 : wf_data4 (B, H, n, D) (data4 k1)) by (unfold wf4 in Wk1; by rewrite Ek1 in Wk1).
  assert (S2 : wf_data4 (B, H, n, D) (data4 v1)) by (unfold wf4 in Wv1; by rewrite Ev1 in Wv1).
  assert (S3 : wf_data4 (B, H, n, D) (data4 k2)) by (unfold wf4 in Wk2; by rewrite Ek2 in Wk2).
  assert (S4 : wf_data4 (B, H, n, D) (data4 v2)) by (unfold wf4 in Wv2; by rewrite Ev2 in Wv2).
  by rewrite !(write_layer_overwrite _ l p n _ _ L B H C D).
Qed.

Lemma update_last_write_wins_witness :
  update (toy_rows (fun x => x) [7%Z]) (toy_rows (fun x => x) [6%Z]) 1 [2%Z; 3%Z]
         (update (toy_rows (fun x => x) [8%Z]) (toy_rows (fun x => x) [9%Z])
                 1 [2%Z; 3%Z] toy_cache_a).1
  = update (toy_rows (fun x => x) [7%Z]) (toy_rows (fun x => x) [6%Z]) 1 [2%Z; 3%Z] toy_cache_a.
Proof.
  apply (update_last_write_wins toy_cache_a _ _ _ _ 1 2 1 2 1 1 4 1);
    try reflexivity; try apply toy_rows_wf; try lia;
    repeat split; repeat constructor.
Defined.

(** X5: Updates of different layers commute. *)
Theorem update_layers_commute {A} (c : SliceUpdateKeyValueCache A)
    (k1 v1 k2 v2 : Tensor4 A) (l1 l2 p1 n1 p2 n2 : nat) (L B H C D : nat) :
  shape5 (k_cache c) = (L, B, H, C, D) -> shape5 (v_cache c) = (L, B, H, C, D) ->
  l1 < L -> l2 < L -> l1 <> l2 -> p1 + n1 <= C -> p2 + n2 <= C ->
  shape4 k1 = (B, H, n1, D) -> wf4 k1 -> shape4 v1 = (B, H, n1, D) -> wf4 v1 ->
  shape4 k2 = (B, H, n2, D) -> wf4 k2 -> shape4 v2 = (B, H, n2, D) -> wf4 v2 ->
  (update k2 v2 (Z.of_nat l2) [Z.of_nat p2; Z.of_nat (p2 + n2)]
          (update k1 v1 (Z.of_nat l1) [Z.of_nat p1; Z.of_nat (p1 + n1)] c).1).1
  = (update k1 v1 (Z.of_nat l1) [Z.of_nat p1; Z.of_nat (p1 + n1)]
            (update k2 v2 (Z.of_nat l2) [Z.of_nat p2; Z.of_nat (p2 + n2)] c).1).1.
Proof.
  intros Esk Esv Hl1 Hl2 Hne Hp1 Hp2 Ek1 Wk1 Ev1 Wv1 Ek2 Wk2 Ev2 Wv2.
  rewrite (update_at c k1 v1 l1 p1 n1 L B H C D H) by done.
  rewrite (update_at c k2 v2 l2 p2 n2 L B H C D H) by done. cbn [fst].
  rewrite (update_at _ k2 v2 l2 p2 n2 L B H C D H) by done.
  rewrite (update_at _ k1 v1 l1 p1 n1 L B H C D H) by done.
  cbn [fst past_seen_tokens k_cache v_cache]. unfold write_layer. cbn [shape5 data5].
  f_equal; f_equal; by apply list_alter_alter_ne.
Qed.

Lemma update_layers_commute_witness :
  (update (toy_rows (fun x => x) [7%Z]) (toy_rows (fun x => x) [6%Z]) 1 [2%Z; 3%Z]
          (update (toy_rows (fun x => x) [8%Z; 5%Z]) (toy_rows (fun x => x) [9%Z; 4%Z])
                  0 [1%Z; 3%Z] toy_cache_a).1).1
  = (update (toy_rows (fun x => x) [8%Z; 5%Z]) (toy_rows (fun x => x) [9%Z; 4%Z]) 0 [1%Z; 3%Z]
            (update (toy_rows (fun x => x) [7%Z]) (toy_rows (fun x => x) [6%Z])
                    1 [2%Z; 3%Z] toy_cache_a).1).1.
Proof.
  apply (update_layers_commute toy_cache_a _ _ _ _ 0 1 1 2 2 1 2 1 1 4 1);
    try reflexivity; try apply toy_rows_wf; lia.
Defined.

(** X6: Two updates of adjacent slices: the prefix returned by the second is the
    old rows below the first slice, then the rows of the first chunk, then
    the rows of the second. *)
Theorem update_adjacent_slices {A} (c : SliceUpdateKeyValueCache A)
    (k1 v1 k2 v2 : Tensor4 A) (l p n1 n2 : nat) (L B H C D : nat) :
  shape5 (k_cache c) = (L, B, H, C, D) -> shape5 (v_cache c) = (L, B, H, C, D) ->
  wf5 (k_cache c) -> wf5 (v_cache c) -> l < L -> p + n1 + n2 <= C ->
  shape4 k1 = (B, H, n1, D) -> wf4 k1 -> shape4 v1 = (B, H, n1, D) -> wf4 v1 ->
  shape4 k2 = (B, H, n2, D) -> wf4 k2 -> shape4 v2 = (B, H, n2, D) -> wf4 v2 ->
  exists c' k_view v_view,
    update k2 v2 (Z.of_nat l) [Z.of_nat (p + n1); Z.of_nat (p + n1 + n2)]
           (update k1 v1 (Z.of_nat l) [Z.of_nat p; Z.of_nat (p + n1)] c).1
    = (c', inr (k_view, v_view)) /\
    forall bi hi, bi < B -> hi < H ->
      chunk_at (data4 k_view) bi hi =
        take p (chunk_at (layer_data (k_cache c) l) bi hi)
        ++ chunk_at (data4 k1) bi hi ++ chunk_at (data4 k2) bi hi /\
      chunk_at (data4 v_view) bi hi =
        take p (chunk_at (layer_data (v_cache c) l) bi hi)
        ++ chunk_at (data4 v1) bi hi ++ chunk_at (data4 v2) bi hi.
Proof.
  intros Esk Esv Wk Wv Hl HpC Ek1 Wk1 Ev1 Wv1 Ek2 Wk2 Ev2 Wv2.
  assert (S1 : wf_data4 (B, H, n1, D) (data4 k1)) by (unfold wf4 in Wk1; by rewrite Ek1 in Wk1).
  assert (S2 : wf_data4 (B, H, n1, D) (data4 v1)) by (unfold wf4 in Wv1; by rewrite Ev1 in Wv1).
  assert (S3 : wf_data4 (B, H, n2, D) (data4 k2)) by (unfold wf4 in Wk2; by rewrite Ek2 in Wk2).
  assert (S4 : wf_data4 (B, H, n2, D) (data4 v2)) by (unfold wf4 in Wv2; by rewrite Ev2 in Wv2).
  rewrite (update_at c k1 v1 l p n1 L B H C D H) by (done || lia). cbn [fst].
  rewrite (update_at _ k2 v2 l (p + n1) n2 L B H C D H) by (done || lia).
  eexists _, _, _. split; [done|].
  cbn [k_cache v_cache data4].
  destruct (wf5_layer_data (k_cache c) _ _ _ _ _ l Esk Wk Hl) as [Hlk Hwk].
  destruct (wf5_layer_data (v_cache c) _ _ _ _ _ l Esv Wv Hl) as [Hlv Hwv].
  pose proof (lookup_lt_Some _ _ _ Hlk) as Hlenk.
  pose proof (lookup_lt_Some _ _ _ Hlv) as Hlenv.
  assert (Hgen : forall (buf : Tensor5 A) (s1 s2 : list (list (list (list A)))) bi hi,
            l < length (data5 buf) -> wf_data4 (B, H, C, D) (layer_data buf l) ->
            wf_data4 (B, H, n1, D) s1 -> wf_data4 (B, H, n2, D) s2 -> bi < B -> hi < H ->
            chunk_at (map (map (take (p + n1 + n2)))
                        (layer_data (write_layer (write_layer buf l H p n1 s1)
                                                 l H (p + n1) n2 s2) l)) bi hi
            = take p (chunk_at (layer_data buf l) bi hi) ++ chunk_at s1 bi hi ++ chunk_at s2 bi hi).
  { intros buf s1 s2 bi hi Hlen Hw Hs1 Hs2 Hbi Hhi.
    rewrite chunk_at_take.
    rewrite layer_data_write_layer_eq
      by (unfold write_layer; cbn [data5]; by rewrite length_alter).
    rewrite layer_data_write_layer_eq by done.
    assert (Hw1 : wf_data4 (B, H, C, D) (write_view H p n1 s1 (layer_data buf l)))
      by (apply wf_write_view; [done|done|done|lia]).
    rewrite (read_after_write_rows _ _ B H C D (p + n1) n2) by (done || lia).
    rewrite (chunk_at_write_view_inside B H C D) by done.
    rewrite app_assoc, take_app_length'.
    - by rewrite <- app_assoc.
    - destruct (wf_data4_lookup _ _ _ _ _ _ _ Hw Hbi Hhi) as (hs & ps & E1 & E2 & _ & HN & _).
      assert (Hc : chunk_at (layer_data buf l) bi hi = ps)
        by (unfold chunk_at; by rewrite E1, E2).
      rewrite length_app, length_take, Hc, HN, (length_chunk_at B H n1 D) by done. lia. }
  intros bi hi Hbi Hhi. split; by apply Hgen.
Qed.

Lemma update_adjacent_slices_witness :
  exists c' k_view v_view,
    update (toy_rows (fun x => x) [7%Z]) (toy_rows (fun x => x) [6%Z]) 0 [3%Z; 4%Z]
           (update (toy_rows (fun x => x) [8%Z; 5%Z]) (toy_rows (fun x => x) [9%Z; 4%Z])
                   0 [1%Z; 3%Z] toy_cache_a).1
    = (c', inr (k_view, v_view)) /\
    forall bi hi, bi < 1 -> hi < 1 ->
      chunk_at (data4 k_view) bi hi =
        take 1 (chunk_at (layer_data (k_cache toy_cache_a) 0) bi hi)
        ++ chunk_at (data4 (toy_rows (fun x => x) [8%Z; 5%Z])) bi hi
        ++ chunk_at (data4 (toy_rows (fun x => x) [7%Z])) bi hi /\
      chunk_at (data4 v_view) bi hi =
        take 1 (chunk_at (layer_data (v_cache toy_cache_a) 0) bi hi)
        ++ chunk_at (data4 (toy_rows (fun x => x) [9%Z; 4%Z])) bi hi
        ++ chunk_at (data4 (toy_rows (fun x => x) [6%Z])) bi hi.
Proof.
  apply (update_adjacent_slices toy_cache_a _ _ _ _ 0 1 2 1 2 1 1 4 1);
    try reflexivity; try apply toy_rows_wf; try lia;
    repeat split; repeat constructor.
Defined.

(** ** Chunks that do not cover the heads, or do not match each other *)

Lemma chunk_at_write_view_heads {A} B H C D (h b m : nat)
    (src old : list (list (list (list A)))) bi hi :
  wf_data4 (B, H, C, D) old -> bi < B -> hi < H ->
  chunk_at (write_view h b m src old) bi hi =
  if decide (hi < h) then
    take b (chunk_at old bi hi) ++ chunk_at src bi hi ++ drop (b + m) (chunk_at old bi hi)
  else chunk_at old bi hi.
Proof.
  intros Hold Hbi Hhi. rewrite chunk_at_write_view. case_decide; [|done].
  destruct (wf_data4_lookup _ _ _ _ _ _ _ Hold Hbi Hhi) as (heads & poss & E1 & E2 & _).
  assert (Hc : chunk_at old bi hi = poss) by (unfold chunk_at; by rewrite E1, E2).
  by rewrite Hc, E1, E2.
Qed.

(** X7: Chunks with fewer heads than the cache ([: k_state.shape[1]] on the head
    axis): the update returns; the heads the chunks cover are written at
    [[p, p + n)], and the remaining heads keep all their rows. *)
Theorem update_fewer_heads {A} (c : SliceUpdateKeyValueCache A)
    (k_state v_state : Tensor4 A) (l p n : nat) (L B H C D Hs : nat) :
  shape5 (k_cache c) = (L, B, H, C, D) -> shape5 (v_cache c) = (L, B, H, C, D) ->
  wf5 (k_cache c) -> wf5 (v_cache c) -> l < L -> p + n <= C -> Hs <= H ->
  shape4 k_state = (B, Hs, n, D) -> wf4 k_state ->
  shape4 v_state = (B, Hs, n, D) -> wf4 v_state ->
  exists c' views,
    update k_state v_state (Z.of_nat l) [Z.of_nat p; Z.of_nat (p + n)] c = (c', inr views) /\
    forall bi hi, bi < B -> hi < H ->
      chunk_at (layer_data (k_cache c') l) bi hi =
        (if decide (hi < Hs) then
           take p (chunk_at (layer_data (k_cache c) l) bi hi)
           ++ chunk_at (data4 k_state) bi hi
           ++ drop (p + n) (chunk_at (layer_data (k_cache c) l) bi hi)
         else chunk_at (layer_data (k_cache c) l) bi hi) /\
      chunk_at (layer_data (v_cache c') l) bi hi =
        (if decide (hi < Hs) then
           take p (chunk_at (layer_data (v_cache c) l) bi hi)
           ++ chunk_at (data4 v_state) bi hi
           ++ drop (p + n) (chunk_at (layer_data (v_cache c) l) bi hi)
         else chunk_at (layer_data (v_cache c) l) bi hi).
Proof.
  intros Esk Esv Wk Wv Hl HpC HHs Ek Wks Ev Wvs.
  rewrite (update_at c k_state v_state l p n L B H C D Hs) by done.
  eexists _, _. split; [done|]. cbn [k_cache v_cache].
  destruct (wf5_layer_data (k_cache c) _ _ _ _ _ l Esk Wk Hl) as [Hlk Hwk].
  destruct (wf5_layer_data (v_cache c) _ _ _ _ _ l Esv Wv Hl) as [Hlv Hwv].
  pose proof (lookup_lt_Some _ _ _ Hlk) as Hlenk.
  pose proof (lookup_lt_Some _ _ _ Hlv) as Hlenv.
  intros bi hi Hbi Hhi. rewrite !layer_data_write_layer_eq by done.
  split; by apply (chunk_at_write_view_heads B H C D).
Qed.

Lemma update_fewer_heads_witness :
  exists c' views,
    update (toy_rows (fun x => x) [8%Z]) (toy_rows (fun x => x) [9%Z]) 0 [1%Z; 2%Z] ex_cache_heads
    = (c', inr views) /\
    forall bi hi, bi < 1 -> hi < 2 ->
      chunk_at (layer_data (k_cache c') 0) bi hi =
        (if decide (hi < 1) then
           take 1 (chunk_at (layer_data (k_cache ex_cache_heads) 0) bi hi)
           ++ chunk_at (data4 (toy_rows (fun x => x) [8%Z])) bi hi
           ++ drop (1 + 1) (chunk_at (layer_data (k_cache ex_cache_heads) 0) bi hi)
         else chunk_at (layer_data (k_cache ex_cache_heads) 0) bi hi) /\
      chunk_at (layer_data (v_cache c') 0) bi hi =
        (if decide (hi < 1) then
           take 1 (chunk_at (layer_data (v_cache ex_cache_heads) 0) bi hi)
           ++ chunk_at (data4 (toy_rows (fun x => x) [9%Z])) bi hi
           ++ drop (1 + 1) (chunk_at (layer_data (v_cache ex_cache_heads) 0) bi hi)
         else chunk_at (layer_data (v_cache ex_cache_heads) 0) bi hi).
Proof.
  apply (update_fewer_heads ex_cache_heads _ _ 0 1 1 1 1 2 3 1 1);
    try reflexivity; try apply toy_rows_wf; try lia;
    repeat split; repeat constructor.
Defined.

(** X8: [update] is not atomic: when the key chunk fits and the value chunk has
    another number of positions (and not a single one, which would be
    broadcast), the key buffer is written, then the write of the value buffer
    raises; the value buffer and the counter are as before. *)
Theorem update_value_mismatch_after_key_write {A} (c : SliceUpdateKeyValueCache A)
    (k_state v_state : Tensor4 A) (l p n : nat) (L B H C D : nat) :
  shape5 (k_cache c) = (L, B, H, C, D) -> shape5 (v_cache c) = (L, B, H, C, D) ->
  l < L -> p + n <= C ->
  shape4 k_state = (B, H, n, D) -> wf4 k_state ->
  positions v_state <> n -> positions v_state <> 1 ->
  update k_state v_state (Z.of_nat l) [Z.of_nat p; Z.of_nat (p + n)] c =
  (mkCache (past_seen_tokens c) (write_layer (k_cache c) l H p n (data4 k_state)) (v_cache c),
   inl RuntimeError).
Proof.
  intros Esk Esv Hl HpC Ek Wk Hn1 Hn2.
  rewrite update_unfold, Ek. cbn [fst snd].
  rewrite (setitem_slice_at (k_cache c) k_state l p n L B H C D H) by done.
  unfold setitem_slice at 1.
  rewrite Esv, (index_int_of_nat L l Hl).
  rewrite (slice_bound_inside C (Z.of_nat p)), (slice_bound_inside C (Z.of_nat (p + n))) by lia.
  replace (Z.to_nat (Z.of_nat (p + n)) - Z.to_nat (Z.of_nat p)) with n by lia.
  destruct (shape4 v_state) as [[[Bv Hv] nv] Dv] eqn:Ev.
  unfold positions in *. rewrite Ev in *. cbn [fst snd] in *.
  by rewrite broadcastable_positions_false.
Qed.

Lemma update_value_mismatch_after_key_write_witness :
  update ex_k1 ex_v2 0 [1%Z; 2%Z] ex_cache =
  (mkCache 3%Z (mkTensor5 (1, 1, 1, 2, 1) [[[[[1%Z]; [7%Z]]]]]) (v_cache ex_cache),
   inl RuntimeError).
Proof.
  apply (update_value_mismatch_after_key_write ex_cache ex_k1 ex_v2 0 1 1 1 1 1 2 1);
    try reflexivity; try lia; try discriminate.
  repeat split; repeat constructor.
Defined.

(** ** What the forward pass keeps, whatever its outcome *)

Section ForwardFacts.
Context {A : Type} {T : Transformer A}.

Lemma attention_forward_state (l : nat) (h : Hidden) (mask : Tensor4 mval) (pos : list Z)
    (c : SliceUpdateKeyValueCache A) :
  (attention_forward l h mask pos c).1 =
  (update (key_chunk l h pos) (value_chunk l h) (Z.of_nat l)
          (slice_indices_of mask (q_len_of h)) c).1.
Proof.
  rewrite attention_forward_unfold.
  by destruct (update _ _ _ _ c) as [c' [e|[kv vv]]].
Qed.

Lemma decoder_layers_cons_state (mask : Tensor4 mval) (pos : list Z) (l : nat)
    (layers : list nat) (h : Hidden) (c : SliceUpdateKeyValueCache A) :
  (decoder_layers (l :: layers) h mask pos c).1 =
  match attention_forward l h mask pos c with
  | (c1, inr attn_output) =>
      (decoder_layers layers (decoder_layer_rest l h attn_output) mask pos c1).1
  | (c1, inl _) => c1
  end.
Proof.
  simpl. unfold bind at 1. by destruct (attention_forward l h mask pos c) as [c1 [e|a]].
Qed.

Lemma decoder_layers_keeps (mask : Tensor4 mval) (pos : list Z) (layers : list nat) :
  forall (h : Hidden) (c : SliceUpdateKeyValueCache A),
    past_seen_tokens (decoder_layers layers h mask pos c).1 = past_seen_tokens c /\
    shape5 (k_cache (decoder_layers layers h mask pos c).1) = shape5 (k_cache c) /\
    shape5 (v_cache (decoder_layers layers h mask pos c).1) = shape5 (v_cache c).
Proof.
  induction layers as [|l layers IH]; intros h c; [done|].
  rewrite decoder_layers_cons_state.
  pose proof (attention_forward_state l h mask pos c) as Hst.
  pose proof (update_keeps c (key_chunk l h pos) (value_chunk l h) (Z.of_nat l)
                (slice_indices_of mask (q_len_of h))) as (K1 & K2 & K3).
  rewrite <- Hst in K1, K2, K3.
  destruct (attention_forward l h mask pos c) as [c1 [e|a]]; [done|].
  simpl in K1, K2, K3.
  destruct (IH (decoder_layer_rest l h a) c1) as (I1 & I2 & I3).
  split_and!; congruence.
Qed.

Lemma decoder_layers_keeps_wf (mask : Tensor4 mval) (pos : list Z) (layers : list nat) :
  (forall l h pos, wf4 (key_chunk l h pos)) -> (forall l h, wf4 (value_chunk l h)) ->
  forall (h : Hidden) (c : SliceUpdateKeyValueCache A),
    wf5 (k_cache c) -> wf5 (v_cache c) ->
    wf5 (k_cache (decoder_layers layers h mask pos c).1) /\
    wf5 (v_cache (decoder_layers layers h mask pos c).1).
Proof.
  intros Hk Hv. induction layers as [|l layers IH]; intros h c Wk Wv; [done|].
  rewrite decoder_layers_cons_state.
  pose proof (attention_forward_state l h mask pos c) as Hst.
  pose proof (update_keeps_wf c (key_chunk l h pos) (value_chunk l h) (Z.of_nat l)
                (slice_indices_of mask (q_len_of h)) Wk Wv (Hk _ _ _) (Hv _ _)) as (K1 & K2).
  rewrite <- Hst in K1, K2.
  destruct (attention_forward l h mask pos c) as [c1 [e|a]]; [done|].
  by apply IH.
Qed.

Lemma forward_state (input_ids : list Z) (mask : Tensor4 mval)
    (c : SliceUpdateKeyValueCache A) :
  (forward input_ids mask c).1 =
  (decoder_layers (seq 0 num_hidden_layers) (embed_tokens input_ids) mask
     (position_ids_of (Z.of_nat (last_dim mask) - Z.of_nat (length input_ids))
                      (length input_ids))
     (set_past_seen_tokens (Z.of_nat (last_dim mask) - Z.of_nat (length input_ids)) c)).1.
Proof.
  unfold forward, model_call, bind, get, put, ret, get_seq_length.
  cbn [past_seen_tokens set_past_seen_tokens].
  by destruct (decoder_layers _ _ _ _ _) as [c' [e|h']].
Qed.

(** X9: Whatever the transformer does and whether or not the call raises, the
    cache after [forward] has its counter at the width of the mask minus the
    number of input tokens, and buffers of the shape they had: the forward
    pass never resizes the cache. *)
Theorem forward_sets_counter_keeps_shape (input_ids : list Z) (causal_mask : Tensor4 mval)
    (c : SliceUpdateKeyValueCache A) :
  get_seq_length (forward input_ids causal_mask c).1
    = (Z.of_nat (last_dim causal_mask) - Z.of_nat (length input_ids))%Z /\
  shape5 (k_cache (forward input_ids causal_mask c).1) = shape5 (k_cache c) /\
  shape5 (v_cache (forward input_ids causal_mask c).1) = shape5 (v_cache c).
Proof.
  rewrite forward_state. unfold get_seq_length.
  destruct (decoder_layers_keeps causal_mask
              (position_ids_of (Z.of_nat (last_dim causal_mask) - Z.of_nat (length input_ids))
                               (length input_ids))
              (seq 0 num_hidden_layers) (embed_tokens input_ids)
              (set_past_seen_tokens
                 (Z.of_nat (last_dim causal_mask) - Z.of_nat (length input_ids)) c))
    as (K1 & K2 & K3).
  by rewrite K1, K2, K3.
Qed.

(** With a transformer whose chunks are well-formed tensors, [forward] keeps
    the buffers well-formed, also when it raises. *)
Theorem forward_keeps_well_formed (input_ids : list Z) (causal_mask : Tensor4 mval)
    (c : SliceUpdateKeyValueCache A) :
  (forall l h pos, wf4 (key_chunk l h pos)) -> (forall l h, wf4 (value_chunk l h)) ->
  wf5 (k_cache c) -> wf5 (v_cache c) ->
  wf5 (k_cache (forward input_ids causal_mask c).1) /\
  wf5 (v_cache (forward input_ids causal_mask c).1).
Proof.
  intros Hk Hv Wk Wv. rewrite forward_state.
  by apply decoder_layers_keeps_wf.
Qed.

(** A write whose begin index is negative because the mask is narrower than
    the chunk: the clamped slice is empty, so nothing is written. *)
Lemma setitem_slice_negative_begin (buf : Tensor5 A) layer_idx hs (e n : nat)
    (src : Tensor4 A) :
  wf4 src -> positions src = n -> e < n ->
  setitem_slice buf layer_idx hs (Z.of_nat e - Z.of_nat n) (Z.of_nat e) src = inr buf \/
  exists err, setitem_slice buf layer_idx hs (Z.of_nat e - Z.of_nat n) (Z.of_nat e) src = inl err.
Proof.
  intros Hwf Hn He. unfold setitem_slice.
  destruct (shape5 buf) as [[[[L B] H] C] D] eqn:Es.
  destruct (index_int L layer_idx) as [l|]; [|right; by eexists].
  destruct (broadcastable _ _) eqn:Hb; [|right; by eexists].
  left. destruct (shape4 src) as [[[Bs Hs] ns] Ds] eqn:Ess.
  unfold positions in Hn. rewrite Ess in Hn. cbn [fst snd] in Hn. subst ns.
  pose proof (broadcastable_positions _ _ _ _ _ _ _ _ Hb) as Hpos.
  assert (Hm : slice_bound C (Z.of_nat e) - slice_bound C (Z.of_nat e - Z.of_nat n) = 0).
  { rewrite slice_bound_of_nat in *. unfold slice_bound in *.
    destruct (Z.of_nat e - Z.of_nat n <? 0)%Z eqn:E; lia. }
  rewrite Hm in *.
  assert (Hwf' : wf_data4 (B, slice_bound H (Z.of_nat hs), 0, D)
                   (expand4 (B, slice_bound H (Z.of_nat hs), 0, D) (data4 src))).
  { eapply wf_expand4; [|exact Hb]. unfold wf4 in Hwf. by rewrite Ess in Hwf. }
  unfold write_layer. rewrite list_alter_id.
  - by destruct buf.
  - intros dst. apply write_view_empty. intros bi hi. by eapply chunk_at_empty.
Qed.

(** X10: An attention step whose mask is narrower than its chunk (so that
    [end_step - q_len] is negative) never writes to the cache: the negative
    begin index does not wrap around to the end of the buffer. *)
Theorem attention_narrow_mask_writes_nothing (layer_idx : nat) (hidden_states : Hidden)
    (attention_mask : Tensor4 mval) (position_ids : list Z)
    (c : SliceUpdateKeyValueCache A) :
  wf4 (key_chunk layer_idx hidden_states position_ids) ->
  wf4 (value_chunk layer_idx hidden_states) ->
  positions (key_chunk layer_idx hidden_states position_ids) = q_len_of hidden_states ->
  positions (value_chunk layer_idx hidden_states) = q_len_of hidden_states ->
  last_dim attention_mask < q_len_of hidden_states ->
  (attention_forward layer_idx hidden_states attention_mask position_ids c).1 = c.
Proof.
  intros Wk Wv Pk Pv Hnarrow.
  rewrite attention_forward_state. unfold slice_indices_of. rewrite update_unfold.
  destruct (setitem_slice_negative_begin (k_cache c) (Z.of_nat layer_idx)
              (shape4 (key_chunk layer_idx hidden_states position_ids)).1.1.2
              (last_dim attention_mask) (q_len_of hidden_states) _ Wk Pk Hnarrow)
    as [-> | [e ->]]; [|done].
  destruct (setitem_slice_negative_begin (v_cache c) (Z.of_nat layer_idx)
              (shape4 (value_chunk layer_idx hidden_states)).1.1.2
              (last_dim attention_mask) (q_len_of hidden_states) _ Wv Pv Hnarrow)
    as [-> | [e ->]]; [|by destruct c].
  cbv zeta.
  destruct (getitem_prefix (k_cache c) _ _); [by destruct c|].
  destruct (getitem_prefix (v_cache c) _ _); by destruct c.
Qed.
End ForwardFacts.

Lemma forward_keeps_well_formed_witness :
  wf5 (k_cache (forward (T := toy_transformer) [5; 8; 2]%Z (causal_mask [5; 8; 2]%Z 2)
                        toy_cache_a).1) /\
  wf5 (v_cache (forward (T := toy_transformer) [5; 8; 2]%Z (causal_mask [5; 8; 2]%Z 2)
                        toy_cache_a).1).
Proof.
  apply (forward_keeps_well_formed (T := toy_transformer)).
  - intros l h pos. apply toy_rows_wf.
  - intros l h. apply toy_rows_wf.
  - repeat split; repeat constructor.
  - repeat split; repeat constructor.
Defined.

Lemma attention_narrow_mask_writes_nothing_witness :
  (attention_forward (T := toy_transformer) 0 [5; 8; 2]%Z (causal_mask [8]%Z 1) [0; 1; 2]%Z
                     toy_cache_a).1 = toy_cache_a.
Proof.
  apply (attention_narrow_mask_writes_nothing (T := toy_transformer)).
  - apply toy_rows_wf.
  - apply toy_rows_wf.
  - reflexivity.
  - reflexivity.
  - vm_compute. lia.
Defined.

(** ** Beyond the capacity *)

Section CapacityFacts.
Context {A : Type} {T : Transformer A}.
Hypothesis key_chunk_ok :
  forall l h pos, wf4 (key_chunk l h pos) /\ positions (key_chunk l h pos) = q_len_of h.
Hypothesis value_chunk_ok :
  forall l h, wf4 (value_chunk l h) /\ positions (value_chunk l h) = q_len_of h.

Lemma positions_eq (t : Tensor4 A) Bs Hs n Ds :
  shape4 t = (Bs, Hs, n, Ds) -> positions t = n.
Proof. intros E. unfold positions. by rewrite E. Qed.

Lemma attention_beyond_capacity (l : nat) (h : Hidden) (mask : Tensor4 mval) (pos : list Z)
    (c : SliceUpdateKeyValueCache A) :
  capacity (k_cache c) < last_dim mask -> capacity (v_cache c) < last_dim mask ->
  (attention_forward l h mask pos c).1 = c.
Proof.
  intros Hk Hv. rewrite attention_forward_state. unfold slice_indices_of.
  rewrite update_unfold.
  destruct (key_chunk_ok l h pos) as [Wk Pk]. destruct (value_chunk_ok l h) as [Wv Pv].
  destruct (shape5 (k_cache c)) as [[[[Lk Bk] Hk'] Ck] Dk] eqn:Esk.
  destruct (shape5 (v_cache c)) as [[[[Lv Bv] Hv'] Cv] Dv] eqn:Esv.
  destruct (shape4 (key_chunk l h pos)) as [[[Bs Hs] n] Ds] eqn:Ek.
  destruct (shape4 (value_chunk l h)) as [[[Bs' Hs'] n'] Ds'] eqn:Ev.
  unfold capacity in Hk, Hv. rewrite ?Esk, ?Esv in *. cbn [fst snd] in *.
  rewrite (positions_eq _ _ _ _ _ Ek) in Pk. rewrite (positions_eq _ _ _ _ _ Ev) in Pv.
  destruct (setitem_slice_overflow (k_cache c) (Z.of_nat l)
              (Z.of_nat (last_dim mask) - Z.of_nat (q_len_of h)) (Z.of_nat (last_dim mask))
              (key_chunk l h pos) _ _ _ _ _ _ _ _ _ Esk Ek Wk) as [[-> _]|[e ->]];
    [lia | lia | | done].
  destruct (setitem_slice_overflow (v_cache c) (Z.of_nat l)
              (Z.of_nat (last_dim mask) - Z.of_nat (q_len_of h)) (Z.of_nat (last_dim mask))
              (value_chunk l h) _ _ _ _ _ _ _ _ _ Esv Ev Wv) as [[-> _]|[e ->]];
    [lia | lia | | by destruct c].
  cbv zeta.
  destruct (getitem_prefix (k_cache c) _ _); [by destruct c|].
  destruct (getitem_prefix (v_cache c) _ _); by destruct c.
Qed.

Lemma decoder_layers_beyond_capacity (mask : Tensor4 mval) (pos : list Z) (layers : list nat) :
  forall (h : Hidden) (c : SliceUpdateKeyValueCache A),
    capacity (k_cache c) < last_dim mask -> capacity (v_cache c) < last_dim mask ->
    (decoder_layers layers h mask pos c).1 = c.
Proof.
  induction layers as [|l layers IH]; intros h c Hk Hv; [done|].
  rewrite decoder_layers_cons_state.
  pose proof (attention_beyond_capacity l h mask pos c Hk Hv) as Hst.
  destruct (attention_forward l h mask pos c) as [c1 [e|a]]; simpl in Hst; subst c1; [done|].
  by apply IH.
Qed.

(** X11: A forward pass whose mask is wider than the capacity of the cache writes
    nothing, in any layer and whether or not it raises: the cache after the
    call is the cache before it with the counter set.  A full cache is neither
    overwritten nor wrapped around. *)
Theorem forward_beyond_capacity_writes_nothing (input_ids : list Z)
    (causal_mask : Tensor4 mval) (c : SliceUpdateKeyValueCache A) :
  capacity (k_cache c) < last_dim causal_mask ->
  capacity (v_cache c) < last_dim causal_mask ->
  (forward input_ids causal_mask c).1 =
  set_past_seen_tokens (Z.of_nat (last_dim causal_mask) - Z.of_nat (length input_ids)) c.
Proof.
  intros Hk Hv. rewrite forward_state.
  by apply decoder_layers_beyond_capacity.
Qed.
End CapacityFacts.

Lemma forward_beyond_capacity_writes_nothing_witness :
  (forward (T := toy_transformer) [8]%Z (causal_mask [8]%Z 4) toy_cache_a).1 =
  set_past_seen_tokens 4%Z toy_cache_a.
Proof.
  apply (forward_beyond_capacity_writes_nothing (T := toy_transformer)).
  - intros l h pos. split; [apply toy_rows_wf | reflexivity].
  - intros l h. split; [apply toy_rows_wf | reflexivity].
  - vm_compute. lia.
  - vm_compute. lia.
Defined.

(** ** The mask and the selection, on every input *)

Lemma wf4_causal_mask (input_ids : list Z) (p : nat) : wf4 (causal_mask input_ids p).
Proof.
  unfold wf4, causal_mask, astype_float16, np_triu, np_full. simpl.
  split; [done|]. repeat constructor.
  - by rewrite length_imap, length_replicate.
  - apply Forall_lookup_2. intros i row. rewrite list_lookup_imap.
    destruct (replicate _ _ !! i) as [r|] eqn:E; simpl; [|done]. intros [= <-].
    apply lookup_replicate_1 in E as [-> _].
    by rewrite length_imap, length_replicate.
Qed.

(** X12: The mask of [inference], entry by entry, for every token row and every
    number of past tokens: it is a well-formed tensor; an entry is -inf
    exactly when there are no past tokens and its column is beyond its row,
    and 0 otherwise; there is no entry outside the
    [len x (num_past_tokens + len)] rectangle. *)
Theorem causal_mask_entries (input_ids : list Z) (num_past : nat) (i j : nat) :
  wf4 (causal_mask input_ids num_past) /\
  (i < length input_ids -> j < num_past + length input_ids ->
     exists x, mask_entry (causal_mask input_ids num_past) i j = Some x /\
               (x = NegInf <-> num_past = 0 /\ i < j)) /\
  (length input_ids <= i \/ num_past + length input_ids <= j ->
     mask_entry (causal_mask input_ids num_past) i j = None).
Proof.
  split; [apply wf4_causal_mask|]. split.
  - intros Hi Hj. eexists. split; [by apply mask_entry_causal_mask|].
    case_decide.
    + destruct num_past; simpl; split; (done || lia || tauto).
    + split; [done|lia].
  - intros Hout. unfold mask_entry, causal_mask, astype_float16, np_triu, np_full. simpl.
    rewrite list_lookup_imap.
    destruct (replicate _ _ !! i) as [r|] eqn:E; simpl; [|done].
    apply lookup_replicate_1 in E as [-> Hi].
    rewrite list_lookup_imap.
    destruct Hout as [Hout|Hout]; [lia|].
    by rewrite (proj1 (lookup_replicate_None _ _ _) Hout).
Qed.

Lemma argmax_from_lt (v : list Z) (best_i : nat) (best : Z) (i : nat) :
  best_i < i -> argmax_from best_i best i v < i + length v.
Proof.
  revert best_i best i. induction v as [|x v IH]; intros best_i best i Hlt; simpl; [lia|].
  destruct (best <? x)%Z.
  - specialize (IH i x (S i)). lia.
  - specialize (IH best_i best (S i)). lia.
Qed.

(** X13: The outcomes of [sample]: a token is an index into the score vector of
    the last position of the first batch entry; IndexError means that there
    is no batch entry or that the first one has no position; ValueError means
    that the last position has no scores; nothing else is raised. *)
Theorem sample_outcomes (logits : Logits) :
  match sample logits with
  | inr t =>
      exists logits0 scores,
        logits !! 0 = Some logits0 /\ last logits0 = Some scores /\
        (0 <= t < Z.of_nat (length scores))%Z
  | inl IndexError => logits = [] \/ logits !! 0 = Some []
  | inl ValueError => exists logits0, logits !! 0 = Some logits0 /\ last logits0 = Some []
  | inl RuntimeError => False
  end.
Proof.
  unfold sample. destruct logits as [|logits0 rest]; [by left|].
  destruct (last logits0) as [scores|] eqn:El.
  - destruct scores as [|x v]; simpl.
    + by exists logits0.
    + exists logits0, (x :: v). split; [done|]. split; [done|].
      pose proof (argmax_from_lt v 0 x 1). simpl. lia.
  - right. simpl. f_equal. by apply last_None.
Qed.

(** ** The loop of [generate], whatever the limit *)

Section LoopFacts.
Variable State : Type.
Variable make_state : State.
Variable predict : list Z -> Tensor4 mval -> M State Logits.

(** A normal return of the loop: the generator was advanced once per
    appended token, and the loop stopped at the stop token or at the
    limit. *)
Lemma generate_loop_trace (eos_token_id max_new_tokens : Z) (fuel : nat) :
  forall (i : Z) (g : Generator State) (extend_tokens : list Z) g' extend_tokens',
    generate_loop State predict fuel eos_token_id max_new_tokens i g extend_tokens
      = Some (inr (g', extend_tokens')) ->
    exists k,
      advance State predict k g = inr g' /\
      length extend_tokens' = length extend_tokens + k /\
      (token g' = eos_token_id \/ (i + Z.of_nat k)%Z = max_new_tokens).
Proof.
  induction fuel as [|fuel IH]; intros i g ext g' ext'; [done|]. simpl.
  destruct ((token g =? eos_token_id) || (i =? max_new_tokens))%Z eqn:Estop.
  - intros [= <- <-]. exists 0. split; [done|]. split; [lia|].
    apply orb_true_iff in Estop as [E|E]; [left|right]; lia.
  - destruct (next State predict g) as [e|g1] eqn:Enext; [done|]. intros Hloop.
    destruct (IH _ _ _ _ _ Hloop) as (k & Hadv & Hlen & Hstop).
    exists (S k). split; [simpl; by rewrite Enext|].
    rewrite length_app in Hlen. simpl in Hlen. split; [lia|].
    destruct Hstop as [Hstop|Hstop]; [by left|right; lia].
Qed.

(** X14: When [generate] returns, the counter of the driver is the length of the
    prompt plus the number of tokens it returns: every returned token has
    been fed to the model, and the token at which the loop stopped (the stop
    token, or the one past the limit) has not. *)
Theorem generate_counter_at_return (fuel : nat) (prompt_tokens : list Z)
    (eos_token_id max_new_tokens : Z) (g : Generator State) (extend_tokens : list Z) :
  generate_tokens State make_state predict fuel prompt_tokens eos_token_id max_new_tokens
    = Some (inr (g, extend_tokens)) ->
  num_past_tokens g = length prompt_tokens + length extend_tokens.
Proof.
  unfold generate_tokens.
  destruct (get_next_token State make_state predict prompt_tokens) as [e|g0] eqn:Estart;
    [done|].
  intros Hloop.
  destruct (generate_loop_trace _ _ _ _ _ _ _ _ Hloop) as (k & Hadv & Hlen & _).
  apply advance_num_past_tokens in Hadv.
  apply get_next_token_step in Estart as [Hstart _].
  simpl in Hlen. lia.
Qed.

(** X15: A negative [max_new_tokens] is no limit at all: the index of the loop
    never equals it, so a normal return happens at the stop token only. *)
Theorem generate_negative_limit (fuel : nat) (prompt_tokens : list Z)
    (eos_token_id max_new_tokens : Z) (g : Generator State) (extend_tokens : list Z) :
  (max_new_tokens < 0)%Z ->
  generate_tokens State make_state predict fuel prompt_tokens eos_token_id max_new_tokens
    = Some (inr (g, extend_tokens)) ->
  token g = eos_token_id.
Proof.
  intros Hneg. unfold generate_tokens.
  destruct (get_next_token State make_state predict prompt_tokens) as [e|g0]; [done|].
  intros Hloop.
  destruct (generate_loop_trace _ _ _ _ _ _ _ _ Hloop) as (k & _ & _ & [Hstop|Hstop]);
    [done|lia].
Qed.

Lemma generate_loop_diverges (eos_token_id max_new_tokens : Z) (fuel : nat) :
  forall (i : Z) (g : Generator State) (extend_tokens : list Z),
    (max_new_tokens < i)%Z ->
    (forall k, exists gk, advance State predict k g = inr gk /\ token gk <> eos_token_id) ->
    generate_loop State predict fuel eos_token_id max_new_tokens i g extend_tokens = None.
Proof.
  induction fuel as [|fuel IH]; intros i g ext Hi Hall; [done|]. simpl.
  destruct (Hall 0) as (g0' & Hg0 & Htok). simpl in Hg0. injection Hg0 as <-.
  replace ((token g =? eos_token_id) || (i =? max_new_tokens))%Z with false
    by (symmetry; apply orb_false_iff; lia).
  destruct (Hall 1) as (g1 & Hg1 & _). simpl in Hg1.
  destruct (next State predict g) as [e|g1'] eqn:Enext; [done|]. injection Hg1 as ->.
  apply IH; [lia|].
  intros k. destruct (Hall (S k)) as (gk & Hgk & Htk). simpl in Hgk. rewrite Enext in Hgk.
  by exists gk.
Qed.

(** X16: With a negative [max_new_tokens] and a model that never raises and never
    selects the stop token, the loop of [generate] does not end: no amount of
    fuel gives a result. *)
Theorem generate_negative_limit_diverges (prompt_tokens : list Z)
    (eos_token_id max_new_tokens : Z) (g0 : Generator State) :
  (max_new_tokens < 0)%Z ->
  get_next_token State make_state predict prompt_tokens = inr g0 ->
  (forall k, exists gk, advance State predict k g0 = inr gk /\ token gk <> eos_token_id) ->
  forall fuel,
    generate_tokens State make_state predict fuel prompt_tokens eos_token_id max_new_tokens
      = None.
Proof.
  intros Hneg Hstart Hall fuel. unfold generate_tokens. rewrite Hstart.
  apply generate_loop_diverges; [lia|done].
Qed.
End LoopFacts.

Lemma generate_counter_at_return_witness :
  num_past_tokens (mkGenerator 3 1%Z 5) = length [5; 8; 2]%Z + length [0; 0]%Z.
Proof.
  apply (generate_counter_at_return nat 0 counting_predict 5 [5; 8; 2]%Z 1 7
           (mkGenerator 3 1%Z 5) [0; 0]%Z).
  reflexivity.
Defined.

Lemma generate_negative_limit_witness :
  token (mkGenerator 3 1%Z 5) = 1%Z.
Proof.
  apply (generate_negative_limit nat 0 counting_predict 5 [5; 8; 2]%Z 1 (-1)
           (mkGenerator 3 1%Z 5) [0; 0]%Z).
  - lia.
  - reflexivity.
Defined.

Lemma constant_predict_advance (k n : nat) :
  advance unit constant_predict k (mkGenerator tt 1%Z n) = inr (mkGenerator tt 1%Z (n + k)).
Proof.
  revert n. induction k as [|k IH]; intros n.
  - simpl. do 2 f_equal. lia.
  - simpl. change (next unit constant_predict (mkGenerator tt 1%Z n))
      with (@inr exn _ (mkGenerator tt 1%Z (n + 1))).
    rewrite IH. do 2 f_equal. lia.
Qed.

Lemma generate_negative_limit_diverges_witness :
  generate_tokens unit tt constant_predict 100 [5; 8; 2]%Z 0 (-1) = None.
Proof.
  apply (generate_negative_limit_diverges unit tt constant_predict [5; 8; 2]%Z 0 (-1)
           (mkGenerator tt 1%Z 3)).
  - lia.
  - reflexivity.
  - intros k. eexists. split; [apply constant_predict_advance|]. simpl. lia.
Defined.

(** ** A session on a fresh cache *)

Lemma chunk_at_zeros5 {A} (zero : A) (L B H C D l bi hi : nat) :
  l < L -> bi < B -> hi < H ->
  chunk_at (layer_data (zeros5 zero L B H C D) l) bi hi = replicate C (replicate D zero).
Proof.
  intros Hl Hbi Hhi. unfold layer_data, zeros5, chunk_at. cbn [data5].
  rewrite lookup_replicate_2 by done. simpl.
  rewrite lookup_replicate_2 by done.
  by rewrite lookup_replicate_2 by done.
Qed.

Lemma drop_write_positions {X} (p n : nat) (rows poss : list (list X)) :
  length rows = n -> p <= length poss ->
  drop (p + n) (take p poss ++ rows ++ drop (p + n) poss) = drop (p + n) poss.
Proof.
  intros Hr Hp. rewrite app_assoc. apply drop_app_length'.
  rewrite length_app, length_take. lia.
Qed.

Section SessionFacts.
Context {A : Type} {T : Transformer A}.
Variable zero : A.
Variables B H C D : nat.
Context {WS : WellShaped T B H D}.

Local Abbreviation L := (@num_hidden_layers A T).

Local Abbreviation session_inv := (session_inv zero B H C D).

Lemma session_inv_fresh :
  session_inv (mkCache 0%Z (zeros5 zero L B H C D) (zeros5 zero L B H C D)) 0.
Proof.
  unfold session_inv, unwritten_from. cbn [k_cache v_cache zeros5 shape5].
  split_and!; try done; try apply wf5_zeros5.
  - intros l bi hi Hl Hbi Hhi.
    change (mkTensor5 _ _) with (zeros5 zero L B H C D).
    by rewrite chunk_at_zeros5, drop_0, Nat.sub_0_r by done.
  - intros l bi hi Hl Hbi Hhi.
    change (mkTensor5 _ _) with (zeros5 zero L B H C D).
    by rewrite chunk_at_zeros5, drop_0, Nat.sub_0_r by done.
Qed.

Lemma session_inv_step (c c' : SliceUpdateKeyValueCache A) (input_ids : list Z) (p : nat)
    (logits : Logits) :
  session_inv c p -> p + length input_ids <= C ->
  inference (SliceUpdateKeyValueCache A) forward input_ids p c = (c', inr logits) ->
  session_inv c' (p + length input_ids).
Proof.
  intros (Esk & Esv & Wk & Wv & Uk & Uv) HpC Hinf.
  set (n := length input_ids) in *.
  set (mask := causal_mask input_ids p).
  set (c1 := set_past_seen_tokens (Z.of_nat p) c).
  set (pos := position_ids_of (Z.of_nat p) n).
  destruct (decoder_layers_spec B H C D mask pos p n eq_refl HpC (seq 0 L)
              (embed_tokens input_ids) c1)
    as (c2 & h' & Hrun & _ & Esk' & Esv' & Wk' & Wv' & _ & Hwritten); try done.
  { apply NoDup_seq. }
  { intros l Hl. apply elem_of_seq in Hl. lia. }
  { apply embed_tokens_q_len. }
  assert (c' = c2) as ->.
  { unfold inference in Hinf. rewrite bind_ret_r in Hinf.
    unfold forward, model_call, bind, get, put, ret, get_seq_length in Hinf.
    replace (Z.of_nat (last_dim (causal_mask input_ids p)) - Z.of_nat (length input_ids))%Z
      with (Z.of_nat p) in Hinf by (unfold last_dim; rewrite shape4_causal_mask; simpl; lia).
    fold c1 in Hinf. cbn [past_seen_tokens set_past_seen_tokens c1] in Hinf.
    fold n mask pos in Hinf. rewrite Hrun in Hinf. by injection Hinf as <-. }
  change (k_cache c1) with (k_cache c) in Hwritten.
  change (v_cache c1) with (v_cache c) in Hwritten.
  unfold session_inv. split_and!; try done.
  - unfold unwritten_from in *. rewrite Esk'. rewrite Esk in Uk.
    intros l bi hi Hl Hbi Hhi.
    destruct (Hwritten l) as (hl & Hq & Hk & _); [apply elem_of_seq; lia|].
    destruct (wf5_layer_data (k_cache c) _ _ _ _ _ l Esk Wk Hl) as [_ Hwk].
    assert (Hsk : wf_data4 (B, H, n, D) (data4 (key_chunk l hl pos))).
    { pose proof (key_chunk_wf l hl pos) as Hw. unfold wf4 in Hw.
      by rewrite key_chunk_shape, Hq in Hw. }
    rewrite Hk, (chunk_at_write_view_inside B H C D) by done.
    rewrite drop_write_positions.
    + rewrite <- (drop_drop _ n p), (Uk l bi hi) by done.
      rewrite drop_replicate. f_equal. lia.
    + by apply (length_chunk_at B H n D).
    + rewrite (length_chunk_at B H C D) by done. lia.
  - unfold unwritten_from in *. rewrite Esv'. rewrite Esv in Uv.
    intros l bi hi Hl Hbi Hhi.
    destruct (Hwritten l) as (hl & Hq & _ & Hv); [apply elem_of_seq; lia|].
    destruct (wf5_layer_data (v_cache c) _ _ _ _ _ l Esv Wv Hl) as [_ Hwv].
    assert (Hsv : wf_data4 (B, H, n, D) (data4 (value_chunk l hl))).
    { pose proof (value_chunk_wf l hl) as Hw. unfold wf4 in Hw.
      by rewrite value_chunk_shape, Hq in Hw. }
    rewrite Hv, (chunk_at_write_view_inside B H C D) by done.
    rewrite drop_write_positions.
    + rewrite <- (drop_drop _ n p), (Uv l bi hi) by done.
      rewrite drop_replicate. f_equal. lia.
    + by apply (length_chunk_at B H n D).
    + rewrite (length_chunk_at B H C D) by done. lia.
Qed.

Lemma session_inv_advance (k : nat) :
  forall g g' : Generator (SliceUpdateKeyValueCache A),
    session_inv (kv_cache_state g) (num_past_tokens g) ->
    num_past_tokens g + k <= C ->
    advance (SliceUpdateKeyValueCache A) forward k g = inr g' ->
    session_inv (kv_cache_state g') (num_past_tokens g').
Proof.
  induction k as [|k IH]; intros g g' Hinv HC; simpl.
  - by intros [= <-].
  - destruct (next (SliceUpdateKeyValueCache A) forward g) as [e|g1] eqn:Enext; [done|].
    intros Hadv. apply (IH g1 g'); [| |done].
    + destruct (next_step _ _ _ _ Enext) as (Hnum & logits & Hinf).
      rewrite Hnum. eapply session_inv_step; [exact Hinv| |exact Hinf].
      simpl. lia.
    + apply next_step in Enext as [Hnum _]. simpl in Hnum. lia.
Qed.

(** X17: In a session started on a zero-filled cache, as long as the prompt and
    the tokens fed so far fit the capacity, the buffers keep their shape and
    stay well-formed, and every row at or beyond the occupancy counter of the
    driver is still a zero row: nothing is ever written ahead of the
    counter. *)
Theorem fresh_session_unwritten_tail (prompt_tokens : list Z) (k : nat)
    (g0 g : Generator (SliceUpdateKeyValueCache A)) :
  get_next_token (SliceUpdateKeyValueCache A)
    (mkCache 0%Z (zeros5 zero L B H C D) (zeros5 zero L B H C D)) forward prompt_tokens
    = inr g0 ->
  advance (SliceUpdateKeyValueCache A) forward k g0 = inr g ->
  length prompt_tokens + k <= C ->
  shape5 (k_cache (kv_cache_state g)) = (L, B, H, C, D) /\
  shape5 (v_cache (kv_cache_state g)) = (L, B, H, C, D) /\
  wf5 (k_cache (kv_cache_state g)) /\ wf5 (v_cache (kv_cache_state g)) /\
  unwritten_from zero (length prompt_tokens + k) (k_cache (kv_cache_state g)) /\
  unwritten_from zero (length prompt_tokens + k) (v_cache (kv_cache_state g)).
Proof.
  intros Hstart Hadv HC.
  pose proof (advance_num_past_tokens _ _ _ _ _ Hadv) as Hnum.
  destruct (get_next_token_step _ _ _ _ _ Hstart) as (Hnum0 & logits & Hinf).
  simpl in Hnum0. rewrite Hnum0 in Hnum. rewrite <- Hnum.
  apply (session_inv_advance k g0 g); [|lia|done].
  rewrite Hnum0. change (length prompt_tokens) with (0 + length prompt_tokens).
  eapply session_inv_step; [apply session_inv_fresh| |exact Hinf]. lia.
Qed.
End SessionFacts.

Lemma fresh_session_unwritten_tail_witness :
  exists g0 g,
    get_next_token (SliceUpdateKeyValueCache Z) toy_state forward [5; 8; 1]%Z = inr g0 /\
    advance (SliceUpdateKeyValueCache Z) forward 2 g0 = inr g /\
    shape5 (k_cache (kv_cache_state g)) = (2, 1, 1, 8, 1) /\
    shape5 (v_cache (kv_cache_state g)) = (2, 1, 1, 8, 1) /\
    wf5 (k_cache (kv_cache_state g)) /\ wf5 (v_cache (kv_cache_state g)) /\
    unwritten_from 0%Z (3 + 2) (k_cache (kv_cache_state g)) /\
    unwritten_from 0%Z (3 + 2) (v_cache (kv_cache_state g)).
Proof.
  assert (Hrun : exists g0 g,
             get_next_token (SliceUpdateKeyValueCache Z) toy_state forward [5; 8; 1]%Z = inr g0 /\
             advance (SliceUpdateKeyValueCache Z) forward 2 g0 = inr g)
    by (eexists _, _; split; [vm_compute; reflexivity | vm_compute; reflexivity]).
  destruct Hrun as (g0 & g & E0 & E1). exists g0, g. split; [exact E0|]. split; [exact E1|].
  apply (fresh_session_unwritten_tail (T := toy_transformer) 0%Z 1 1 8 1
           (WS := toy_well_shaped) [5; 8; 1]%Z 2 g0 g E0 E1).
  simpl. lia.
Defined.

(** ** The construction of the stateful module *)

(** X18: [StatefulMistralForCausalLM.__init__]: with no attention head the
    division raises before anything is allocated; otherwise the cache has the
    shape (num_hidden_layers, batch_size, num_key_value_heads,
    max_context_size, hidden_size // num_attention_heads), is zero-filled
    with its counter at 0 and has capacity max_context_size when none of
    these is negative, and is refused by the tensor library when one is. *)
Theorem stateful_init_outcomes {A} (zero : A) (config : MistralConfig)
    (max_context_size batch_size : Z) :
  let head_dim := (config_hidden_size config / config_num_attention_heads config)%Z in
  let shape := (config_num_hidden_layers config, batch_size,
                config_num_key_value_heads config, max_context_size, head_dim) in
  (config_num_attention_heads config = 0%Z ->
     StatefulMistralForCausalLM_init zero config max_context_size batch_size
     = inl ZeroDivisionError) /\
  (config_num_attention_heads config <> 0%Z ->
   (0 <= config_num_hidden_layers config)%Z /\ (0 <= batch_size)%Z /\
   (0 <= config_num_key_value_heads config)%Z /\ (0 <= max_context_size)%Z /\
   (0 <= head_dim)%Z ->
     exists kv_cache,
       StatefulMistralForCausalLM_init zero config max_context_size batch_size
       = inr (shape, kv_cache) /\
       past_seen_tokens kv_cache = 0%Z /\ k_cache kv_cache = v_cache kv_cache /\
       k_cache kv_cache =
         zeros5 zero (Z.to_nat (config_num_hidden_layers config)) (Z.to_nat batch_size)
                (Z.to_nat (config_num_key_value_heads config)) (Z.to_nat max_context_size)
                (Z.to_nat head_dim) /\
       wf5 (k_cache kv_cache) /\
       capacity (k_cache kv_cache) = Z.to_nat max_context_size) /\
  (config_num_attention_heads config <> 0%Z ->
   (config_num_hidden_layers config < 0 \/ batch_size < 0 \/
    config_num_key_value_heads config < 0 \/ max_context_size < 0 \/ head_dim < 0)%Z ->
     StatefulMistralForCausalLM_init zero config max_context_size batch_size
     = inl (CacheError RuntimeError)).
Proof.
  intros head_dim shape. unfold StatefulMistralForCausalLM_init, kv_cache_shape.
  split_and!.
  - intros ->. done.
  - intros Hne (H1 & H2 & H3 & H4 & H5).
    apply Z.eqb_neq in Hne. rewrite Hne.
    unfold SliceUpdateKeyValueCache_init. fold head_dim.
    rewrite torch_zeros_nonneg by done.
    eexists. split; [done|]. cbn [past_seen_tokens k_cache v_cache].
    split_and!; try done. apply wf5_zeros5.
  - intros Hne Hneg. apply Z.eqb_neq in Hne. rewrite Hne.
    unfold SliceUpdateKeyValueCache_init. fold head_dim.
    by rewrite torch_zeros_negative.
Qed.

Lemma stateful_init_outcomes_witness :
  (exists kv_cache : SliceUpdateKeyValueCache Z,
     StatefulMistralForCausalLM_init 0%Z ex_config 8 1 = inr ((2, 1, 1, 8, 3)%Z, kv_cache) /\
     past_seen_tokens kv_cache = 0%Z /\ k_cache kv_cache = v_cache kv_cache /\
     k_cache kv_cache = zeros5 0%Z 2 1 1 8 3 /\
     wf5 (k_cache kv_cache) /\ capacity (k_cache kv_cache) = 8) /\
  StatefulMistralForCausalLM_init 0%Z (mkMistralConfig 2 1 6 0) 8 1
    = (inl ZeroDivisionError : init_exn + (Z * Z * Z * Z * Z) * SliceUpdateKeyValueCache Z) /\
  StatefulMistralForCausalLM_init 0%Z ex_config (-8) 1
    = (inl (CacheError RuntimeError)
       : init_exn + (Z * Z * Z * Z * Z) * SliceUpdateKeyValueCache Z).
Proof.
  split; [|split].
  - apply (stateful_init_outcomes 0%Z ex_config 8 1); [discriminate|].
    vm_compute. repeat split; discriminate.
  - apply (stateful_init_outcomes 0%Z (mkMistralConfig 2 1 6 0) 8 1). reflexivity.
  - apply (proj2 (proj2 (stateful_init_outcomes 0%Z ex_config (-8) 1))); [discriminate|].
    right. right. right. left. reflexivity.
Defined.

(** ** The tokenizer entry of the metadata *)

Section LoadFacts.
Variables MLModel AutoTokenizer : Type.
Variable MLModel_open : string -> exn + MLModel.
Variable userDefined : MLModel -> gmap string string.
Variable from_pretrained : string -> exn + AutoTokenizer.

(** X19: A package whose metadata has no tokenizer entry: [load] raises
    ValueError, whatever else the metadata holds. *)
Theorem load_without_tokenizer_entry (model_path : string) (model : MLModel) :
  MLModel_open model_path = inr model ->
  METADATA_TOKENIZER ∉ dom (userDefined model) ->
  load MLModel AutoTokenizer MLModel_open userDefined from_pretrained model_path
  = inl ValueError.
Proof.
  intros Hopen Hdom. unfold load. rewrite Hopen.
  apply not_elem_of_dom in Hdom. by rewrite Hdom.
Qed.

(** X20: A package whose metadata went through the last step of [export]: [load]
    finds the tokenizer entry and loads the tokenizer of [MODEL_ID], whatever
    the metadata held before, also under the same key. *)
Theorem load_after_export (model_path : string) (model : MLModel)
    (metadata : gmap string string) :
  MLModel_open model_path = inr model ->
  userDefined model = export_metadata metadata ->
  load MLModel AutoTokenizer MLModel_open userDefined from_pretrained model_path =
  match from_pretrained MODEL_ID with
  | inl e => inl e
  | inr tokenizer => inr (model, tokenizer)
  end.
Proof.
  intros Hopen Hmeta. unfold load. rewrite Hopen, Hmeta.
  unfold export_metadata. by rewrite lookup_insert_eq.
Qed.
End LoadFacts.

Lemma load_without_tokenizer_entry_witness :
  load (gmap string string) string (fun _ => inr {["author" := "someone"]})
       (fun m => m) (fun path => inr path) "StatefulMistral7BInstructInt4.mlpackage"
  = inl ValueError.
Proof.
  apply (load_without_tokenizer_entry (gmap string string) string
           (fun _ => inr {["author" := "someone"]}) (fun m => m) (fun path => inr path)
           "StatefulMistral7BInstructInt4.mlpackage" {["author" := "someone"]}).
  - reflexivity.
  - vm_compute. set_solver.
Defined.

Lemma load_after_export_witness :
  load (gmap string string) string
       (fun _ => inr (export_metadata {[METADATA_TOKENIZER := "an/older-model"]}))
       (fun m => m) (fun path => inr path) "StatefulMistral7BInstructInt4.mlpackage"
  = inr (export_metadata {[METADATA_TOKENIZER := "an/older-model"]}, MODEL_ID).
Proof.
  apply (load_after_export (gmap string string) string
           (fun _ => inr (export_metadata {[METADATA_TOKENIZER := "an/older-model"]}))
           (fun m => m) (fun path => inr path)
           "StatefulMistral7BInstructInt4.mlpackage"
           (export_metadata {[METADATA_TOKENIZER := "an/older-model"]})
           {[METADATA_TOKENIZER := "an/older-model"]}).
  - reflexivity.
  - reflexivity.
Defined.

(** ** The masks of a session *)

Lemma calls_causal_snoc (occupancy : nat) (calls : list (list Z * Tensor4 mval))
    (input_ids : list Z) (m : Tensor4 mval) :
  calls_causal occupancy calls ->
  mask_causal (occupancy + tokens_fed calls) (length input_ids) m ->
  calls_causal occupancy (calls ++ [(input_ids, m)]).
Proof.
  revert occupancy. induction calls as [|[ids m'] calls IH]; intros occupancy Hc Hm.
  - unfold tokens_fed in Hm. simpl in Hm. rewrite Nat.add_0_r in Hm. by split.
  - destruct Hc as [Hhd Htl]. split; [done|]. apply IH; [done|].
    unfold tokens_fed in *. simpl in Hm. by rewrite <- Nat.add_assoc.
Qed.

Lemma tokens_fed_snoc (calls : list (list Z * Tensor4 mval)) (input_ids : list Z)
    (m : Tensor4 mval) :
  tokens_fed (calls ++ [(input_ids, m)]) = tokens_fed calls + length input_ids.
Proof.
  unfold tokens_fed. induction calls as [|call calls IH]; simpl; lia.
Qed.

Section RecordedCalls.
Variable State : Type.
Variable make_state : State.
Variable predict : list Z -> Tensor4 mval -> M State Logits.

Local Abbreviation RState := (State * list (list Z * Tensor4 mval))%type.

(** The call [inference] makes is recorded with the mask it built, whatever
    the model answers. *)
Lemma inference_recording (input_ids : list Z) (p : nat) (s : RState) :
  (inference RState (recording predict) input_ids p s).1.2
  = s.2 ++ [(input_ids, causal_mask input_ids p)].
Proof.
  unfold inference. rewrite bind_ret_r. unfold recording.
  by destruct (predict input_ids (causal_mask input_ids p) s.1).
Qed.

(** Recording changes nothing in what the model is asked and answers. *)
Lemma inference_recording_run (input_ids : list Z) (p : nat) (s : RState) :
  inference RState (recording predict) input_ids p s
  = (((inference State predict input_ids p s.1).1,
     s.2 ++ [(input_ids, causal_mask input_ids p)]),
     (inference State predict input_ids p s.1).2).
Proof.
  unfold inference. rewrite !bind_ret_r. unfold recording.
  by destruct (predict input_ids (causal_mask input_ids p) s.1).
Qed.

Lemma get_next_token_forget (prompt_tokens : list Z) :
  get_next_token State make_state predict prompt_tokens
  = match get_next_token RState (make_state, []) (recording predict) prompt_tokens with
    | inr g0 => inr (forget_calls g0)
    | inl e => inl e
    end.
Proof.
  unfold get_next_token, bind. rewrite inference_recording_run. simpl.
  destruct (inference State predict prompt_tokens 0 make_state) as [s [e|logits]]; [done|].
  simpl. unfold lift. by destruct (sample logits).
Qed.

Lemma next_forget (g : Generator RState) :
  next State predict (forget_calls g)
  = match next RState (recording predict) g with
    | inr g' => inr (forget_calls g')
    | inl e => inl e
    end.
Proof.
  unfold next, bind. rewrite inference_recording_run. simpl.
  destruct (inference State predict [token g] (num_past_tokens g) (kv_cache_state g).1)
    as [s [e|logits]]; [done|].
  simpl. unfold lift. by destruct (sample logits).
Qed.

Lemma advance_forget (k : nat) (g : Generator RState) :
  advance State predict k (forget_calls g)
  = match advance RState (recording predict) k g with
    | inr g' => inr (forget_calls g')
    | inl e => inl e
    end.
Proof.
  revert g. induction k as [|k IH]; intros g; [done|].
  simpl. rewrite next_forget.
  destruct (next RState (recording predict) g) as [e|g1]; [done|]. apply IH.
Qed.

Lemma get_next_token_recording (prompt_tokens : list Z) (g0 : Generator RState) :
  get_next_token RState (make_state, []) (recording predict) prompt_tokens = inr g0 ->
  num_past_tokens g0 = length prompt_tokens /\
  (kv_cache_state g0).2 = [(prompt_tokens, causal_mask prompt_tokens 0)].
Proof.
  intros Hstart. apply get_next_token_step in Hstart as (Hn & logits & Hinf).
  split; [done|].
  pose proof (inference_recording prompt_tokens 0 (make_state, [])) as Hrec.
  by rewrite Hinf in Hrec.
Qed.

Lemma next_recording (g g' : Generator RState) :
  next RState (recording predict) g = inr g' ->
  num_past_tokens g' = num_past_tokens g + 1 /\
  (kv_cache_state g').2
  = (kv_cache_state g).2 ++ [([token g], causal_mask [token g] (num_past_tokens g))].
Proof.
  intros Hnext. apply next_step in Hnext as (Hn & logits & Hinf).
  split; [done|].
  pose proof (inference_recording [token g] (num_past_tokens g) (kv_cache_state g)) as Hrec.
  by rewrite Hinf in Hrec.
Qed.

Lemma advance_recording (k : nat) (g g' : Generator RState) :
  advance RState (recording predict) k g = inr g' ->
  num_past_tokens g = tokens_fed (kv_cache_state g).2 ->
  calls_causal 0 (kv_cache_state g).2 ->
  num_past_tokens g' = tokens_fed (kv_cache_state g').2 /\
  length (kv_cache_state g').2 = length (kv_cache_state g).2 + k /\
  calls_causal 0 (kv_cache_state g').2.
Proof.
  revert g. induction k as [|k IH]; intros g Hadv Hn Hc.
  - simpl in Hadv. injection Hadv as <-. split; [done|]. split; [lia|done].
  - simpl in Hadv. destruct (next RState (recording predict) g) as [e|g1] eqn:Enext; [done|].
    apply next_recording in Enext as [Hn1 Hcalls1].
    destruct (IH g1 Hadv) as (Hn' & Hlen' & Hc').
    + rewrite Hcalls1, tokens_fed_snoc. simpl. lia.
    + rewrite Hcalls1. apply calls_causal_snoc; [done|].
      simpl. rewrite <- Hn. apply (causal_mask_loop_pairs [token g]). right. simpl. lia.
    + split; [done|]. split; [|done].
      rewrite Hlen', Hcalls1, length_app. simpl. lia.
Qed.

(** C2: in every session, whatever the model answers, the mask built for a
    step is the mask of that step: taking as occupancyBefore the number of
    tokens fed by the steps before it and as newTokenCount the number of
    tokens it feeds, the mask has shape (newTokenCount, occupancyBefore +
    newTokenCount) (under two leading axes of size 1) and its entry at row
    [i] and column [j] is 0 exactly when [j <= occupancyBefore + i], and -inf
    otherwise.  The session is observed through the recording model, which
    runs as the model itself does (the first two statements).  The property
    holds for the mask of the first step, whether or not that step raises,
    for the masks of all the steps made so far once the first step and [k]
    further ones have returned, and for the mask of the step made next,
    whether or not it raises; the counter of the driver is the number of
    tokens fed so far. *)
Theorem session_masks_causal (prompt_tokens : list Z) :
  get_next_token State make_state predict prompt_tokens
  = match get_next_token RState (make_state, []) (recording predict) prompt_tokens with
    | inr g0 => inr (forget_calls g0)
    | inl e => inl e
    end /\
  (forall (k : nat) (g : Generator RState),
     advance State predict k (forget_calls g)
     = match advance RState (recording predict) k g with
       | inr g' => inr (forget_calls g')
       | inl e => inl e
       end) /\
  calls_causal 0
    (inference RState (recording predict) prompt_tokens 0 (make_state, [])).1.2 /\
  forall (k : nat) (g0 g : Generator RState),
    get_next_token RState (make_state, []) (recording predict) prompt_tokens = inr g0 ->
    advance RState (recording predict) k g0 = inr g ->
    length (kv_cache_state g).2 = S k /\
    num_past_tokens g = tokens_fed (kv_cache_state g).2 /\
    calls_causal 0 (kv_cache_state g).2 /\
    (inference RState (recording predict) [token g] (num_past_tokens g)
               (kv_cache_state g)).1.2
    = (kv_cache_state g).2 ++ [([token g], causal_mask [token g] (num_past_tokens g))] /\
    calls_causal 0
      (inference RState (recording predict) [token g] (num_past_tokens g)
                 (kv_cache_state g)).1.2.
Proof.
  assert (Hfirst : mask_causal 0 (length prompt_tokens) (causal_mask prompt_tokens 0))
    by (apply causal_mask_loop_pairs; by left).
  split; [apply get_next_token_forget|]. split; [intros k g; apply advance_forget|].
  split.
  - rewrite inference_recording. simpl. by split.
  - intros k g0 g Hstart Hadv.
    apply get_next_token_recording in Hstart as [Hn0 Hcalls0].
    destruct (advance_recording k g0 g Hadv) as (Hn & Hlen & Hc).
    + rewrite Hcalls0. unfold tokens_fed. simpl. lia.
    + rewrite Hcalls0. simpl. by split.
    + rewrite Hcalls0 in Hlen. simpl in Hlen.
      split; [done|]. split; [done|]. split; [done|].
      rewrite inference_recording. split; [done|].
      apply calls_causal_snoc; [done|].
      simpl. rewrite <- Hn. apply (causal_mask_loop_pairs [token g]). right. simpl. lia.
Qed.
End RecordedCalls.

Lemma session_masks_causal_witness :
  exists g0 g : Generator (nat * list (list Z * Tensor4 mval)),
    get_next_token _ (0, []) (recording counting_predict) [5; 8; 2]%Z = inr g0 /\
    advance _ (recording counting_predict) 2 g0 = inr g /\
    length (kv_cache_state g).2 = 3 /\
    num_past_tokens g = tokens_fed (kv_cache_state g).2 /\
    calls_causal 0 (kv_cache_state g).2 /\
    calls_causal 0
      (inference _ (recording counting_predict) [token g] (num_past_tokens g)
                 (kv_cache_state g)).1.2.
Proof.
  assert (exists g0 g : Generator (nat * list (list Z * Tensor4 mval)),
    get_next_token _ (0, []) (recording counting_predict) [5; 8; 2]%Z = inr g0 /\
    advance _ (recording counting_predict) 2 g0 = inr g) as (g0 & g & Hg0 & Hg)
    by (eexists _, _; split; [vm_compute; reflexivity | vm_compute; reflexivity]).
  exists g0, g. split; [exact Hg0|]. split; [exact Hg|].
  destruct (session_masks_causal nat 0 counting_predict [5; 8; 2]%Z) as (_ & _ & _ & Hsteps).
  destruct (Hsteps 2 g0 g Hg0 Hg) as (H1 & H2 & H3 & _ & H5).
  split; [exact H1|]. split; [exact H2|]. split; [exact H3|exact H5].
Defined.

(** The session of the witness, spelled out: the three masks recorded are
    the 3 x 3 mask of the prompt, then one row of 4 and one row of 5
    columns. *)
Example session_masks_recorded :
  match get_next_token _ (0, []) (recording counting_predict) [5; 8; 2]%Z with
  | inr g0 =>
      match advance _ (recording counting_predict) 2 g0 with
      | inr g =>
          map (fun call => (call.1, shape4 call.2, data4 call.2)) (kv_cache_state g).2
          = [([5; 8; 2]%Z, (1, 1, 3, 3),
              [[[[Zero; NegInf; NegInf]; [Zero; Zero; NegInf]; [Zero; Zero; Zero]]]]);
             ([0%Z], (1, 1, 1, 4), [[[[Zero; Zero; Zero; Zero]]]]);
             ([0%Z], (1, 1, 1, 5), [[[[Zero; Zero; Zero; Zero; Zero]]]])]
      | inl _ => False
      end
  | inl _ => False
  end.
Proof. vm_compute. reflexivity. Qed.

(** ** What [generate] returns *)

Section GenerateFacts.
Variable State : Type.
Variable make_state : State.
Variable predict : list Z -> Tensor4 mval -> M State Logits.
Variable Text : Type.
Variable decode : list Z -> Text.

Local Abbreviation get_next_token := (get_next_token State make_state predict).
Local Abbreviation next := (next State predict).
Local Abbreviation advance := (advance State predict).
Local Abbreviation run_tokens := (generate_tokens State make_state predict).
Local Abbreviation run := (generate State make_state predict decode).

End GenerateFacts.


(** The session of the witness, run: four tokens are returned after the
    prompt, none of them the stop token 0. *)
Example generate_returns_at_limit :
  generate (SliceUpdateKeyValueCache Z) toy_state forward (fun tokens => tokens)
           6 [5; 8; 1]%Z 0 4
  = Some (inr [5; 8; 1; 1; 2; 1; 1]%Z).
Proof. vm_compute. reflexivity. Qed.


(** ** The two counters of a decoding step *)

Section CounterFacts.
Context {A : Type} {T : Transformer A}.
Variables B H C D : nat.
Context {WS : WellShaped T B H D}.

Local Abbreviation L := (@num_hidden_layers A T).
Local Abbreviation Cache := (SliceUpdateKeyValueCache A).

(** Whatever its outcome, a step at occupancy [p] leaves the counter of the
    cache at [p]. *)
Lemma inference_forward_counter (input_ids : list Z) (p : nat) (c : Cache) :
  get_seq_length (inference Cache forward input_ids p c).1 = Z.of_nat p.
Proof.
  unfold inference. rewrite bind_ret_r, forward_state. unfold get_seq_length.
  destruct (decoder_layers_keeps (causal_mask input_ids p)
              (position_ids_of
                 (Z.of_nat (last_dim (causal_mask input_ids p)) - Z.of_nat (length input_ids))
                 (length input_ids))
              (seq 0 L) (embed_tokens input_ids)
              (set_past_seen_tokens
                 (Z.of_nat (last_dim (causal_mask input_ids p)) - Z.of_nat (length input_ids)) c))
    as (K1 & _ & _).
  rewrite K1. cbn [past_seen_tokens set_past_seen_tokens].
  unfold last_dim. rewrite shape4_causal_mask. simpl. lia.
Qed.

(** C1, as the code has it.  (1) A decoding step of [n] new tokens at
    occupancy [p], within the capacity ([p + n <= C]), returns; in every
    layer, batch entry and head the rows of the key buffer and of the value
    buffer after the step are the rows before it with exactly the positions
    [[p, p + n)] replaced by the [n] rows of the chunk that layer computed;
    and the counter of the cache, the one [get_seq_length] reports, is [p]
    after the step, the occupancy before it, not [p + n].  (2) The first step
    of the driver is such a step at occupancy 0 with the prompt and (3) every
    later one is such a step at the counter of the driver with one token; each
    leaves the counter of the driver at the occupancy before the step plus
    the number of new tokens, and the counter of the cache at the occupancy
    before the step.  (4) So after the first step and [k] further ones the
    counter of the driver is the sum of the numbers of new tokens of all
    these steps, and the counter of the cache is that sum less the number of
    new tokens of the last step. *)
Theorem decoding_step_occupancy :
  (forall (c : Cache) (input_ids : list Z) (p : nat),
     shape5 (k_cache c) = (L, B, H, C, D) -> shape5 (v_cache c) = (L, B, H, C, D) ->
     wf5 (k_cache c) -> wf5 (v_cache c) ->
     p + length input_ids <= C ->
     exists c' logits,
       inference Cache forward input_ids p c = (c', inr logits) /\
       get_seq_length c' = Z.of_nat p /\
       shape5 (k_cache c') = (L, B, H, C, D) /\ shape5 (v_cache c') = (L, B, H, C, D) /\
       wf5 (k_cache c') /\ wf5 (v_cache c') /\
       forall l, l < L ->
         exists hl, q_len_of hl = length input_ids /\
           let k_state := key_chunk l hl (position_ids_of (Z.of_nat p) (length input_ids)) in
           let v_state := value_chunk l hl in
           forall bi hi, bi < B -> hi < H ->
             length (chunk_at (data4 k_state) bi hi) = length input_ids /\
             length (chunk_at (data4 v_state) bi hi) = length input_ids /\
             chunk_at (layer_data (k_cache c') l) bi hi =
               take p (chunk_at (layer_data (k_cache c) l) bi hi)
               ++ chunk_at (data4 k_state) bi hi
               ++ drop (p + length input_ids) (chunk_at (layer_data (k_cache c) l) bi hi) /\
             chunk_at (layer_data (v_cache c') l) bi hi =
               take p (chunk_at (layer_data (v_cache c) l) bi hi)
               ++ chunk_at (data4 v_state) bi hi
               ++ drop (p + length input_ids) (chunk_at (layer_data (v_cache c) l) bi hi))
  /\
  (forall (c0 : Cache) (prompt_tokens : list Z) g0,
     get_next_token Cache c0 forward prompt_tokens = inr g0 ->
     num_past_tokens g0 = 0 + length prompt_tokens /\
     get_seq_length (kv_cache_state g0) = 0%Z /\
     exists logits,
       inference Cache forward prompt_tokens 0 c0 = (kv_cache_state g0, inr logits))
  /\
  (forall g g',
     next Cache forward g = inr g' ->
     num_past_tokens g' = num_past_tokens g + length [token g] /\
     get_seq_length (kv_cache_state g') = Z.of_nat (num_past_tokens g) /\
     exists logits,
       inference Cache forward [token g] (num_past_tokens g) (kv_cache_state g)
       = (kv_cache_state g', inr logits))
  /\
  (forall (c0 : Cache) (prompt_tokens : list Z) g0 (k : nat) g,
     get_next_token Cache c0 forward prompt_tokens = inr g0 ->
     advance Cache forward k g0 = inr g ->
     num_past_tokens g = sum_list (length prompt_tokens :: replicate k 1) /\
     get_seq_length (kv_cache_state g)
     = Z.of_nat (sum_list (length prompt_tokens :: replicate k 1)
                 - match k with 0 => length prompt_tokens | S _ => 1 end)).
Proof.
  assert (Hfirst : forall (c0 : Cache) (prompt_tokens : list Z) g0,
     get_next_token Cache c0 forward prompt_tokens = inr g0 ->
     num_past_tokens g0 = 0 + length prompt_tokens /\
     get_seq_length (kv_cache_state g0) = 0%Z /\
     exists logits,
       inference Cache forward prompt_tokens 0 c0 = (kv_cache_state g0, inr logits)).
  { intros c0 prompt g0 Hstart.
    destruct (get_next_token_step _ _ _ _ _ Hstart) as (Hn & logits & Hinf).
    split; [done|]. split; [|by exists logits].
    pose proof (inference_forward_counter prompt 0 c0) as Hc. by rewrite Hinf in Hc. }
  assert (Hnext : forall g g',
     next Cache forward g = inr g' ->
     num_past_tokens g' = num_past_tokens g + length [token g] /\
     get_seq_length (kv_cache_state g') = Z.of_nat (num_past_tokens g) /\
     exists logits,
       inference Cache forward [token g] (num_past_tokens g) (kv_cache_state g)
       = (kv_cache_state g', inr logits)).
  { intros g g' Hstep.
    destruct (next_step _ _ _ _ Hstep) as (Hn & logits & Hinf).
    split; [done|]. split; [|by exists logits].
    pose proof (inference_forward_counter [token g] (num_past_tokens g) (kv_cache_state g))
      as Hc.
    by rewrite Hinf in Hc. }
  split_and!.
  - intros c input_ids p Esk Esv Wk Wv HpC.
    set (n := length input_ids) in *.
    set (mask := causal_mask input_ids p).
    set (c1 := set_past_seen_tokens (Z.of_nat p) c).
    set (pos := position_ids_of (Z.of_nat p) n).
    destruct (decoder_layers_spec B H C D mask pos p n eq_refl HpC (seq 0 L)
                (embed_tokens input_ids) c1)
      as (c' & h' & Hrun & Hpast & Esk' & Esv' & Wk' & Wv' & _ & Hwritten);
      try done.
    { apply NoDup_seq. }
    { intros l Hl. apply elem_of_seq in Hl. lia. }
    { apply embed_tokens_q_len. }
    exists c', (lm_head h'). split_and!; try done.
    + unfold inference. rewrite bind_ret_r.
      unfold forward, model_call, bind, get, put, ret, get_seq_length.
      replace (Z.of_nat (last_dim (causal_mask input_ids p)) - Z.of_nat (length input_ids))%Z
        with (Z.of_nat p) by (unfold last_dim; rewrite shape4_causal_mask; simpl; lia).
      fold c1. cbn [past_seen_tokens set_past_seen_tokens c1].
      fold n mask pos. by rewrite Hrun.
    + intros l Hl.
      destruct (Hwritten l) as (hl & Hq & Hk & Hv); [apply elem_of_seq; lia|].
      exists hl. split; [done|]. intros k_state v_state bi hi Hbi Hhi.
      assert (Hsk : wf_data4 (B, H, n, D) (data4 k_state)).
      { pose proof (key_chunk_wf l hl pos) as Hw. unfold wf4 in Hw.
        by rewrite key_chunk_shape, Hq in Hw. }
      assert (Hsv : wf_data4 (B, H, n, D) (data4 v_state)).
      { pose proof (value_chunk_wf l hl) as Hw. unfold wf4 in Hw.
        by rewrite value_chunk_shape, Hq in Hw. }
      destruct (wf5_layer_data (k_cache c) _ _ _ _ _ l Esk Wk Hl) as [_ Hwk].
      destruct (wf5_layer_data (v_cache c) _ _ _ _ _ l Esv Wv Hl) as [_ Hwv].
      split_and!.
      * by apply (length_chunk_at B H n D).
      * by apply (length_chunk_at B H n D).
      * rewrite Hk. by apply (chunk_at_write_view_inside B H C D).
      * rewrite Hv. by apply (chunk_at_write_view_inside B H C D).
  - exact Hfirst.
  - exact Hnext.
  - intros c0 prompt g0 k g Hstart Hadv.
    pose proof (advance_num_past_tokens _ _ _ _ _ Hadv) as Hnum.
    destruct (Hfirst _ _ _ Hstart) as (Hn0 & Hc0 & _).
    rewrite sum_list_step_counts. split; [lia|].
    destruct k as [|k].
    + simpl in Hadv. injection Hadv as <-. rewrite Hc0. lia.
    + destruct (advance_last _ _ _ _ _ Hadv) as (g' & Hg' & Hstep).
      destruct (Hnext _ _ Hstep) as (_ & Hc & _).
      apply advance_num_past_tokens in Hg'. rewrite Hc. lia.
Qed.
End CounterFacts.

Lemma decoding_step_occupancy_witness :
  (exists c' logits,
     inference (SliceUpdateKeyValueCache Z) forward [5; 8; 2]%Z 0 toy_state = (c', inr logits) /\
     get_seq_length c' = 0%Z /\
     forall l, l < 2 ->
       exists hl, q_len_of hl = 3 /\
         chunk_at (layer_data (k_cache c') l) 0 0 =
           take 0 (chunk_at (layer_data (k_cache toy_state) l) 0 0)
           ++ chunk_at (data4 (key_chunk l hl (position_ids_of 0 3))) 0 0
           ++ drop (0 + 3) (chunk_at (layer_data (k_cache toy_state) l) 0 0) /\
         chunk_at (layer_data (v_cache c') l) 0 0 =
           take 0 (chunk_at (layer_data (v_cache toy_state) l) 0 0)
           ++ chunk_at (data4 (value_chunk l hl)) 0 0
           ++ drop (0 + 3) (chunk_at (layer_data (v_cache toy_state) l) 0 0)) /\
  (exists g0 g,
     get_next_token (SliceUpdateKeyValueCache Z) toy_state forward [5; 8; 2]%Z = inr g0 /\
     advance (SliceUpdateKeyValueCache Z) forward 1 g0 = inr g /\
     num_past_tokens g0 = 0 + 3 /\
     get_seq_length (kv_cache_state g0) = 0%Z /\
     num_past_tokens g = sum_list [3; 1] /\
     get_seq_length (kv_cache_state g) = Z.of_nat (sum_list [3; 1] - 1)).
Proof.
  destruct (decoding_step_occupancy (T := toy_transformer) 1 1 8 1 (WS := toy_well_shaped))
    as (Hstep & Hfirst & _ & Hsum).
  split.
  - destruct (Hstep toy_state [5; 8; 2]%Z 0) as (c' & logits & H1 & H2 & _ & _ & _ & _ & H3).
    + reflexivity.
    + reflexivity.
    + apply toy_state_wf.
    + apply toy_state_wf.
    + simpl. lia.
    + exists c', logits. split; [exact H1|]. split; [exact H2|].
      intros l Hl. destruct (H3 l Hl) as (hl & Hq & Hrows).
      exists hl. split; [exact Hq|].
      destruct (Hrows 0 0) as (_ & _ & Hk & Hv); [lia | lia |].
      split; [exact Hk | exact Hv].
  - assert (exists g0 g,
      get_next_token (SliceUpdateKeyValueCache Z) toy_state forward [5; 8; 2]%Z = inr g0 /\
      advance (SliceUpdateKeyValueCache Z) forward 1 g0 = inr g) as (g0 & g & Hg0 & Hg)
      by (eexists _, _; split; [vm_compute; reflexivity | vm_compute; reflexivity]).
    exists g0, g. split; [exact Hg0|]. split; [exact Hg|].
    destruct (Hfirst toy_state [5; 8; 2]%Z g0 Hg0) as (Hn0 & Hc0 & _).
    destruct (Hsum toy_state [5; 8; 2]%Z g0 1 g Hg0 Hg) as (Hn & Hc).
    split; [exact Hn0|]. split; [exact Hc0|]. split; [exact Hn | exact Hc].
Defined.

(** C1 as stated fails on the counter of the cache: the step that feeds the
    three tokens of the prompt to an empty cache writes the rows 0, 1 and 2
    of the key buffer and leaves [get_seq_length] at 0, not at 0 + 3; and
    after one more step, with four rows written, it is at 3.  It also fails
    beyond the capacity: at occupancy 4 in buffers of 4 positions the step
    writes nothing. *)
Lemma cache_counter_is_occupancy_before :
  get_seq_length (inference (SliceUpdateKeyValueCache Z) forward [5; 8; 2]%Z 0 toy_state).1
    = 0%Z /\
  get_seq_length (inference (SliceUpdateKeyValueCache Z) forward [5; 8; 2]%Z 0 toy_state).1
    <> (0 + 3)%Z /\
  chunk_at (layer_data
              (k_cache (inference (SliceUpdateKeyValueCache Z) forward [5; 8; 2]%Z 0
                                  toy_state).1) 0) 0 0
    = [[5]; [8]; [2]; [0]; [0]; [0]; [0]; [0]]%Z /\
  match generate_tokens (SliceUpdateKeyValueCache Z) toy_state forward 6 [5; 8; 2]%Z 0 4 with
  | Some (inr (g, _)) =>
      num_past_tokens g = 3 + 1 /\ get_seq_length (kv_cache_state g) = 3%Z /\
      chunk_at (layer_data (k_cache (kv_cache_state g)) 0) 0 0
        = [[5]; [8]; [2]; [2]; [0]; [0]; [0]; [0]]%Z
  | _ => False
  end /\
  shape5 (k_cache toy_cache_a) = (2, 1, 1, 4, 1) /\
  k_cache (inference (SliceUpdateKeyValueCache Z) forward [8]%Z 4 toy_cache_a).1
    = k_cache toy_cache_a /\
  v_cache (inference (SliceUpdateKeyValueCache Z) forward [8]%Z 4 toy_cache_a).1
    = v_cache toy_cache_a.
Proof.
  split; [reflexivity|]. split; [by vm_compute|]. split; [reflexivity|].
  split; [vm_compute; done|]. split; [reflexivity|]. split; reflexivity.
Qed.
